(** * ANTS: the Wi-Fi scan helper and the SiGPyC process supervisor

    A shallow embedding of [ants/network_scan.py] and of the start
    operations of [sigpyc/sigcontrol.py], with the properties of the
    specification stated and proved over it.

    Python values are modelled as the code uses them: [str] as [string],
    an attribute that is either [None] or a [str] as [option string], a
    list as [list], an exception as a constructor of [exn].

    A [string] stands for the [str] that has one character per [ascii],
    the character U+00nn for the code nn; a [str] with a character above
    U+00FF has no counterpart here.  On ASCII text, which is all the code
    itself writes, this is the usual reading of a string literal. *)

From Stdlib Require Import ZArith Ascii String Bool Lia.
From stdpp Require Import base tactics option list.

Local Open Scope string_scope.
Local Open Scope Z_scope.

(** ** Python exceptions and results *)

Inductive exn : Type :=
  | TypeError
  | ValueError
  | IndexError
  | AttributeError
  | OSError.

Inductive result (A : Type) : Type :=
  | Ok (a : A)
  | Err (e : exn).
Arguments Ok {A} a.
Arguments Err {A} e.

Definition rbind {A B : Type} (r : result A) (k : A → result B) : result B :=
  match r with
  | Ok a => k a
  | Err e => Err e
  end.

Declare Scope result_scope.
Delimit Scope result_scope with result.
Notation "x <- r ;; k" := (rbind r (fun x => k))
  (at level 100, r at next level, right associativity) : result_scope.

(** ** Text helpers *)

Module Text.

Definition newline : ascii := ascii_of_nat 10.
Definition dquote : ascii := ascii_of_nat 34.

Definition is_digit (c : ascii) : bool :=
  (48 <=? nat_of_ascii c)%nat && (nat_of_ascii c <=? 57)%nat.

Definition digit_val (c : ascii) : Z := Z.of_nat (nat_of_ascii c - 48).

(** The characters [int] skips as white space at both ends of its
    argument: tab to carriage return and the space, and of the
    characters above U+007F the next-line control U+0085 and the
    no-break space U+00A0.  The separators U+001C to U+001F are not
    among them: [int] raises [ValueError] on them. *)
Definition is_space (c : ascii) : bool :=
  let n := nat_of_ascii c in
  ((9 <=? n)%nat && (n <=? 13)%nat) || (n =? 32)%nat || (n =? 133)%nat || (n =? 160)%nat.

Fixpoint all_digits (s : string) : bool :=
  match s with
  | EmptyString => true
  | String c r => is_digit c && all_digits r
  end.

Fixpoint take (n : nat) (s : string) : string :=
  match n, s with
  | S k, String c r => String c (take k r)
  | _, _ => EmptyString
  end.

Fixpoint drop (n : nat) (s : string) : string :=
  match n, s with
  | S k, String _ r => drop k r
  | _, _ => s
  end.

(** [strip_prefix p s] is the rest of [s] after [p], when [s] starts with [p]. *)
Fixpoint strip_prefix (p s : string) : option string :=
  match p, s with
  | EmptyString, _ => Some s
  | String a p', String b s' =>
      if Ascii.eqb a b then strip_prefix p' s' else None
  | String _ _, EmptyString => None
  end.

Definition starts_with (p s : string) : bool :=
  match strip_prefix p s with Some _ => true | None => false end.

Fixpoint rev_onto (s acc : string) : string :=
  match s with
  | EmptyString => acc
  | String c r => rev_onto r (String c acc)
  end.

Definition rev (s : string) : string := rev_onto s EmptyString.

(** [s] without the white space [int] skips at its start, and at both
    ends. *)
Fixpoint lstrip (s : string) : string :=
  match s with
  | String c r => if is_space c then lstrip r else s
  | EmptyString => s
  end.

Definition strip (s : string) : string := rev (lstrip (rev (lstrip s))).

(** [s.split(sep)] for a non-empty separator: the pieces between the
    occurrences of [sep], found from left to right without overlap.
    [skip] counts the characters of a separator still to be passed over,
    [cur] holds the current piece, last character first. *)
Fixpoint split_go (sep s : string) (skip : nat) (cur : string) : list string :=
  match s with
  | EmptyString => [rev cur]
  | String c r =>
      match skip with
      | S k => split_go sep r k cur
      | O =>
          if starts_with sep s
          then rev cur :: split_go sep r (String.length sep - 1) EmptyString
          else split_go sep r O (String c cur)
      end
  end.

Definition split (sep s : string) : list string := split_go sep s O EmptyString.

End Text.

(** ** ants/network_scan.py *)

Module NetworkScan.

Import Text.

(** [class Cell]: [essid] and [level] hold what [get_essid] and
    [get_level] return, a [str] or [None]. *)
Record Cell : Type := mkCell { essid : option string; level : option string }.

(** *** The built-in [int] on a [str] or [None]

    White space is skipped at both ends, one sign is allowed, and the
    digits, [0] to [9], may be separated by single underscores; any
    other character, a NUL included, gives [ValueError].  More than
    [max_str_digits] digits are refused, as CPython does by default. *)

Definition max_str_digits : nat := 4300.

Fixpoint digits_go (s : string) (acc : Z) (count : nat) (after_digit : bool)
  : option (Z * nat) :=
  match s with
  | EmptyString => if after_digit then Some (acc, count) else None
  | String c r =>
      if is_digit c then digits_go r (10 * acc + digit_val c) (S count) true
      else if Ascii.eqb c "_" && after_digit then digits_go r acc count false
      else None
  end.

Definition int_of_digits (s : string) : result Z :=
  match digits_go s 0 O false with
  | Some (v, count) =>
      if (count <=? max_str_digits)%nat then Ok v else Err ValueError
  | None => Err ValueError
  end.

Definition int_of_str (s : string) : result Z :=
  match strip s with
  | String "+" r => int_of_digits r
  | String "-" r =>
      match int_of_digits r with Ok v => Ok (- v) | Err e => Err e end
  | t => int_of_digits t
  end.

Definition py_int (x : option string) : result Z :=
  match x with
  | None => Err TypeError
  | Some s => int_of_str s
  end.

(** *** [get_level]: [re.search] for Signal level=([0-9]{1,3})/100 *)

(** The group [([0-9]{1,3})] followed by [/100], tried with [n] digits. *)
Definition level_digits_at (n : nat) (r : string) : option string :=
  let d := take n r in
  if (String.length d =? n)%nat && all_digits d && starts_with "/100" (drop n r)
  then Some d else None.

(** The pattern anchored at the start of [s]; the quantifier is greedy,
    so three digits are tried first, then two, then one. *)
Definition level_at (s : string) : option string :=
  match strip_prefix "Signal level=" s with
  | None => None
  | Some r =>
      match level_digits_at 3 r with
      | Some d => Some d
      | None =>
          match level_digits_at 2 r with
          | Some d => Some d
          | None => level_digits_at 1 r
          end
      end
  end.

(** [re.search] tries the positions of [s] from left to right. *)
Fixpoint get_level (s : string) : option string :=
  match level_at s with
  | Some d => Some d
  | None =>
      match s with
      | EmptyString => None
      | String _ r => get_level r
      end
  end.

(** *** [get_essid]: [re.search] for ESSID: and a double-quoted, greedy any-character group *)

(** The any-character group and the closing quote, anchored at the start of [r]: the dot matches any character
    but a newline, and the star gives back characters until a double
    quote follows. *)
Fixpoint essid_group (r : string) : option string :=
  match r with
  | EmptyString => None
  | String c r' =>
      if Ascii.eqb c newline then None
      else
        match essid_group r' with
        | Some g => Some (String c g)
        | None => if Ascii.eqb c dquote then Some EmptyString else None
        end
  end.

Definition essid_at (s : string) : option string :=
  match strip_prefix (String.append "ESSID:" (String dquote EmptyString)) s with
  | None => None
  | Some r => essid_group r
  end.

Fixpoint get_essid (s : string) : option string :=
  match essid_at s with
  | Some g => Some g
  | None =>
      match s with
      | EmptyString => None
      | String _ r => get_essid r
      end
  end.

(** *** [get_cells] *)

(** The [for a in arr] loop, with its counter [index] and the list
    [cells] built so far. *)
Fixpoint get_cells_loop (arr : list string) (index : nat) (cells : list Cell)
  : list Cell :=
  match arr with
  | [] => cells
  | a :: rest =>
      let cells' :=
        if (index =? 0)%nat then cells
        else (cells ++ [mkCell (get_essid a) (get_level a)])%list in
      get_cells_loop rest (index + 1) cells'
  end.

Definition get_cells (s : string) : list Cell :=
  get_cells_loop (split "Cell" s) 0 [].

(** *** [max_cell_level] *)

(** The [for a in arr] loop over the rest of the list, with the locals
    [mx], [index] and [i]; it yields the final [index]. *)
Fixpoint max_cell_level_loop (arr : list Cell) (mx : Z) (index i : nat)
  : result nat :=
  match arr with
  | [] => Ok index
  | a :: rest =>
      (n <- py_int (level a) ;;
       if n >? mx
       then (n' <- py_int (level a) ;;
             max_cell_level_loop rest n' i (i + 1))
       else max_cell_level_loop rest mx index (i + 1))%result
  end.

Definition max_cell_level (arr : list Cell) : result Cell :=
  (index <- max_cell_level_loop arr 0 0 0 ;;
   match arr !! index with
   | Some c => Ok c
   | None => Err IndexError
   end)%result.

(** *** [network_scan]

    [iwlist device_name] stands for running [iwlist <device> scan] and
    reading [str(data)], the text handed to [get_cells]; it fails with
    the exception of [Popen] when the utility cannot be started.  The
    two [print] calls do not change the result. *)
Definition network_scan (iwlist : string → result string) (device_name : string)
  : result (option string) :=
  (data <- iwlist device_name ;;
   let cells := get_cells data in
   c <- max_cell_level cells ;;
   Ok (essid c))%result.

End NetworkScan.

(** ** sigpyc/sigcontrol.py *)

Module SigControl.

(** *** Processes

    Time is counted in steps of the supervisor: every [Popen], [poll]
    and [kill] takes one step, and the life of a child process is
    given in the same unit, so a busy-polling loop sees the exit of a
    child that exits. *)

(** The attribute of the controller a [Popen] object is stored in. *)
Inductive kind : Type := Usrp | Controller | IperfClient | IperfServer.

Definition kind_eqb (a b : kind) : bool :=
  match a, b with
  | Usrp, Usrp | Controller, Controller
  | IperfClient, IperfClient | IperfServer, IperfServer => true
  | _, _ => false
  end.

(** A [subprocess.Popen] object: the process it stands for and the
    [returncode] attribute, [None] until an exit has been observed. *)
Record popen : Type := mkPopen { pid : nat; returncode : option Z }.

(** A child process as the operating system has it: the command line,
    the time it was started, how long it runs when left alone ([None]:
    for ever), the exit code it then gives, and the time a SIGKILL
    reached it while it was running. *)
Record osproc : Type := mkProc {
  p_kind : kind;
  p_args : list string;
  p_start : nat;
  p_life : option nat;
  p_code : Z;
  p_killed : option nat
}.

Inductive pstate : Type :=
  | Idle
  | Running
  | Exited (code : Z)
  | Terminated.

Definition natural_state (t : nat) (p : osproc) : pstate :=
  match p_life p with
  | Some d => if (p_start p + d <=? t)%nat then Exited (p_code p) else Running
  | None => Running
  end.

Definition state_at (t : nat) (p : osproc) : pstate :=
  if (t <? p_start p)%nat then Idle
  else
    match p_killed p with
    | Some tk => if (tk <=? t)%nat then Terminated else natural_state t p
    | None => natural_state t p
    end.

Inductive event : Type :=
  | EvSpawn (k : kind) (p : nat)
  | EvPoll (p : nat)
  | EvKill (p : nat).

Record world : Type := mkWorld {
  now : nat;
  procs : list osproc;
  trace : list event;
  stdout : list string
}.

(** A number kept for its text only: [run_time] is read through [str]. *)
Record pynumber : Type := mkNumber { num_str : string }.

Definition str_opt (x : option string) : string :=
  match x with
  | None => "None"
  | Some s => s
  end.

(** Truth value of an attribute that is [None] or a [str]. *)
Definition truthy (x : option string) : bool :=
  match x with
  | None => false
  | Some EmptyString => false
  | Some (String _ _) => true
  end.

(** *** The controller object *)

Record controller : Type := mkController {
  usrp_proc : option popen;
  controller_proc : option popen;
  converter_proc : option popen;
  plotter_proc : option popen;
  iperf_client_proc : option popen;
  iperf_server_proc : option popen;
  iperf_client_addr : option string;
  iperf_server_addr : option string;
  iperf_rate : option string;
  iperf_mem_addr : option string;
  iperf_client_args : list string;
  iperf_server_args : list string;
  run_time : pynumber;
  file_name : string;
  working_dir : string;
  usrp_control_args : list string;
  sg_controller_args : list string;
  matlab_converter_args : option (list string);
  matlab_plotter_args : option (list string)
}.

Definition get_proc (k : kind) (s : controller) : option popen :=
  match k with
  | Usrp => usrp_proc s
  | Controller => controller_proc s
  | IperfClient => iperf_client_proc s
  | IperfServer => iperf_server_proc s
  end.

Definition set_proc (k : kind) (h : option popen) (s : controller) : controller :=
  mkController
    (match k with Usrp => h | _ => usrp_proc s end)
    (match k with Controller => h | _ => controller_proc s end)
    (converter_proc s) (plotter_proc s)
    (match k with IperfClient => h | _ => iperf_client_proc s end)
    (match k with IperfServer => h | _ => iperf_server_proc s end)
    (iperf_client_addr s) (iperf_server_addr s) (iperf_rate s) (iperf_mem_addr s)
    (iperf_client_args s) (iperf_server_args s)
    (run_time s) (file_name s) (working_dir s)
    (usrp_control_args s) (sg_controller_args s)
    (matlab_converter_args s) (matlab_plotter_args s).

Definition set_usrp_control_args (a : list string) (s : controller) : controller :=
  mkController
    (usrp_proc s) (controller_proc s) (converter_proc s) (plotter_proc s)
    (iperf_client_proc s) (iperf_server_proc s)
    (iperf_client_addr s) (iperf_server_addr s) (iperf_rate s) (iperf_mem_addr s)
    (iperf_client_args s) (iperf_server_args s)
    (run_time s) (file_name s) (working_dir s)
    a (sg_controller_args s)
    (matlab_converter_args s) (matlab_plotter_args s).

(** Assignments made from outside, by the window that owns the controller. *)
Definition set_file_name (f : string) (s : controller) : controller :=
  mkController
    (usrp_proc s) (controller_proc s) (converter_proc s) (plotter_proc s)
    (iperf_client_proc s) (iperf_server_proc s)
    (iperf_client_addr s) (iperf_server_addr s) (iperf_rate s) (iperf_mem_addr s)
    (iperf_client_args s) (iperf_server_args s)
    (run_time s) f (working_dir s)
    (usrp_control_args s) (sg_controller_args s)
    (matlab_converter_args s) (matlab_plotter_args s).

Definition set_run_time (r : pynumber) (s : controller) : controller :=
  mkController
    (usrp_proc s) (controller_proc s) (converter_proc s) (plotter_proc s)
    (iperf_client_proc s) (iperf_server_proc s)
    (iperf_client_addr s) (iperf_server_addr s) (iperf_rate s) (iperf_mem_addr s)
    (iperf_client_args s) (iperf_server_args s)
    r (file_name s) (working_dir s)
    (usrp_control_args s) (sg_controller_args s)
    (matlab_converter_args s) (matlab_plotter_args s).

Definition set_iperf_client_addr (a : option string) (s : controller) : controller :=
  mkController
    (usrp_proc s) (controller_proc s) (converter_proc s) (plotter_proc s)
    (iperf_client_proc s) (iperf_server_proc s)
    a (iperf_server_addr s) (iperf_rate s) (iperf_mem_addr s)
    (iperf_client_args s) (iperf_server_args s)
    (run_time s) (file_name s) (working_dir s)
    (usrp_control_args s) (sg_controller_args s)
    (matlab_converter_args s) (matlab_plotter_args s).

Definition set_iperf_rate (r : option string) (s : controller) : controller :=
  mkController
    (usrp_proc s) (controller_proc s) (converter_proc s) (plotter_proc s)
    (iperf_client_proc s) (iperf_server_proc s)
    (iperf_client_addr s) (iperf_server_addr s) r (iperf_mem_addr s)
    (iperf_client_args s) (iperf_server_args s)
    (run_time s) (file_name s) (working_dir s)
    (usrp_control_args s) (sg_controller_args s)
    (matlab_converter_args s) (matlab_plotter_args s).

Definition set_iperf_mem_addr (m : option string) (s : controller) : controller :=
  mkController
    (usrp_proc s) (controller_proc s) (converter_proc s) (plotter_proc s)
    (iperf_client_proc s) (iperf_server_proc s)
    (iperf_client_addr s) (iperf_server_addr s) (iperf_rate s) m
    (iperf_client_args s) (iperf_server_args s)
    (run_time s) (file_name s) (working_dir s)
    (usrp_control_args s) (sg_controller_args s)
    (matlab_converter_args s) (matlab_plotter_args s).

(** [__init__(test_mode)], with [cwd] for [os.getcwd()].  The set-up of
    the MATLAB engine and the messages printed are left out. *)
Definition init (cwd : string) (test_mode : bool) : controller :=
  let addr : option string := None in
  let rate : option string := None in
  let mem : option string := None in
  let run := mkNumber "0.5" in
  let client_args :=
    ["iperf"; "-c"; str_opt addr; "-u"; "-b" ++ str_opt rate ++ "M"; "-S";
     str_opt mem; "-t10000000000"] in
  let server_args := ["iperf"; "-s"; "-u"; "-t100000000000000"] in
  if test_mode
  then
    mkController None None None None None None
      addr None rate mem
      ["python3"; cwd ++ "/tests/iperf_sim.py"; str_opt addr] server_args
      run EmptyString cwd
      ["python3"; cwd ++ "/tests/usrp_sim.py"]
      ["python3"; cwd ++ "/tests/sg_sim.py"]
      (Some ["python3"; cwd ++ "/tests/converter_sim.py"])
      (Some ["python3"; cwd ++ "/tests/plotter_sim.py"])
  else
    mkController None None None None None None
      addr None rate mem
      client_args server_args
      run EmptyString cwd
      ["python"; cwd ++ "/utils/writeIQ.py"; "123"; num_str run]
      ["python3"; cwd ++ "/utils/ramp_control.py"; num_str run]
      None None.

(** *** The monad of the methods: controller and world, exceptions, loops *)

Definition state : Type := controller * world.

(** A method returns, raises, or is still in a loop when the fuel is
    used up; each outcome carries the state reached. *)
Inductive outcome (A : Type) : Type :=
  | Returns (a : A) (st : state)
  | Raises (e : exn) (st : state)
  | Spins (st : state).
Arguments Returns {A} a st.
Arguments Raises {A} e st.
Arguments Spins {A} st.

Definition final {A : Type} (o : outcome A) : state :=
  match o with
  | Returns _ st | Raises _ st | Spins st => st
  end.

Definition M (A : Type) : Type := state → outcome A.

Definition ret {A : Type} (a : A) : M A := fun st => Returns a st.

Definition bind {A B : Type} (m : M A) (k : A → M B) : M B :=
  fun st =>
    match m st with
    | Returns a st' => k a st'
    | Raises e st' => Raises e st'
    | Spins st' => Spins st'
    end.

Definition raise {A : Type} (e : exn) : M A := fun st => Raises e st.

Definition self : M controller := fun st => Returns (fst st) st.

Definition assign (f : controller → controller) : M unit :=
  fun st => Returns tt (f (fst st), snd st).

Declare Scope method_scope.
Delimit Scope method_scope with method.
Notation "x <- m ;; k" := (bind m (fun x => k))
  (at level 100, m at next level, right associativity) : method_scope.
Notation "m ;; k" := (bind m (fun _ => k))
  (at level 100, right associativity) : method_scope.
Local Open Scope method_scope.

(** [while True: body], where [body] yields [true] on [break]. *)
Fixpoint while_true (body : M bool) (fuel : nat) : M unit :=
  fun st =>
    match fuel with
    | O => Spins st
    | S f =>
        match body st with
        | Returns true st' => Returns tt st'
        | Returns false st' => while_true body f st'
        | Raises e st' => Raises e st'
        | Spins st' => Spins st'
        end
    end.

(** [while cond: continue]. *)
Definition while_continue (cond : M bool) (fuel : nat) : M unit :=
  while_true (c <- cond ;; ret (negb c)) fuel.

Definition nl : string := String Text.newline EmptyString.

Definition print (line : string) : M unit :=
  fun st =>
    let w := snd st in
    Returns tt (fst st, mkWorld (now w) (procs w) (trace w) (stdout w ++ [line])).

(** The exit code [poll] reports for a process ended by SIGKILL. *)
Definition sigkill_code : Z := -9.

(** What a [Popen] object learns when it looks at its process. *)
Definition refresh (w : world) (h : popen) : popen :=
  match returncode h with
  | Some _ => h
  | None =>
      match procs w !! pid h with
      | Some p =>
          match state_at (now w) p with
          | Exited c => mkPopen (pid h) (Some c)
          | Terminated => mkPopen (pid h) (Some sigkill_code)
          | Idle | Running => h
          end
      | None => h
      end
  end.

(** An argument [Popen] refuses: a [str] with a NUL character in it. *)
Fixpoint has_nul_char (a : string) : bool :=
  match a with
  | EmptyString => false
  | String c r => Ascii.eqb c Ascii.zero || has_nul_char r
  end.

Definition has_nul (args : list string) : bool := existsb has_nul_char args.

Definition with_kill (t : nat) (p : osproc) : osproc :=
  mkProc (p_kind p) (p_args p) (p_start p) (p_life p) (p_code p) (Some t).

Section Supervisor.

(** The environment: what the system makes of the [n]-th child
    launched with the given command line.  [None]: it cannot be
    started and [Popen] raises [OSError]; [Some (life, code)]: it
    runs for [life] steps ([None]: for ever) and exits with [code]. *)
Variable env : nat → list string → option (option nat * Z).

(** [subprocess.Popen(args, stdin=PIPE, stderr=None, shell=False)] for
    a list of [str]: [IndexError] for the empty list, whose first
    entry is read as the program; [ValueError] when an entry holds a
    NUL character, before anything is handed to the system; otherwise
    what the environment makes of the command line. *)
Definition launch (n : nat) (args : list string) : result (option nat * Z) :=
  match args with
  | [] => Err IndexError
  | _ :: _ =>
      if has_nul args then Err ValueError
      else
        match env n args with
        | None => Err OSError
        | Some child => Ok child
        end
  end.

(** [self.<k>_proc = subprocess.Popen(args, ...)] *)
Definition spawn (k : kind) (args : list string) : M unit :=
  fun st =>
    let w := snd st in
    let n := length (procs w) in
    match launch n args with
    | Err e => Raises e st
    | Ok (life, code) =>
        Returns tt
          (set_proc k (Some (mkPopen n None)) (fst st),
           mkWorld (now w + 1)
             (procs w ++ [mkProc k args (now w) life code None])
             (trace w ++ [EvSpawn k n]) (stdout w))
    end.

(** [self.<k>_proc.poll()] *)
Definition poll (k : kind) : M (option Z) :=
  fun st =>
    let w := snd st in
    match get_proc k (fst st) with
    | None => Raises AttributeError st
    | Some h =>
        let h' := refresh w h in
        Returns (returncode h')
          (set_proc k (Some h') (fst st),
           mkWorld (now w + 1) (procs w) (trace w ++ [EvPoll (pid h)]) (stdout w))
    end.

(** [self.<k>_proc.returncode] *)
Definition read_returncode (k : kind) : M (option Z) :=
  fun st =>
    match get_proc k (fst st) with
    | None => Raises AttributeError st
    | Some h => Returns (returncode h) st
    end.

(** [self.<k>_proc.kill()]: the object looks at its process first and
    sends SIGKILL only when no exit has been observed. *)
Definition kill (k : kind) : M unit :=
  fun st =>
    let w := snd st in
    match get_proc k (fst st) with
    | None => Raises AttributeError st
    | Some h =>
        let h' := refresh w h in
        let procs' :=
          match returncode h', procs w !! pid h with
          | None, Some p => <[pid h := with_kill (now w) p]> (procs w)
          | _, _ => procs w
          end in
        Returns tt
          (set_proc k (Some h') (fst st),
           mkWorld (now w + 1) procs' (trace w ++ [EvKill (pid h)]) (stdout w))
    end.

Definition is_none {A : Type} (x : option A) : bool :=
  match x with None => true | Some _ => false end.

Definition is_not_none {A : Type} (x : option A) : bool := negb (is_none x).

(** The command line of the capture job, as the three capture
    methods rebuild it. *)
Definition rebuild_usrp_control_args : M unit :=
  s <- self ;;
  assign (set_usrp_control_args
            ["python"; working_dir s ++ "/utils/writeIQ.py"; file_name s;
             num_str (run_time s)]).

Definition start_usrp (fuel : nat) : M unit :=
  print ("Running USRP..." ++ nl) ;;
  rebuild_usrp_control_args ;;
  s <- self ;;
  spawn Usrp (usrp_control_args s) ;;
  while_continue (r <- poll Usrp ;; ret (is_none r)) fuel ;;
  print ("Done sensing medium" ++ nl).

Definition start_controller {T : Type} (args : T) (fuel : nat) : M unit :=
  print ("Running interference..." ++ nl) ;;
  s <- self ;;
  spawn Controller (sg_controller_args s) ;;
  while_continue (r <- poll Controller ;; ret (is_none r)) fuel ;;
  print ("Done injecting interference" ++ nl).

Definition start_usrp_controller (fuel : nat) : M unit :=
  print ("Running USRP with interference injected..." ++ nl) ;;
  rebuild_usrp_control_args ;;
  s <- self ;;
  spawn Usrp (usrp_control_args s) ;;
  s <- self ;;
  spawn Controller (sg_controller_args s) ;;
  while_true
    (poll Usrp ;;
     poll Controller ;;
     a <- read_returncode Usrp ;;
     if is_not_none a
     then (b <- read_returncode Controller ;; ret (is_not_none b))
     else ret false) fuel ;;
  print ("Done sensing with added interference" ++ nl).

Definition start_usrp_iperf (fuel : nat) : M unit :=
  print ("Running USRP with interference injected..." ++ nl) ;;
  s <- self ;;
  (if truthy (iperf_client_addr s)
   then spawn IperfClient (iperf_client_args s)
   else ret tt) ;;
  s <- self ;;
  spawn IperfServer (iperf_server_args s) ;;
  rebuild_usrp_control_args ;;
  s <- self ;;
  spawn Usrp (usrp_control_args s) ;;
  while_true
    (poll Usrp ;;
     a <- read_returncode Usrp ;;
     ret (is_not_none a)) fuel ;;
  s <- self ;;
  (if truthy (iperf_client_addr s)
   then kill IperfClient
   else ret tt) ;;
  kill IperfServer ;;
  print ("Done sensing with iperf" ++ nl).

Definition start_iperf (fuel : nat) : M unit :=
  print ("Running iperf..." ++ nl) ;;
  s <- self ;;
  spawn IperfClient (iperf_client_args s) ;;
  s <- self ;;
  spawn IperfServer (iperf_server_args s) ;;
  while_true
    (poll IperfClient ;;
     poll IperfServer ;;
     a <- read_returncode IperfClient ;;
     if is_not_none a
     then (b <- read_returncode IperfServer ;; ret (is_not_none b))
     else ret false) fuel ;;
  print ("Done running iperf" ++ nl).

(** The start operations, and a session: assignments to the
    attributes and calls, one after the other. *)
Inductive op : Type :=
  | StartUsrp
  | StartController
  | StartUsrpController
  | StartUsrpIperf
  | StartIperf.

Definition run_op (o : op) (fuel : nat) : M unit :=
  match o with
  | StartUsrp => start_usrp fuel
  | StartController => start_controller tt fuel
  | StartUsrpController => start_usrp_controller fuel
  | StartUsrpIperf => start_usrp_iperf fuel
  | StartIperf => start_iperf fuel
  end.

Inductive action : Type :=
  | Call (o : op) (fuel : nat)
  | SetFileName (f : string)
  | SetRunTime (r : pynumber)
  | SetClientAddr (a : option string)
  | SetRate (r : option string)
  | SetMemAddr (m : option string).

Definition run_action (a : action) : M unit :=
  match a with
  | Call o fuel => run_op o fuel
  | SetFileName f => assign (set_file_name f)
  | SetRunTime r => assign (set_run_time r)
  | SetClientAddr x => assign (set_iperf_client_addr x)
  | SetRate r => assign (set_iperf_rate r)
  | SetMemAddr m => assign (set_iperf_mem_addr m)
  end.

Fixpoint run_session (acts : list action) : M unit :=
  match acts with
  | [] => ret tt
  | a :: rest => run_action a ;; run_session rest
  end.

End Supervisor.

Definition world0 : world := mkWorld 0 [] [] [].

End SigControl.

Import Text NetworkScan SigControl.
Local Open Scope method_scope.

(** * Specification

    The predicates the properties are stated with, and the sample
    inputs the properties are run on. *)

(** ** Predicates on levels, cells and texts *)

(** A numeric string: digits only, at least one, and no more than [int]
    takes. *)
Definition numeric (s : string) : Prop :=
  s ≠ EmptyString ∧ all_digits s = true ∧ (String.length s ≤ max_str_digits)%nat.

Definition numeric_level (c : Cell) : Prop :=
  ∃ l, level c = Some l ∧ numeric l.

(** The invariant of the loop of [max_cell_level]: [mx] bounds the levels
    seen, and [index] is the first cell seen with the level [mx], unless
    no level seen was positive. *)
Definition levels_le (l : list Cell) (mx : Z) : Prop :=
  ∀ j c n, l !! j = Some c → py_int (level c) = Ok n → n ≤ mx.

Definition first_with_level (l : list Cell) (mx : Z) (index : nat) : Prop :=
  ∃ c, l !! index = Some c ∧ py_int (level c) = Ok mx ∧
       ∀ j c' n, (j < index)%nat → l !! j = Some c' → py_int (level c') = Ok n → n < mx.

Definition max_inv (seen : list Cell) (mx : Z) (index : nat) : Prop :=
  0 ≤ mx ∧ levels_le seen mx ∧
  ((mx = 0 ∧ index = 0%nat) ∨ first_with_level seen mx index).

(** [sep in s] *)
Fixpoint occurs (sep s : string) : bool :=
  starts_with sep s ||
  match s with
  | EmptyString => false
  | String _ r => occurs sep r
  end.

(** The text holds a signal level: one to three digits between the
    opening text and the slash. *)
Definition has_level_text (a : string) : Prop :=
  ∃ pre d post,
    a = pre ++ "Signal level=" ++ d ++ "/100" ++ post ∧
    d ≠ EmptyString ∧ all_digits d = true ∧ (String.length d ≤ 3)%nat.

Definition level_missing_or_numeric (c : Cell) : Prop :=
  level c = None ∨ numeric_level c.

Definition level_parsed (c : Cell) : Prop :=
  ∃ l n, level c = Some l ∧ py_int (level c) = Ok n.

(** ** Predicates on processes, worlds and outcomes *)

(** A process that has exited or has been killed. *)
Definition is_over (st : pstate) : bool :=
  match st with
  | Exited _ | Terminated => true
  | Idle | Running => false
  end.

Definition over_at (t : nat) (p : osproc) : Prop := is_over (state_at t p) = true.

(** The command line of the capture job for the current attributes. *)
Definition capture_args (s : controller) : list string :=
  ["python"; working_dir s ++ "/utils/writeIQ.py"; file_name s; num_str (run_time s)].

(** The world after a [print], after a launch and after a poll. *)
Definition printed (line : string) (w : world) : world :=
  mkWorld (now w) (procs w) (trace w) (stdout w ++ [line]).

Definition spawned (k : kind) (args : list string) (life : option nat) (code : Z)
    (w : world) : world :=
  mkWorld (now w + 1)
    (procs w ++ [mkProc k args (now w) life code None])
    (trace w ++ [EvSpawn k (length (procs w))]) (stdout w).

Definition after_poll (n : nat) (w : world) : world :=
  mkWorld (now w + 1) (procs w) (trace w ++ [EvPoll n]) (stdout w).

(** [w'] comes from [w] by polls of the processes [ns] only. *)
Definition waited (ns : list nat) (w w' : world) : Prop :=
  procs w' = procs w ∧ stdout w' = stdout w ∧ (now w ≤ now w')%nat ∧
  ∃ evs, trace w' = (trace w ++ evs)%list ∧
         Forall (λ e, ∃ n, n ∈ ns ∧ e = EvPoll n) evs.

(** A return code is recorded only for a process that is over. *)
Definition recorded (w : world) (n : nat) (rc : option Z) : Prop :=
  ∀ c, rc = Some c → ∃ p, procs w !! n = Some p ∧ over_at (now w) p.

Definition is_some {A : Type} (x : option A) : bool :=
  match x with Some _ => true | None => false end.

(** What one turn of a loop that watches one handle does. *)
Definition watches_one (body : M bool) (k : kind) (n : nat) (s : controller) : Prop :=
  ∀ rc w, recorded w n rc →
    ∃ rc',
      body (set_proc k (Some (mkPopen n rc)) s, w) =
      Returns (is_some rc') (set_proc k (Some (mkPopen n rc')) s, after_poll n w) ∧
      recorded (after_poll n w) n rc' ∧
      (rc' = None → ∀ p, procs w !! n = Some p → ¬ over_at (now w) p).

(** The same for a loop that watches two handles. *)
Definition watches_two (body : M bool) (k1 k2 : kind) (n1 n2 : nat) (s : controller)
  : Prop :=
  ∀ rc1 rc2 w, recorded w n1 rc1 → recorded w n2 rc2 →
    ∃ rc1' rc2',
      body (set_proc k1 (Some (mkPopen n1 rc1)) (set_proc k2 (Some (mkPopen n2 rc2)) s), w) =
      Returns (is_some rc1' && is_some rc2')
        (set_proc k1 (Some (mkPopen n1 rc1')) (set_proc k2 (Some (mkPopen n2 rc2')) s),
         after_poll n2 (after_poll n1 w)) ∧
      recorded (after_poll n2 (after_poll n1 w)) n1 rc1' ∧
      recorded (after_poll n2 (after_poll n1 w)) n2 rc2' ∧
      (rc1' = None → ∀ p, procs w !! n1 = Some p → ¬ over_at (now w) p) ∧
      (rc2' = None → ∀ p, procs w !! n2 = Some p → ¬ over_at (now w + 1) p).

(** A process that ends by itself, [d] steps after its start. *)
Definition ends_by_itself (p : osproc) (d : nat) : Prop :=
  p_life p = Some d ∧ p_killed p = None.

(** What follows a loop: the rest of the method when the loop is left. *)
Definition and_then (o : outcome unit) (k : state → outcome unit) : outcome unit :=
  match o with
  | Returns _ st => k st
  | Raises e st => Raises e st
  | Spins st => Spins st
  end.

Definition finish (line : string) (st : state) : outcome unit :=
  Returns tt (fst st, printed line (snd st)).

Definition after_kill (n : nat) (p' : osproc) (w : world) : world :=
  mkWorld (now w + 1) (<[n := p']> (procs w)) (trace w ++ [EvKill n]) (stdout w).

(** What [kill] leaves of a process: it is untouched when its exit had
    already happened, and marked as killed otherwise. *)
Definition kill_result (t : nat) (p p' : osproc) : Prop :=
  (p' = p ∨ p' = with_kill t p) ∧ over_at (t + 1) p'.

(** The end of [start_usrp_iperf], after its loop. *)
Definition teardown : M unit :=
  s <- self ;;
  (if truthy (iperf_client_addr s) then kill IperfClient else ret tt) ;;
  kill IperfServer ;;
  print ("Done sensing with iperf" ++ nl).

Definition iperf_loop : M bool :=
  poll Usrp ;; a <- read_returncode Usrp ;; ret (is_not_none a).

Local Open Scope list_scope.

(** The command line each kind of job is launched with. *)
Definition args_for (s : controller) (k : kind) : list string :=
  match k with
  | Usrp => capture_args s
  | Controller => sg_controller_args s
  | IperfClient => iperf_client_args s
  | IperfServer => iperf_server_args s
  end.

(** The jobs an operation launches, in the order of the launches. *)
Definition plan (s : controller) (o : op) : list kind :=
  match o with
  | StartUsrp => [Usrp]
  | StartController => [Controller]
  | StartUsrpController => [Usrp; Controller]
  | StartUsrpIperf =>
      if truthy (iperf_client_addr s)
      then [IperfClient; IperfServer; Usrp]
      else [IperfServer; Usrp]
  | StartIperf => [IperfClient; IperfServer]
  end.

(** The attributes the start operations leave alone. *)
Definition same_settings (s s' : controller) : Prop :=
  iperf_client_addr s' = iperf_client_addr s ∧
  iperf_server_addr s' = iperf_server_addr s ∧
  iperf_rate s' = iperf_rate s ∧
  iperf_mem_addr s' = iperf_mem_addr s ∧
  iperf_client_args s' = iperf_client_args s ∧
  iperf_server_args s' = iperf_server_args s ∧
  run_time s' = run_time s ∧
  file_name s' = file_name s ∧
  working_dir s' = working_dir s ∧
  sg_controller_args s' = sg_controller_args s.

(** [news] are the processes that [w'] has and [w] had not. *)
Definition fresh_procs (s : controller) (w w' : world) (news : list osproc) : Prop :=
  procs w' = (procs w ++ news) ∧ (now w ≤ now w')%nat ∧
  Forall (λ p, p_args p = args_for s (p_kind p) ∧ (now w ≤ p_start p)%nat) news.

Definition op_effect (s : controller) (w : world) (jobs : list kind)
    (out : outcome unit) : Prop :=
  ∃ news,
    fresh_procs s w (snd (final out)) news ∧
    (p_kind <$> news) `prefix_of` jobs ∧
    same_settings s (fst (final out)) ∧
    (∀ st, out = Returns tt st →
       p_kind <$> news = jobs ∧
       Forall (over_at (now (snd st))) news ∧
       (Usrp ∈ jobs → usrp_control_args (fst st) = capture_args s)).

(** The operations that launch one job and wait for it. *)
Definition single_job (o : op) : option kind :=
  match o with
  | StartUsrp => Some Usrp
  | StartController => Some Controller
  | _ => None
  end.

(** The operations that launch two jobs and wait for both. *)
Definition joint_jobs (o : op) : option (kind * kind) :=
  match o with
  | StartUsrpController => Some (Usrp, Controller)
  | StartIperf => Some (IperfClient, IperfServer)
  | _ => None
  end.

(** The process ids [start_usrp_iperf] hands out: the client, if any,
    comes first, then the server, then the capture job. *)
Definition server_pid (s : controller) (w : world) : nat :=
  if truthy (iperf_client_addr s) then S (length (procs w)) else length (procs w).

Definition capture_pid (s : controller) (w : world) : nat := S (server_pid s w).

(** The iperf processes can be started. *)
Definition aux_launch_ok (env : nat → list string → option (option nat * Z))
    (s : controller) (w : world) : Prop :=
  (truthy (iperf_client_addr s) = true →
   ∃ child, launch env (length (procs w)) (iperf_client_args s) = Ok child) ∧
  ∃ child, launch env (server_pid s w) (iperf_server_args s) = Ok child.

(** The capture job can be started and ends by itself. *)
Definition primary_ends (env : nat → list string → option (option nat * Z))
    (s : controller) (w : world) : Prop :=
  ∃ d code, launch env (capture_pid s w) (capture_args s) = Ok (Some d, code).

(** The events of a complete run of [start_usrp_iperf]. *)
Definition usrp_iperf_events (s : controller) (w : world) (polls : list event)
  : list event :=
  (if truthy (iperf_client_addr s)
   then [EvSpawn IperfClient (length (procs w))] else []) ++
  [EvSpawn IperfServer (server_pid s w); EvSpawn Usrp (capture_pid s w)] ++
  polls ++
  (if truthy (iperf_client_addr s) then [EvKill (length (procs w))] else []) ++
  [EvKill (server_pid s w)].

(** The client address as [start_usrp_iperf] finds it: a non-empty
    [str], or else [None] or the empty [str]. *)
Definition address_given (s : controller) : Prop :=
  ∃ a, iperf_client_addr s = Some a ∧ a ≠ EmptyString.

Definition address_missing (s : controller) : Prop :=
  iperf_client_addr s = None ∨ iperf_client_addr s = Some EmptyString.

(** What holds when [start_usrp_iperf] has returned. *)
Definition barrier_post (s : controller) (w : world) (s' : controller) (w' : world)
  : Prop :=
  (∃ c p,
     usrp_proc s' = Some (mkPopen (capture_pid s w) (Some c)) ∧
     procs w' !! capture_pid s w = Some p ∧ p_kind p = Usrp ∧ over_at (now w') p) ∧
  (∀ pid p,
     (length (procs w) ≤ pid)%nat → procs w' !! pid = Some p → p_kind p ≠ Usrp →
     (p_kind p = IperfClient ∨ p_kind p = IperfServer) ∧
     ∀ t, (now w' ≤ t)%nat → state_at t p ≠ Running) ∧
  (∃ evs,
     trace w' = trace w ++ evs ∧
     ∀ pid, EvPoll pid ∈ evs → pid = capture_pid s w).

(** The operations that launch the capture job. *)
Definition launches_capture (o : op) : bool :=
  match o with
  | StartUsrp | StartUsrpController | StartUsrpIperf => true
  | StartController | StartIperf => false
  end.

(** No process of the world is running any more. *)
Definition quiet (w : world) : Prop :=
  ∀ pid p, procs w !! pid = Some p → over_at (now w) p.

(** At no time two processes of one kind are running. *)
Definition one_per_kind (w : world) : Prop :=
  ∀ t i j pi pj,
    procs w !! i = Some pi → procs w !! j = Some pj → p_kind pi = p_kind pj →
    state_at t pi = Running → state_at t pj = Running → i = j.

(** The iperf command lines of [s0] are those of the controller and of
    every iperf process started after the world [w0]. *)
Definition iperf_args_kept (s0 : controller) (w0 : world) (st : state) : Prop :=
  iperf_client_args (fst st) = iperf_client_args s0 ∧
  iperf_server_args (fst st) = iperf_server_args s0 ∧
  ∀ pid p,
    (length (procs w0) ≤ pid)%nat → procs (snd st) !! pid = Some p →
    (p_kind p = IperfClient → p_args p = iperf_client_args s0) ∧
    (p_kind p = IperfServer → p_args p = iperf_server_args s0).

(** The client command line the specification gives. *)
Definition real_client_args : list string :=
  ["iperf"; "-c"; "None"; "-u"; "-bNoneM"; "-S"; "None"; "-t10000000000"].

(** ** A sample run

    The iperf processes run until they are killed; every other job
    ends by itself after three steps. *)
Definition sample_env : nat → list string → option (option nat * Z) :=
  fun _ args =>
    match args with
    | "iperf" :: _ => Some (None, 0)
    | _ => Some (Some 3%nat, 0)
    end.

Definition sample_controller : controller :=
  set_iperf_client_addr (Some "10.0.0.2")
    (set_file_name "capture" (init "/home/ants" false)).

(** The same controller with the client address left at [None], and
    with the empty string for it. *)
Definition bare_controller : controller :=
  set_file_name "capture" (init "/home/ants" false).

Definition blank_controller : controller :=
  set_iperf_client_addr (Some EmptyString) bare_controller.

Definition sample_cells : list Cell :=
  [mkCell (Some "home") (Some "42"); mkCell (Some "lab") (Some "77");
   mkCell None (Some "77")].

Definition sample_scan : string :=
  "wlan0 Scan completed : Cell 01 - Address: 00:11 Cell 02 - Signal level=40/100".

Definition sample_session : list action :=
  [SetFileName "a"; Call StartUsrpIperf 10; SetRunTime (mkNumber "2");
   Call StartUsrpController 10].

Local Open Scope string_scope.
Local Open Scope Z_scope.
Local Open Scope method_scope.

(** [Cell.__str__]: the two [+] of [self.essid + ", " + self.level];
    either raises [TypeError] when its operand is [None]. *)
Definition Cell_str (c : Cell) : result string :=
  match essid c with
  | None => Err TypeError
  | Some e =>
      match level c with
      | None => Err TypeError
      | Some l => Ok ((e ++ ", ") ++ l)
      end
  end.

(** Text of ASCII characters only, as [str(data)] gives it for the bytes
    read from [iwlist]. *)
Fixpoint is_ascii (s : string) : bool :=
  match s with
  | EmptyString => true
  | String c r => (nat_of_ascii c <? 128)%nat && is_ascii r
  end.

(** The level of a cell is [None] or ASCII text. *)
Definition ascii_level (c : Cell) : Prop :=
  ∀ l, level c = Some l → is_ascii l = true.

(** The level of a cell is ASCII text that [int] reads as a number that
    is not positive. *)
Definition level_not_positive (c : Cell) : Prop :=
  ∃ l n, level c = Some l ∧ is_ascii l = true ∧ py_int (Some l) = Ok n ∧ n ≤ 0.

(** The pieces written one after the other, with [sep] between them. *)
Fixpoint join (sep : string) (pieces : list string) : string :=
  match pieces with
  | [] => EmptyString
  | [p] => p
  | p :: rest => p ++ sep ++ join sep rest
  end.

(** No occurrence of [sep] in [rev cur ++ s] starts within [rev cur]:
    what [split_go] knows of the piece [cur] it is collecting. *)
Definition clean (sep cur s : string) : Prop :=
  ∀ i, (i < String.length cur)%nat → starts_with sep (drop i (rev cur ++ s)) = false.

(** The characters of [s] up to its first newline. *)
Fixpoint first_line (s : string) : string :=
  match s with
  | EmptyString => EmptyString
  | String c r => if Ascii.eqb c newline then EmptyString else String c (first_line r)
  end.

Fixpoint has_char (c : ascii) (s : string) : bool :=
  match s with
  | EmptyString => false
  | String d r => Ascii.eqb c d || has_char c r
  end.

(** The text that opens the name of a network. *)
Definition essid_open : string := String.append "ESSID:" (String dquote EmptyString).

Definition quote : string := String dquote EmptyString.

Local Open Scope list_scope.

(** The two command lines of a joint operation can be launched. *)
Definition both_launched (env : nat → list string → option (option nat * Z))
    (s : controller) (w : world) (k1 k2 : kind)
    (life1 life2 : option nat) : Prop :=
  ∃ c1 c2,
    launch env (length (procs w)) (args_for s k1) = Ok (life1, c1) ∧
    launch env (S (length (procs w))) (args_for s k2) = Ok (life2, c2).

Definition returned {A : Type} (out : outcome A) : bool :=
  match out with
  | Returns _ _ => true
  | Raises _ _ | Spins _ => false
  end.

Definition is_kill (e : event) : bool :=
  match e with
  | EvKill _ => true
  | EvSpawn _ _ | EvPoll _ => false
  end.

(** The line an operation prints first, and the line it prints last. *)
Definition start_line (o : op) : string :=
  match o with
  | StartUsrp => ("Running USRP..." ++ nl)%string
  | StartController => ("Running interference..." ++ nl)%string
  | StartUsrpController => ("Running USRP with interference injected..." ++ nl)%string
  | StartUsrpIperf => ("Running USRP with interference injected..." ++ nl)%string
  | StartIperf => ("Running iperf..." ++ nl)%string
  end.

Definition done_line (o : op) : string :=
  match o with
  | StartUsrp => ("Done sensing medium" ++ nl)%string
  | StartController => ("Done injecting interference" ++ nl)%string
  | StartUsrpController => ("Done sensing with added interference" ++ nl)%string
  | StartUsrpIperf => ("Done sensing with iperf" ++ nl)%string
  | StartIperf => ("Done running iperf" ++ nl)%string
  end.

(** The controller when the command line of the capture job has been
    rebuilt, for the operations that do so before their first launch. *)
Definition primed (o : op) (s : controller) : controller :=
  match o with
  | StartUsrp | StartUsrpController => set_usrp_control_args (capture_args s) s
  | StartController | StartUsrpIperf | StartIperf => s
  end.

(** The attributes of the MATLAB tools. *)
Definition same_tools (s s' : controller) : Prop :=
  converter_proc s' = converter_proc s ∧ plotter_proc s' = plotter_proc s ∧
  matlab_converter_args s' = matlab_converter_args s ∧
  matlab_plotter_args s' = matlab_plotter_args s.

(** [w'] comes from [w] by the lines [lines], the events [evs], none of
    them a kill, and the processes [news], none of them killed. *)
Definition grown (w w' : world) (lines : list string) (evs : list event)
    (news : list osproc) : Prop :=
  stdout w' = stdout w ++ lines ∧ trace w' = trace w ++ evs ∧
  procs w' = procs w ++ news ∧
  Forall (λ e, is_kill e = false) evs ∧ Forall (λ p, p_killed p = None) news.

(** What an operation leaves in the world and in the controller. *)
Definition op_log (env : nat → list string → option (option nat * Z))
    (o : op) (s : controller) (w : world) (out : outcome unit) : Prop :=
  let s' := fst (final out) in
  let w' := snd (final out) in
  stdout w' = stdout w ++ start_line o :: (if returned out then [done_line o] else []) ∧
  (∀ k, k ∉ plan s o → get_proc k s' = get_proc k s) ∧
  same_tools s s' ∧
  (∃ evs, trace w' = trace w ++ evs ∧
     ((o = StartUsrpIperf ∧ returned out = true) ∨
      (Forall (λ e, is_kill e = false) evs ∧
       ∀ pid p, procs w' !! pid = Some p → (length (procs w) ≤ pid)%nat →
                p_killed p = None))) ∧
  (∀ e st, out = Raises e st →
     ∃ k, k ∈ plan s o ∧ launch env (length (procs (snd st))) (args_for s k) = Err e).

(** The command line of a process started in a session of a controller
    built in test mode with the working directory [cwd]. *)
Definition test_mode_args (cwd : string) (p : osproc) : Prop :=
  match p_kind p with
  | Usrp => ∃ f r, p_args p = ["python"; (cwd ++ "/utils/writeIQ.py")%string; f; r]
  | Controller => p_args p = ["python3"; (cwd ++ "/tests/sg_sim.py")%string]
  | IperfClient => p_args p = ["python3"; (cwd ++ "/tests/iperf_sim.py")%string; "None"]
  | IperfServer => p_args p = ["iperf"; "-s"; "-u"; "-t100000000000000"]
  end.

(** The invariant of such a session. *)
Definition test_mode_kept (cwd : string) (w0 : world) (st : state) : Prop :=
  working_dir (fst st) = cwd ∧
  sg_controller_args (fst st) = ["python3"; (cwd ++ "/tests/sg_sim.py")%string] ∧
  iperf_client_args (fst st) = ["python3"; (cwd ++ "/tests/iperf_sim.py")%string; "None"] ∧
  iperf_server_args (fst st) = ["iperf"; "-s"; "-u"; "-t100000000000000"] ∧
  ∀ pid p, (length (procs w0) ≤ pid)%nat → procs (snd st) !! pid = Some p →
           test_mode_args cwd p.

(** The command line of the controller job that [__init__] builds. *)
Definition init_controller_args (cwd : string) (test_mode : bool) : list string :=
  if test_mode
  then ["python3"; (cwd ++ "/tests/sg_sim.py")%string]
  else ["python3"; (cwd ++ "/utils/ramp_control.py")%string; "0.5"].

Definition controller_args_kept (cwd : string) (test_mode : bool) (w0 : world)
    (st : state) : Prop :=
  sg_controller_args (fst st) = init_controller_args cwd test_mode ∧
  ∀ pid p, (length (procs w0) ≤ pid)%nat → procs (snd st) !! pid = Some p →
           p_kind p = Controller → p_args p = init_controller_args cwd test_mode.

(** ** More sample inputs *)

(** Levels given as negative numbers, the weaker signal first. *)
Definition negative_cells : list Cell :=
  [mkCell (Some "far") (Some "-70"); mkCell (Some "near") (Some "-30")].

(** A scan with three cells, two of them with a name. *)
Definition sample_air : string :=
  ("Cell 01 - ESSID:" ++ quote ++ "home" ++ quote ++ " Signal level=42/100 " ++
   "Cell 02 - ESSID:" ++ quote ++ "lab" ++ quote ++ " Signal level=77/100 " ++
   "Cell 03 - Signal level=10/100")%string.

Definition sample_essid_line : string :=
  ("ESSID:" ++ quote ++ "home" ++ quote ++ " Mode:Master")%string.

(** An environment in which the capture script cannot be started. *)
Definition failing_env : nat → list string → option (option nat * Z) :=
  fun _ args =>
    match args with
    | "python" :: _ => None
    | _ => Some (None, 0)
    end.

(** A controller whose file name holds a NUL character. *)
Definition nul_controller : controller :=
  set_file_name (String Ascii.zero "x") (init "/home/ants" false).

Definition test_session : list action :=
  [SetFileName "a"; Call StartUsrpController 10].

(** * Proofs *)

Local Open Scope string_scope.
Local Open Scope Z_scope.
Local Open Scope method_scope.

(** ** ants/network_scan.py: [int], the loop of [max_cell_level] and the
    searches in the text *)

Lemma append_empty_r (s : string) : s ++ EmptyString = s.
Proof. induction s as [|c s IH]; simpl; [done | by rewrite IH]. Qed.

Lemma rev_onto_twice (s a b : string) :
  rev_onto (rev_onto s a) b = rev_onto a (s ++ b).
Proof.
  revert a b. induction s as [|c s IH]; intros a b; simpl; [done |].
  by rewrite IH.
Qed.

Lemma rev_involutive (s : string) : rev (rev s) = s.
Proof. unfold rev. rewrite rev_onto_twice. simpl. apply append_empty_r. Qed.

Lemma all_digits_rev_onto (s a : string) :
  all_digits s = true → all_digits a = true → all_digits (rev_onto s a) = true.
Proof.
  revert a. induction s as [|c s IH]; intros a Hs Ha; simpl in *; [done |].
  apply andb_true_iff in Hs as [Hc Hs]. apply IH; [done |].
  simpl. by rewrite Hc, Ha.
Qed.

Lemma digit_not_space (c : ascii) : is_digit c = true → is_space c = false.
Proof.
  unfold is_digit, is_space. intros H.
  apply andb_true_iff in H as [H1 H2].
  apply Nat.leb_le in H1. apply Nat.leb_le in H2.
  rewrite !orb_false_iff. repeat split.
  - apply andb_false_iff. right. apply Nat.leb_gt. lia.
  - apply Nat.eqb_neq. lia.
  - apply Nat.eqb_neq. lia.
  - apply Nat.eqb_neq. lia.
Qed.

Lemma lstrip_digits (s : string) : all_digits s = true → lstrip s = s.
Proof.
  destruct s as [|c s]; simpl; [done |]. intros H.
  apply andb_true_iff in H as [Hc _]. by rewrite (digit_not_space c Hc).
Qed.

Lemma strip_digits (s : string) : all_digits s = true → strip s = s.
Proof.
  intros H. unfold strip. rewrite (lstrip_digits s H).
  rewrite lstrip_digits; [apply rev_involutive |].
  by apply all_digits_rev_onto.
Qed.

Lemma digit_val_bounds (c : ascii) : is_digit c = true → 0 ≤ digit_val c ≤ 9.
Proof.
  unfold is_digit, digit_val. intros H.
  apply andb_true_iff in H as [H1 H2].
  apply Nat.leb_le in H1. apply Nat.leb_le in H2. lia.
Qed.

Lemma digits_go_digits (s : string) (acc : Z) (count : nat) :
  all_digits s = true → 0 ≤ acc →
  ∃ v, 0 ≤ v ∧ digits_go s acc count true = Some (v, (count + String.length s)%nat).
Proof.
  revert acc count. induction s as [|c s IH]; intros acc count Hs Hacc; simpl in *.
  - exists acc. split; [done |]. do 2 f_equal. lia.
  - apply andb_true_iff in Hs as [Hc Hs]. rewrite Hc.
    pose proof (digit_val_bounds c Hc) as Hb.
    destruct (IH (10 * acc + digit_val c) (S count) Hs ltac:(lia)) as (v & Hv & Hgo).
    exists v. split; [done |]. rewrite Hgo. do 2 f_equal. lia.
Qed.

Lemma int_of_digits_numeric (s : string) :
  numeric s → ∃ v, 0 ≤ v ∧ int_of_digits s = Ok v.
Proof.
  intros (Hne & Hd & Hlen). destruct s as [|c s]; [done |].
  unfold int_of_digits. simpl in *.
  apply andb_true_iff in Hd as [Hc Hs]. rewrite Hc.
  pose proof (digit_val_bounds c Hc) as Hb.
  destruct (digits_go_digits s (10 * 0 + digit_val c) 1 Hs ltac:(lia)) as (v & Hv & Hgo).
  rewrite Hgo. exists v. split; [done |].
  replace (1 + String.length s <=? max_str_digits)%nat with true; [done |].
  symmetry. apply Nat.leb_le. lia.
Qed.

Lemma int_of_str_digit_head (c : ascii) (s : string) :
  is_digit c = true →
  match String c s with
  | String "+" r => int_of_digits r
  | String "-" r =>
      match int_of_digits r with Ok v => Ok (- v) | Err e => Err e end
  | t => int_of_digits t
  end = int_of_digits (String c s).
Proof.
  intros Hc.
  destruct c as [[] [] [] [] [] [] [] []]; try reflexivity; discriminate Hc.
Qed.

Lemma py_int_numeric (l : string) :
  numeric l → ∃ v, 0 ≤ v ∧ py_int (Some l) = Ok v.
Proof.
  intros Hn. destruct (int_of_digits_numeric l Hn) as (v & Hv & Hi).
  exists v. split; [done |].
  destruct Hn as (Hne & Hd & _).
  simpl. unfold int_of_str. rewrite (strip_digits l Hd).
  destruct l as [|c s]; [done |].
  simpl in Hd. apply andb_true_iff in Hd as [Hc _].
  by rewrite (int_of_str_digit_head c s Hc).
Qed.

Lemma max_inv_step_greater (seen : list Cell) (a : Cell) (mx v : Z) (index : nat) :
  max_inv seen mx index → py_int (level a) = Ok v → mx < v →
  max_inv (seen ++ [a])%list v (length seen).
Proof.
  intros (Hmx & Hle & _) Ha Hgt. split; [lia |]. split.
  - intros j c n Hj Hn.
    destruct (decide (j < length seen)%nat) as [Hlt | Hge].
    + rewrite lookup_app_l in Hj by done. specialize (Hle j c n Hj Hn). lia.
    + rewrite lookup_app_r in Hj by lia.
      destruct (j - length seen)%nat; simpl in Hj; [| done].
      injection Hj as <-. rewrite Ha in Hn. injection Hn as <-. lia.
  - right. exists a. split.
    + rewrite lookup_app_r by lia. by rewrite Nat.sub_diag.
    + split; [done |]. intros j c' n Hlt Hj Hn.
      rewrite lookup_app_l in Hj by done. specialize (Hle j c' n Hj Hn). lia.
Qed.

Lemma max_inv_step_keep (seen : list Cell) (a : Cell) (mx v : Z) (index : nat) :
  max_inv seen mx index → py_int (level a) = Ok v → v ≤ mx →
  max_inv (seen ++ [a])%list mx index.
Proof.
  intros (Hmx & Hle & Hidx) Ha Hgt. split; [lia |]. split.
  - intros j c n Hj Hn.
    destruct (decide (j < length seen)%nat) as [Hlt | Hge].
    + rewrite lookup_app_l in Hj by done. by apply (Hle j c n).
    + rewrite lookup_app_r in Hj by lia.
      destruct (j - length seen)%nat; simpl in Hj; [| done].
      injection Hj as <-. rewrite Ha in Hn. injection Hn as <-. lia.
  - destruct Hidx as [Hzero | (c & Hc & Hv & Hfirst)]; [by left | right].
    pose proof (lookup_lt_Some _ _ _ Hc) as Hlt.
    exists c. split; [by rewrite lookup_app_l |]. split; [done |].
    intros j c' n Hj Hl Hn. rewrite lookup_app_l in Hl by lia.
    by apply (Hfirst j c' n).
Qed.

Lemma max_cell_level_loop_spec (rest : list Cell) :
  ∀ (seen : list Cell) (mx : Z) (index : nat),
    Forall numeric_level rest → max_inv seen mx index →
    ∃ mx' index',
      max_cell_level_loop rest mx index (length seen) = Ok index' ∧
      max_inv (seen ++ rest)%list mx' index'.
Proof.
  induction rest as [|a rest IH]; intros seen mx index Hnum Hinv.
  - exists mx, index. simpl. by rewrite app_nil_r.
  - apply Forall_cons in Hnum as [(l & Hl & Hnl) Hrest].
    destruct (py_int_numeric l Hnl) as (v & Hv & Hint).
    rewrite <- Hl in Hint. simpl. rewrite Hint. simpl.
    replace (length seen + 1)%nat with (length (seen ++ [a])%list)
      by (rewrite length_app; simpl; lia).
    replace (seen ++ a :: rest)%list with ((seen ++ [a]) ++ rest)%list
      by (by rewrite <- app_assoc).
    destruct (v >? mx) eqn:Hcmp.
    + simpl. apply IH; [done |].
      apply (max_inv_step_greater seen a mx v index); [done | done | lia].
    + apply IH; [done |].
      apply (max_inv_step_keep seen a mx v index); [done | done | lia].
Qed.

Lemma max_cell_level_loop_numeric (arr : list Cell) :
  Forall numeric_level arr →
  ∃ mx index,
    max_cell_level_loop arr 0 0 0 = Ok index ∧ max_inv arr mx index.
Proof.
  intros Hnum.
  destruct (max_cell_level_loop_spec arr [] 0 0%nat Hnum) as (mx & index & Hloop & Hinv).
  - split; [lia |]. split; [| by left]. intros j c n Hj. done.
  - by exists mx, index.
Qed.

(** C6: on a non-empty list of cells whose levels are strings of
    digits, [max_cell_level] returns a cell of the list whose level is
    maximal, and every cell before it has a strictly smaller level. *)
Theorem max_cell_level_first_maximal (arr : list Cell) :
  arr ≠ [] → Forall numeric_level arr →
  ∃ (i : nat) (c : Cell) (n : Z),
    max_cell_level arr = Ok c ∧ arr !! i = Some c ∧ py_int (level c) = Ok n ∧
    (∀ j cj nj, arr !! j = Some cj → py_int (level cj) = Ok nj → nj ≤ n) ∧
    (∀ j cj nj, (j < i)%nat → arr !! j = Some cj → py_int (level cj) = Ok nj → nj < n).
Proof.
  intros Hne Hnum.
  destruct (max_cell_level_loop_numeric arr Hnum) as (mx & index & Hloop & Hmx & Hle & Hidx).
  unfold max_cell_level. rewrite Hloop. simpl.
  destruct Hidx as [[-> ->] | (c & Hc & Hv & Hfirst)].
  - destruct arr as [|c arr]; [done |]. simpl.
    apply Forall_cons in Hnum as [(l & Hl & Hnl) _].
    destruct (py_int_numeric l Hnl) as (v & Hv & Hint). rewrite <- Hl in Hint.
    pose proof (Hle 0%nat c v eq_refl Hint) as Hv0.
    assert (v = 0) as -> by lia.
    exists 0%nat, c, 0. repeat split; [done | done | intros; lia].
  - rewrite Hc. exists index, c, mx. by repeat split.
Qed.

Lemma strip_prefix_Some (p s r : string) :
  strip_prefix p s = Some r ↔ s = p ++ r.
Proof.
  revert s. induction p as [|a p IH]; intros s; simpl.
  - split; [by intros [= ->] | by intros ->].
  - destruct s as [|b s]; [done |].
    destruct (Ascii.eqb_spec a b) as [-> | Hne].
    + rewrite IH. split; [by intros -> | by intros [= ->]].
    + split; [done | intros [= ? ?]; done].
Qed.

Lemma starts_with_true (p s : string) :
  starts_with p s = true ↔ ∃ r, s = p ++ r.
Proof.
  unfold starts_with. destruct (strip_prefix p s) as [r|] eqn:H.
  - apply strip_prefix_Some in H. split; [by exists r | done].
  - split; [done |]. intros [r Hr]. apply strip_prefix_Some in Hr. congruence.
Qed.

Lemma take_drop (n : nat) (s : string) : take n s ++ drop n s = s.
Proof.
  revert s. induction n as [|n IH]; intros [|c s]; simpl; try done.
  by rewrite IH.
Qed.

Lemma split_go_no_occurrence (sep s cur : string) :
  occurs sep s = false → split_go sep s 0 cur = [rev (rev_onto s cur)].
Proof.
  revert cur. induction s as [|c s IH]; intros cur H; simpl in *; [done |].
  apply orb_false_iff in H as [H1 H2].
  rewrite H1. by apply IH.
Qed.

Lemma split_no_occurrence (sep s : string) :
  occurs sep s = false → split sep s = [s].
Proof.
  intros H. unfold split. rewrite split_go_no_occurrence by done.
  by rewrite <- (rev_involutive s) at 2.
Qed.

Lemma get_cells_loop_spec (arr : list string) :
  ∀ (index : nat) (cells : list Cell),
    get_cells_loop arr index cells =
    (cells ++ ((λ a, mkCell (get_essid a) (get_level a)) <$>
       (if (index =? 0)%nat then tail arr else arr)))%list.
Proof.
  induction arr as [|a arr IH]; intros index cells; simpl.
  - destruct (index =? 0)%nat; simpl; by rewrite app_nil_r.
  - rewrite IH. replace (index + 1 =? 0)%nat with false
      by (symmetry; apply Nat.eqb_neq; lia).
    destruct (index =? 0)%nat; simpl; [done |].
    by rewrite <- app_assoc.
Qed.

Lemma get_cells_blocks (s : string) :
  get_cells s = (λ a, mkCell (get_essid a) (get_level a)) <$> tail (split "Cell" s).
Proof. unfold get_cells. by rewrite get_cells_loop_spec. Qed.

Lemma get_cells_no_cell (s : string) :
  occurs "Cell" s = false → get_cells s = [].
Proof.
  intros H. rewrite get_cells_blocks. by rewrite split_no_occurrence.
Qed.

Lemma level_digits_at_Some (n : nat) (r d : string) :
  level_digits_at n r = Some d →
  String.length d = n ∧ all_digits d = true ∧ ∃ post, r = d ++ "/100" ++ post.
Proof.
  unfold level_digits_at. intros H.
  destruct (String.length (take n r) =? n)%nat eqn:Hlen; [| done].
  destruct (all_digits (take n r)) eqn:Hd; [| done].
  destruct (starts_with "/100" (drop n r)) eqn:Hs; [| done].
  simpl in H. injection H as <-.
  apply Nat.eqb_eq in Hlen. apply starts_with_true in Hs as [post Hpost].
  split; [done |]. split; [done |]. exists post.
  rewrite <- Hpost. symmetry. apply take_drop.
Qed.

Lemma level_at_Some (s d : string) :
  level_at s = Some d →
  (1 ≤ String.length d ≤ 3)%nat ∧ all_digits d = true ∧
  ∃ post, s = "Signal level=" ++ d ++ "/100" ++ post.
Proof.
  unfold level_at. intros H.
  destruct (strip_prefix "Signal level=" s) as [r|] eqn:Hr; [| done].
  apply strip_prefix_Some in Hr.
  assert (∃ n, (1 ≤ n ≤ 3)%nat ∧ level_digits_at n r = Some d) as (n & Hn & Hd).
  { destruct (level_digits_at 3 r) eqn:H3; [exists 3%nat; split; [lia | congruence] |].
    destruct (level_digits_at 2 r) eqn:H2; [exists 2%nat; split; [lia | congruence] |].
    exists 1%nat. split; [lia | done]. }
  apply level_digits_at_Some in Hd as (Hlen & Hall & post & Hpost).
  split; [lia |]. split; [done |]. exists post. by rewrite Hr, Hpost.
Qed.

Lemma get_level_unfold (s : string) :
  get_level s =
  match level_at s with
  | Some d => Some d
  | None =>
      match s with
      | EmptyString => None
      | String _ r => get_level r
      end
  end.
Proof. by destruct s. Qed.

Lemma get_level_Some (a d : string) :
  get_level a = Some d →
  (1 ≤ String.length d ≤ 3)%nat ∧ all_digits d = true ∧
  ∃ pre post, a = pre ++ "Signal level=" ++ d ++ "/100" ++ post.
Proof.
  induction a as [|c a IH]; rewrite get_level_unfold; intros H.
  - destruct (level_at EmptyString) eqn:Hat; [| done]. injection H as ->.
    apply level_at_Some in Hat as (? & ? & post & Hpost).
    split; [done |]. split; [done |]. by exists EmptyString, post.
  - destruct (level_at (String c a)) eqn:Hat.
    + injection H as ->.
      apply level_at_Some in Hat as (? & ? & post & Hpost).
      split; [done |]. split; [done |]. by exists EmptyString, post.
    + destruct (IH H) as (? & ? & pre & post & ->).
      split; [done |]. split; [done |]. by exists (String c pre), post.
Qed.

Lemma get_level_numeric (a d : string) : get_level a = Some d → numeric d.
Proof.
  intros H. apply get_level_Some in H as (Hlen & Hall & _).
  split; [| split; [done |]].
  - intros ->. simpl in Hlen. lia.
  - unfold max_str_digits. lia.
Qed.

Lemma level_at_text (d post : string) :
  d ≠ EmptyString → all_digits d = true → (String.length d ≤ 3)%nat →
  level_at ("Signal level=" ++ d ++ "/100" ++ post) = Some d.
Proof.
  intros Hne Hall Hlen. unfold level_at. simpl.
  destruct d as [|c1 [|c2 [|c3 [|c4 d]]]]; simpl in *; try done; try lia.
  - apply andb_true_iff in Hall as [H1 _].
    unfold level_digits_at. simpl. by rewrite H1.
  - apply andb_true_iff in Hall as [H1 Hall].
    apply andb_true_iff in Hall as [H2 _].
    unfold level_digits_at. simpl. by rewrite H1, H2.
  - apply andb_true_iff in Hall as [H1 Hall].
    apply andb_true_iff in Hall as [H2 Hall].
    apply andb_true_iff in Hall as [H3 _].
    unfold level_digits_at. simpl. by rewrite H1, H2, H3.
Qed.

Lemma get_level_text (a : string) : has_level_text a → get_level a ≠ None.
Proof.
  intros (pre & d & post & -> & Hne & Hall & Hlen).
  induction pre as [|c pre IH].
  - rewrite get_level_unfold.
    change (EmptyString ++ "Signal level=" ++ d ++ "/100" ++ post)
      with ("Signal level=" ++ d ++ "/100" ++ post).
    by rewrite (level_at_text d post Hne Hall Hlen).
  - rewrite get_level_unfold.
    destruct (level_at _); [done |]. apply IH.
Qed.

Lemma get_level_None_iff (a : string) :
  get_level a = None ↔ ¬ has_level_text a.
Proof.
  split.
  - intros H Ht. by apply get_level_text in Ht.
  - intros Hn. destruct (get_level a) as [d|] eqn:H; [| done].
    exfalso. apply Hn.
    pose proof (get_level_Some a d H) as (Hlen & Hall & pre & post & ->).
    exists pre, d, post. split; [done |]. split; [| split; [done | lia]].
    intros ->. simpl in Hlen. lia.
Qed.

Lemma max_cell_level_loop_missing (arr : list Cell) :
  ∀ (mx : Z) (index i : nat),
    Forall level_missing_or_numeric arr → Exists (λ c, level c = None) arr →
    max_cell_level_loop arr mx index i = Err TypeError.
Proof.
  induction arr as [|a arr IH]; intros mx index i Hall Hex.
  - by apply Exists_nil in Hex.
  - apply Forall_cons in Hall as [Ha Hall]. simpl.
    destruct Ha as [Hnone | (l & Hl & Hnum)].
    + by rewrite Hnone.
    + destruct (py_int_numeric l Hnum) as (v & _ & Hint). rewrite <- Hl in Hint.
      rewrite Hint. simpl.
      apply Exists_cons in Hex as [Hex | Hex]; [congruence |].
      destruct (v >? mx); by apply IH.
Qed.

Lemma max_cell_level_loop_parsed (arr : list Cell) :
  ∀ (mx : Z) (index i r : nat),
    max_cell_level_loop arr mx index i = Ok r → Forall level_parsed arr.
Proof.
  induction arr as [|a arr IH]; intros mx index i r H; [by apply Forall_nil |].
  simpl in H. destruct (py_int (level a)) as [v|e] eqn:Hint; [| done].
  simpl in H. apply Forall_cons. split.
  - unfold level_parsed. destruct (level a) as [l|] eqn:Hl; [| done].
    by exists l, v.
  - destruct (v >? mx); simpl in H; eapply IH; exact H.
Qed.

Lemma get_cells_levels (s : string) :
  Forall level_missing_or_numeric (get_cells s).
Proof.
  rewrite get_cells_blocks. apply Forall_fmap, Forall_forall.
  intros a _. unfold level_missing_or_numeric, numeric_level. simpl.
  destruct (get_level a) as [d|] eqn:Hd; [right | by left].
  exists d. split; [done |]. by apply get_level_numeric in Hd.
Qed.

(** C7: when the scan text yields no cell, [max_cell_level] raises
    [IndexError], and so does [network_scan]. *)
Theorem empty_scan_raises_index_error
    (iwlist : string → result string) (device_name data : string) :
  iwlist device_name = Ok data → get_cells data = [] →
  max_cell_level (get_cells data) = Err IndexError ∧
  network_scan iwlist device_name = Err IndexError.
Proof.
  intros Hrun Hcells. unfold network_scan. rewrite Hrun. simpl.
  by rewrite Hcells.
Qed.

Lemma empty_scan_raises_index_error_witness :
  (λ _, Ok "b''") "wlan0" = Ok "b''" ∧ get_cells "b''" = [] ∧
  network_scan (λ _, Ok "b''") "wlan0" = Err IndexError.
Proof.
  split; [reflexivity |]. split; [reflexivity |].
  apply (empty_scan_raises_index_error (λ _, Ok "b''") "wlan0" "b''");
    reflexivity.
Defined.

(** C8: a block after a Cell separator without the signal level text
    gives a cell whose level is [None]; [max_cell_level] then raises
    [TypeError]; and [max_cell_level] returns only on lists all of
    whose levels are strings that [int] accepts. *)
Theorem missing_level_breaks_max_cell_level (s : string) (i : nat) (a : string) :
  split "Cell" s !! S i = Some a → ¬ has_level_text a →
  (∃ c, get_cells s !! i = Some c ∧ level c = None) ∧
  max_cell_level (get_cells s) = Err TypeError ∧
  (∀ arr c, max_cell_level arr = Ok c → Forall level_parsed arr).
Proof.
  intros Hblock Hmissing.
  assert (get_cells s !! i = Some (mkCell (get_essid a) (get_level a))) as Hcell.
  { rewrite get_cells_blocks, list_lookup_fmap.
    destruct (split "Cell" s) as [|b blocks]; [done |]. simpl in *.
    by rewrite Hblock. }
  apply get_level_None_iff in Hmissing.
  split; [| split].
  - eexists. split; [exact Hcell | done].
  - unfold max_cell_level.
    rewrite (max_cell_level_loop_missing (get_cells s) 0 0 0); [done | |].
    + apply get_cells_levels.
    + apply Exists_exists. exists (mkCell (get_essid a) (get_level a)).
      split; [| exact Hmissing].
      apply (list_elem_of_lookup_2 _ i). exact Hcell.
  - intros arr c H. unfold max_cell_level in H.
    destruct (max_cell_level_loop arr 0 0 0) as [r|e] eqn:Hloop; [| done].
    by apply max_cell_level_loop_parsed in Hloop.
Qed.

(** ** sigpyc/sigcontrol.py: the loops and the outcomes of the methods *)

Section Proofs.
Variable env : nat → list string → option (option nat * Z).

Lemma while_true_spec (I Q : state → Prop) (body : M bool) :
  (∀ st, I st →
     match body st with
     | Returns false st' => I st'
     | Returns true st' => Q st'
     | Raises _ _ | Spins _ => False
     end) →
  ∀ fuel st, I st →
    match while_true body fuel st with
    | Returns _ st' => Q st'
    | Raises _ _ => False
    | Spins st' => I st'
    end.
Proof.
  intros Hbody. induction fuel as [|fuel IH]; intros st Hst; simpl; [done |].
  specialize (Hbody st Hst).
  destruct (body st) as [[] st' | e st' | st']; try done.
  by apply IH.
Qed.

Lemma while_true_terminates (I : state → Prop) (mu : state → nat) (body : M bool) :
  (∀ st, I st →
     match body st with
     | Returns false st' => I st' ∧ (mu st' < mu st)%nat
     | Returns true st' => True
     | Raises _ _ | Spins _ => False
     end) →
  ∀ fuel st, I st → (mu st < fuel)%nat →
    ∃ st', while_true body fuel st = Returns tt st'.
Proof.
  intros Hbody. induction fuel as [|fuel IH]; intros st Hst Hmu; [lia |].
  simpl. specialize (Hbody st Hst).
  destruct (body st) as [[] st' | e st' | st']; try done.
  - by exists st'.
  - destruct Hbody as [HI Hlt]. apply IH; [done | lia].
Qed.

Lemma over_at_mono (p : osproc) (t t' : nat) :
  over_at t p → (t ≤ t')%nat → over_at t' p.
Proof.
  unfold over_at, state_at, natural_state. intros H Hle.
  destruct (t <? p_start p)%nat eqn:Ht; [done |].
  apply Nat.ltb_ge in Ht.
  replace (t' <? p_start p)%nat with false by (symmetry; apply Nat.ltb_ge; lia).
  assert (∀ d, (p_start p + d <=? t)%nat = true → (p_start p + d <=? t')%nat = true) as Hnat.
  { intros d Hd. apply Nat.leb_le in Hd. apply Nat.leb_le. lia. }
  destruct (p_killed p) as [tk|].
  - destruct (tk <=? t)%nat eqn:Hk.
    + apply Nat.leb_le in Hk.
      by replace (tk <=? t')%nat with true by (symmetry; apply Nat.leb_le; lia).
    + destruct (tk <=? t')%nat; [done |].
      destruct (p_life p) as [d|]; [| done].
      destruct (p_start p + d <=? t)%nat eqn:Hd; [| done].
      by rewrite (Hnat d Hd).
  - destruct (p_life p) as [d|]; [| done].
    destruct (p_start p + d <=? t)%nat eqn:Hd; [| done].
    by rewrite (Hnat d Hd).
Qed.

Lemma get_set_proc (k : kind) (h : option popen) (s : controller) :
  get_proc k (set_proc k h s) = h.
Proof. by destruct k. Qed.

Lemma get_set_proc_ne (k k' : kind) (h : option popen) (s : controller) :
  k ≠ k' → get_proc k (set_proc k' h s) = get_proc k s.
Proof. by destruct k, k'. Qed.

Lemma set_proc_twice (k : kind) (h h' : option popen) (s : controller) :
  set_proc k h (set_proc k h' s) = set_proc k h s.
Proof. by destruct k. Qed.

Lemma set_proc_swap (k k' : kind) (h h' : option popen) (s : controller) :
  k ≠ k' → set_proc k h (set_proc k' h' s) = set_proc k' h' (set_proc k h s).
Proof. by destruct k, k'. Qed.

(** What [refresh] records: nothing while the process runs, an exit
    status once it is over. *)
Lemma refresh_fresh (w : world) (n : nat) :
  (returncode (refresh w (mkPopen n None)) = None ∧
   refresh w (mkPopen n None) = mkPopen n None ∧
   ∀ p, procs w !! n = Some p → ¬ over_at (now w) p) ∨
  (∃ c p, refresh w (mkPopen n None) = mkPopen n (Some c) ∧
          procs w !! n = Some p ∧ over_at (now w) p).
Proof.
  unfold refresh, over_at. simpl.
  destruct (procs w !! n) as [p|] eqn:Hp; [| left; by repeat split].
  destruct (state_at (now w) p) eqn:Hst.
  - left. repeat split; try done. intros p' [= <-]. by rewrite Hst.
  - left. repeat split; try done. intros p' [= <-]. by rewrite Hst.
  - right. exists code, p. by rewrite Hst.
  - right. exists sigkill_code, p. by rewrite Hst.
Qed.

Lemma refresh_recorded (w : world) (n : nat) (c : Z) :
  refresh w (mkPopen n (Some c)) = mkPopen n (Some c).
Proof. done. Qed.

Lemma waited_refl (ns : list nat) (w : world) : waited ns w w.
Proof.
  repeat split; try done. exists []. by rewrite app_nil_r.
Qed.

Lemma waited_poll (ns : list nat) (n : nat) (w w1 : world) :
  n ∈ ns → waited ns w w1 → waited ns w (after_poll n w1).
Proof.
  intros Hn (Hp & Hs & Ht & evs & Hevs & Hall). repeat split; simpl; try done.
  - lia.
  - exists (evs ++ [EvPoll n])%list. rewrite Hevs, app_assoc. split; [done |].
    apply Forall_app. split; [done |]. apply Forall_singleton. by exists n.
Qed.

Lemma recorded_poll (n n' : nat) (rc : option Z) (w : world) :
  recorded w n rc → recorded (after_poll n' w) n rc.
Proof.
  intros H c Hc. destruct (H c Hc) as (p & Hp & Hover).
  exists p. split; [done |]. simpl. apply (over_at_mono p (now w)); [done | lia].
Qed.

(** One [poll] of a handle: the new return code, the world one step later. *)
Lemma poll_handle (n : nat) (rc : option Z) (w : world) :
  recorded w n rc →
  ∃ rc', refresh w (mkPopen n rc) = mkPopen n rc' ∧
         recorded (after_poll n w) n rc' ∧
         (rc' = None → ∀ p, procs w !! n = Some p → ¬ over_at (now w) p).
Proof.
  intros Hrec. destruct rc as [c|].
  - exists (Some c). split; [done |]. split; [by apply recorded_poll | done].
  - destruct (refresh_fresh w n) as [(_ & Heq & Hrun) | (c & p & Heq & Hp & Hover)].
    + exists None. split; [done |]. split; [done |]. by intros _.
    + exists (Some c). split; [done |]. split; [| done].
      intros c' _. exists p. split; [done |]. simpl.
      apply (over_at_mono p (now w)); [done | lia].
Qed.

Lemma poll_set (k : kind) (h : popen) (s : controller) (w : world) :
  poll k (set_proc k (Some h) s, w) =
  Returns (returncode (refresh w h))
    (set_proc k (Some (refresh w h)) s, after_poll (pid h) w).
Proof. by destruct k. Qed.

Lemma poll_set_inner (k1 k2 : kind) (h1 : option popen) (h2 : popen)
    (s : controller) (w : world) :
  k1 ≠ k2 →
  poll k2 (set_proc k1 h1 (set_proc k2 (Some h2) s), w) =
  Returns (returncode (refresh w h2))
    (set_proc k1 h1 (set_proc k2 (Some (refresh w h2)) s), after_poll (pid h2) w).
Proof. by destruct k1, k2. Qed.

Lemma read_set (k : kind) (h : popen) (s : controller) (w : world) :
  read_returncode k (set_proc k (Some h) s, w) =
  Returns (returncode h) (set_proc k (Some h) s, w).
Proof. by destruct k. Qed.

Lemma read_set_inner (k1 k2 : kind) (h1 : option popen) (h2 : popen)
    (s : controller) (w : world) :
  k1 ≠ k2 →
  read_returncode k2 (set_proc k1 h1 (set_proc k2 (Some h2) s), w) =
  Returns (returncode h2) (set_proc k1 h1 (set_proc k2 (Some h2) s), w).
Proof. by destruct k1, k2. Qed.

(** The loop of [start_usrp] and [start_controller]. *)
Lemma wait_poll_body (k : kind) (n : nat) (rc : option Z) (s : controller) (w : world) :
  recorded w n rc →
  ∃ rc',
    (c <- (r <- poll k ;; ret (is_none r)) ;; ret (negb c))
      (set_proc k (Some (mkPopen n rc)) s, w) =
    Returns (is_some rc') (set_proc k (Some (mkPopen n rc')) s, after_poll n w) ∧
    recorded (after_poll n w) n rc' ∧
    (rc' = None → ∀ p, procs w !! n = Some p → ¬ over_at (now w) p).
Proof.
  intros Hrec. destruct (poll_handle n rc w Hrec) as (rc' & Href & Hrec' & Hrun).
  exists rc'. split; [| done].
  unfold bind, ret. rewrite poll_set, Href. simpl. by destruct rc'.
Qed.

(** The loop of [start_usrp_iperf]. *)
Lemma wait_read_body (k : kind) (n : nat) (rc : option Z) (s : controller) (w : world) :
  recorded w n rc →
  ∃ rc',
    (poll k ;; a <- read_returncode k ;; ret (is_not_none a))
      (set_proc k (Some (mkPopen n rc)) s, w) =
    Returns (is_some rc') (set_proc k (Some (mkPopen n rc')) s, after_poll n w) ∧
    recorded (after_poll n w) n rc' ∧
    (rc' = None → ∀ p, procs w !! n = Some p → ¬ over_at (now w) p).
Proof.
  intros Hrec. destruct (poll_handle n rc w Hrec) as (rc' & Href & Hrec' & Hrun).
  exists rc'. split; [| done].
  unfold bind, ret. rewrite poll_set, Href. simpl. rewrite read_set. simpl.
  by destruct rc'.
Qed.

(** The loop of [start_usrp_controller] and [start_iperf]. *)
Lemma wait_both_body (k1 k2 : kind) (n1 n2 : nat) (rc1 rc2 : option Z)
    (s : controller) (w : world) :
  k1 ≠ k2 → recorded w n1 rc1 → recorded w n2 rc2 →
  ∃ rc1' rc2',
    (poll k1 ;; poll k2 ;;
     a <- read_returncode k1 ;;
     if is_not_none a
     then (b <- read_returncode k2 ;; ret (is_not_none b))
     else ret false)
      (set_proc k1 (Some (mkPopen n1 rc1)) (set_proc k2 (Some (mkPopen n2 rc2)) s), w) =
    Returns (is_some rc1' && is_some rc2')
      (set_proc k1 (Some (mkPopen n1 rc1')) (set_proc k2 (Some (mkPopen n2 rc2')) s),
       after_poll n2 (after_poll n1 w)) ∧
    recorded (after_poll n2 (after_poll n1 w)) n1 rc1' ∧
    recorded (after_poll n2 (after_poll n1 w)) n2 rc2' ∧
    (rc1' = None → ∀ p, procs w !! n1 = Some p → ¬ over_at (now w) p) ∧
    (rc2' = None → ∀ p, procs w !! n2 = Some p → ¬ over_at (now w + 1) p).
Proof.
  intros Hne Hrec1 Hrec2.
  destruct (poll_handle n1 rc1 w Hrec1) as (rc1' & Href1 & Hrec1' & Hrun1).
  apply (recorded_poll n2 n1) in Hrec2.
  destruct (poll_handle n2 rc2 (after_poll n1 w) Hrec2) as (rc2' & Href2 & Hrec2' & Hrun2).
  exists rc1', rc2'. split; [| split; [by apply recorded_poll | done]].
  unfold bind, ret. rewrite poll_set, Href1. simpl.
  rewrite poll_set_inner, Href2 by done. simpl.
  rewrite read_set. simpl. destruct rc1' as [c1|]; simpl; [| done].
  rewrite read_set_inner by done. simpl. by destruct rc2'.
Qed.

Lemma watches_poll (k : kind) (n : nat) (s : controller) :
  watches_one (c <- (r <- poll k ;; ret (is_none r)) ;; ret (negb c)) k n s.
Proof. intros rc w. apply wait_poll_body. Qed.

Lemma watches_read (k : kind) (n : nat) (s : controller) :
  watches_one (poll k ;; a <- read_returncode k ;; ret (is_not_none a)) k n s.
Proof. intros rc w. apply wait_read_body. Qed.

Lemma watches_both (k1 k2 : kind) (n1 n2 : nat) (s : controller) :
  k1 ≠ k2 →
  watches_two
    (poll k1 ;; poll k2 ;;
     a <- read_returncode k1 ;;
     if is_not_none a
     then (b <- read_returncode k2 ;; ret (is_not_none b))
     else ret false) k1 k2 n1 n2 s.
Proof. intros Hne rc1 rc2 w. by apply wait_both_body. Qed.

Lemma wait_one_loop (body : M bool) (k : kind) (n : nat) (s : controller) :
  watches_one body k n s →
  ∀ fuel w,
    match while_true body fuel (set_proc k (Some (mkPopen n None)) s, w) with
    | Returns _ st' =>
        ∃ c w', st' = (set_proc k (Some (mkPopen n (Some c))) s, w') ∧
                waited [n] w w' ∧ recorded w' n (Some c)
    | Raises _ _ => False
    | Spins st' =>
        ∃ rc w', st' = (set_proc k (Some (mkPopen n rc)) s, w') ∧ waited [n] w w'
    end.
Proof.
  intros Hbody fuel w.
  pose (I := λ st : state,
    ∃ rc w', st = (set_proc k (Some (mkPopen n rc)) s, w') ∧ waited [n] w w' ∧
             recorded w' n rc).
  pose (Q := λ st : state,
    ∃ c w', st = (set_proc k (Some (mkPopen n (Some c))) s, w') ∧
            waited [n] w w' ∧ recorded w' n (Some c)).
  assert (I (set_proc k (Some (mkPopen n None)) s, w)) as Hinit.
  { exists None, w. split; [done |]. split; [apply waited_refl | by intros c]. }
  assert (∀ st, I st →
            match body st with
            | Returns false st' => I st'
            | Returns true st' => Q st'
            | Raises _ _ | Spins _ => False
            end) as Hstep.
  { intros st (rc & w1 & -> & Hw & Hrec).
    destruct (Hbody rc w1 Hrec) as (rc' & -> & Hrec' & _).
    assert (waited [n] w (after_poll n w1)) as Hw'
      by (apply waited_poll; [apply list_elem_of_singleton; done | done]).
    destruct rc' as [c|]; simpl.
    - by exists c, (after_poll n w1).
    - by exists None, (after_poll n w1). }
  pose proof (while_true_spec I Q body Hstep fuel _ Hinit) as Hloop.
  destruct (while_true body fuel _) as [[] st' | e st' | st']; try done.
  destruct Hloop as (rc & w' & -> & Hw & _). by exists rc, w'.
Qed.

Lemma not_over_ends (p : osproc) (d t : nat) :
  ends_by_itself p d → (p_start p ≤ t)%nat → ¬ over_at t p → (t < p_start p + d)%nat.
Proof.
  intros [Hlife Hkill] Hstart Hnot.
  destruct (decide (t < p_start p + d)%nat) as [|Hge]; [done |].
  exfalso. apply Hnot. unfold over_at, state_at, natural_state.
  rewrite Hlife, Hkill.
  replace (t <? p_start p)%nat with false by (symmetry; apply Nat.ltb_ge; lia).
  by replace (p_start p + d <=? t)%nat with true by (symmetry; apply Nat.leb_le; lia).
Qed.

Lemma wait_one_terminates (body : M bool) (k : kind) (n : nat) (s : controller) :
  watches_one body k n s →
  ∀ fuel w p d,
    procs w !! n = Some p → ends_by_itself p d → (p_start p ≤ now w)%nat →
    (p_start p + d - now w < fuel)%nat →
    ∃ st', while_true body fuel (set_proc k (Some (mkPopen n None)) s, w) =
           Returns tt st'.
Proof.
  intros Hbody fuel w p d Hp Hends Hstart Hfuel.
  pose (I := λ st : state,
    ∃ rc w', st = (set_proc k (Some (mkPopen n rc)) s, w') ∧ waited [n] w w' ∧
             recorded w' n rc).
  pose (mu := λ st : state, (p_start p + d - now (snd st))%nat).
  apply (while_true_terminates I mu body).
  - intros st (rc & w1 & -> & Hw & Hrec).
    destruct (Hbody rc w1 Hrec) as (rc' & -> & Hrec' & Hrun).
    destruct rc' as [c|]; simpl; [done |].
    assert (waited [n] w (after_poll n w1)) as Hw'
      by (apply waited_poll; [apply list_elem_of_singleton; done | done]).
    split; [by exists None, (after_poll n w1) |].
    destruct Hw as (Hprocs & _ & Hnow & _).
    rewrite <- Hprocs in Hp.
    pose proof (not_over_ends p d (now w1) Hends ltac:(lia) (Hrun eq_refl p Hp)).
    unfold mu. simpl. lia.
  - exists None, w. split; [done |]. split; [apply waited_refl | by intros c].
  - unfold mu. simpl. lia.
Qed.

Lemma wait_two_loop (body : M bool) (k1 k2 : kind) (n1 n2 : nat) (s : controller) :
  watches_two body k1 k2 n1 n2 s →
  ∀ fuel w,
    match
      while_true body fuel
        (set_proc k1 (Some (mkPopen n1 None)) (set_proc k2 (Some (mkPopen n2 None)) s), w)
    with
    | Returns _ st' =>
        ∃ c1 c2 w',
          st' = (set_proc k1 (Some (mkPopen n1 (Some c1)))
                   (set_proc k2 (Some (mkPopen n2 (Some c2))) s), w') ∧
          waited [n1; n2] w w' ∧ recorded w' n1 (Some c1) ∧ recorded w' n2 (Some c2)
    | Raises _ _ => False
    | Spins st' =>
        ∃ rc1 rc2 w',
          st' = (set_proc k1 (Some (mkPopen n1 rc1))
                   (set_proc k2 (Some (mkPopen n2 rc2)) s), w') ∧
          waited [n1; n2] w w'
    end.
Proof.
  intros Hbody fuel w.
  pose (I := λ st : state,
    ∃ rc1 rc2 w',
      st = (set_proc k1 (Some (mkPopen n1 rc1))
              (set_proc k2 (Some (mkPopen n2 rc2)) s), w') ∧
      waited [n1; n2] w w' ∧ recorded w' n1 rc1 ∧ recorded w' n2 rc2).
  pose (Q := λ st : state,
    ∃ c1 c2 w',
      st = (set_proc k1 (Some (mkPopen n1 (Some c1)))
              (set_proc k2 (Some (mkPopen n2 (Some c2))) s), w') ∧
      waited [n1; n2] w w' ∧ recorded w' n1 (Some c1) ∧ recorded w' n2 (Some c2)).
  assert (I (set_proc k1 (Some (mkPopen n1 None))
               (set_proc k2 (Some (mkPopen n2 None)) s), w)) as Hinit.
  { exists None, None, w. split; [done |]. split; [apply waited_refl |].
    split; by intros c. }
  assert (∀ st, I st →
            match body st with
            | Returns false st' => I st'
            | Returns true st' => Q st'
            | Raises _ _ | Spins _ => False
            end) as Hstep.
  { intros st (rc1 & rc2 & w1 & -> & Hw & Hrec1 & Hrec2).
    destruct (Hbody rc1 rc2 w1 Hrec1 Hrec2) as (rc1' & rc2' & -> & Hrec1' & Hrec2' & _).
    assert (waited [n1; n2] w (after_poll n2 (after_poll n1 w1))) as Hw'.
    { apply waited_poll; [apply elem_of_cons; right; by apply list_elem_of_singleton |].
      apply waited_poll; [apply elem_of_cons; by left | done]. }
    destruct rc1' as [c1|], rc2' as [c2|]; simpl.
    - by exists c1, c2, (after_poll n2 (after_poll n1 w1)).
    - by exists (Some c1), None, (after_poll n2 (after_poll n1 w1)).
    - by exists None, (Some c2), (after_poll n2 (after_poll n1 w1)).
    - by exists None, None, (after_poll n2 (after_poll n1 w1)). }
  pose proof (while_true_spec I Q body Hstep fuel _ Hinit) as Hloop.
  destruct (while_true body fuel _) as [[] st' | e st' | st']; try done.
  destruct Hloop as (rc1 & rc2 & w' & -> & Hw & _). by exists rc1, rc2, w'.
Qed.

(** *** The outcomes of the start operations *)

Ltac run_method :=
  cbv [start_usrp start_controller start_usrp_controller start_usrp_iperf
       start_iperf rebuild_usrp_control_args while_continue bind self assign
       print ret spawn fst snd and_then finish teardown iperf_loop
       capture_args printed spawned
       set_usrp_control_args set_proc get_proc
       usrp_proc controller_proc converter_proc plotter_proc
       iperf_client_proc iperf_server_proc iperf_client_addr iperf_server_addr
       iperf_rate iperf_mem_addr iperf_client_args iperf_server_args
       run_time file_name working_dir usrp_control_args sg_controller_args
       matlab_converter_args matlab_plotter_args
       now procs trace stdout].

Lemma start_usrp_eq (fuel : nat) (s : controller) (w : world) :
  let n := length (procs w) in
  let s1 := set_usrp_control_args (capture_args s) s in
  let w1 := printed ("Running USRP..." ++ nl) w in
  start_usrp env fuel (s, w) =
  match launch env n (capture_args s) with
  | Err e => Raises e (s1, w1)
  | Ok (life, code) =>
      and_then
        (while_continue (r <- poll Usrp ;; ret (is_none r)) fuel
           (set_proc Usrp (Some (mkPopen n None)) s1,
            spawned Usrp (capture_args s) life code w1))
        (finish ("Done sensing medium" ++ nl))
  end.
Proof.
  intros n s1 w1. subst n s1 w1. run_method.
  destruct (launch env _ _) as [[life code]|e]; reflexivity.
Qed.

Lemma start_controller_eq {T : Type} (args : T) (fuel : nat) (s : controller) (w : world) :
  let n := length (procs w) in
  let w1 := printed ("Running interference..." ++ nl) w in
  start_controller env args fuel (s, w) =
  match launch env n (sg_controller_args s) with
  | Err e => Raises e (s, w1)
  | Ok (life, code) =>
      and_then
        (while_continue (r <- poll Controller ;; ret (is_none r)) fuel
           (set_proc Controller (Some (mkPopen n None)) s,
            spawned Controller (sg_controller_args s) life code w1))
        (finish ("Done injecting interference" ++ nl))
  end.
Proof.
  intros n w1. subst n w1. run_method.
  destruct (launch env _ _) as [[life code]|e]; reflexivity.
Qed.

Lemma start_usrp_controller_eq (fuel : nat) (s : controller) (w : world) :
  let n := length (procs w) in
  let s1 := set_usrp_control_args (capture_args s) s in
  let w1 := printed ("Running USRP with interference injected..." ++ nl) w in
  start_usrp_controller env fuel (s, w) =
  match launch env n (capture_args s) with
  | Err e => Raises e (s1, w1)
  | Ok (life1, code1) =>
      let s2 := set_proc Usrp (Some (mkPopen n None)) s1 in
      let w2 := spawned Usrp (capture_args s) life1 code1 w1 in
      match launch env (S n) (sg_controller_args s) with
      | Err e => Raises e (s2, w2)
      | Ok (life2, code2) =>
          and_then
            (while_true
               (poll Usrp ;; poll Controller ;;
                a <- read_returncode Usrp ;;
                if is_not_none a
                then (b <- read_returncode Controller ;; ret (is_not_none b))
                else ret false) fuel
               (set_proc Usrp (Some (mkPopen n None))
                  (set_proc Controller (Some (mkPopen (S n) None)) s1),
                spawned Controller (sg_controller_args s) life2 code2 w2))
            (finish ("Done sensing with added interference" ++ nl))
      end
  end.
Proof.
  intros n s1 w1. subst n s1 w1. run_method.
  destruct (launch env _ _) as [[life1 code1]|e]; [| reflexivity].
  rewrite length_app. simpl length. rewrite Nat.add_1_r.
  destruct (launch env _ _) as [[life2 code2]|e]; reflexivity.
Qed.

Lemma start_iperf_eq (fuel : nat) (s : controller) (w : world) :
  let n := length (procs w) in
  let w1 := printed ("Running iperf..." ++ nl) w in
  start_iperf env fuel (s, w) =
  match launch env n (iperf_client_args s) with
  | Err e => Raises e (s, w1)
  | Ok (life1, code1) =>
      let s2 := set_proc IperfClient (Some (mkPopen n None)) s in
      let w2 := spawned IperfClient (iperf_client_args s) life1 code1 w1 in
      match launch env (S n) (iperf_server_args s) with
      | Err e => Raises e (s2, w2)
      | Ok (life2, code2) =>
          and_then
            (while_true
               (poll IperfClient ;; poll IperfServer ;;
                a <- read_returncode IperfClient ;;
                if is_not_none a
                then (b <- read_returncode IperfServer ;; ret (is_not_none b))
                else ret false) fuel
               (set_proc IperfClient (Some (mkPopen n None))
                  (set_proc IperfServer (Some (mkPopen (S n) None)) s),
                spawned IperfServer (iperf_server_args s) life2 code2 w2))
            (finish ("Done running iperf" ++ nl))
      end
  end.
Proof.
  intros n w1. subst n w1. run_method.
  destruct (launch env _ _) as [[life1 code1]|e]; [| reflexivity].
  rewrite length_app. simpl length. rewrite Nat.add_1_r.
  destruct (launch env _ _) as [[life2 code2]|e]; reflexivity.
Qed.

(** The two single-job operations share one shape. *)
Lemma single_outcome (k : kind) (body : M bool) (line : string) (fuel : nat)
    (args : list string) (s1 : controller) (w1 : world) :
  watches_one body k (length (procs w1)) s1 →
  let n := length (procs w1) in
  match
    match launch env n args with
    | Err e => Raises e (s1, w1)
    | Ok (life, code) =>
        and_then
          (while_true body fuel
             (set_proc k (Some (mkPopen n None)) s1, spawned k args life code w1))
          (finish line)
    end
  with
  | Returns _ (s', w') =>
      ∃ life code c wl,
        launch env n args = Ok (life, code) ∧
        s' = set_proc k (Some (mkPopen n (Some c))) s1 ∧
        waited [n] (spawned k args life code w1) wl ∧
        recorded wl n (Some c) ∧
        w' = printed line wl
  | Raises e (s', w') => launch env n args = Err e ∧ s' = s1 ∧ w' = w1
  | Spins (s', w') =>
      ∃ life code rc,
        launch env n args = Ok (life, code) ∧
        s' = set_proc k (Some (mkPopen n rc)) s1 ∧
        waited [n] (spawned k args life code w1) w'
  end.
Proof.
  intros Hbody n.
  destruct (launch env n args) as [[life code]|e] eqn:Henv; [| done].
  pose proof (wait_one_loop body k n s1 Hbody fuel (spawned k args life code w1)) as Hloop.
  destruct (while_true body fuel _) as [[] st' | e st' | st']; simpl; try done.
  - destruct Hloop as (c & wl & -> & Hw & Hrec). by exists life, code, c, wl.
  - destruct Hloop as (rc & wl & -> & Hw). by exists life, code, rc.
Qed.

(** The two joint operations share one shape as well. *)
Lemma joint_outcome (k1 k2 : kind) (body : M bool) (line : string) (fuel : nat)
    (args1 args2 : list string) (s1 : controller) (w1 : world) :
  watches_two body k1 k2 (length (procs w1)) (S (length (procs w1))) s1 →
  let n := length (procs w1) in
  match
    match launch env n args1 with
    | Err e => Raises e (s1, w1)
    | Ok (life1, code1) =>
        let s2 := set_proc k1 (Some (mkPopen n None)) s1 in
        let w2 := spawned k1 args1 life1 code1 w1 in
        match launch env (S n) args2 with
        | Err e => Raises e (s2, w2)
        | Ok (life2, code2) =>
            and_then
              (while_true body fuel
                 (set_proc k1 (Some (mkPopen n None))
                    (set_proc k2 (Some (mkPopen (S n) None)) s1),
                  spawned k2 args2 life2 code2 w2))
              (finish line)
        end
    end
  with
  | Returns _ (s', w') =>
      ∃ life1 code1 life2 code2 c1 c2 wl,
        launch env n args1 = Ok (life1, code1) ∧
        launch env (S n) args2 = Ok (life2, code2) ∧
        s' = set_proc k1 (Some (mkPopen n (Some c1)))
               (set_proc k2 (Some (mkPopen (S n) (Some c2))) s1) ∧
        waited [n; S n]
          (spawned k2 args2 life2 code2 (spawned k1 args1 life1 code1 w1)) wl ∧
        recorded wl n (Some c1) ∧ recorded wl (S n) (Some c2) ∧
        w' = printed line wl
  | Raises e (s', w') =>
      ((launch env n args1 = Err e ∧ s' = s1 ∧ w' = w1) ∨
       (∃ life1 code1,
          launch env n args1 = Ok (life1, code1) ∧ launch env (S n) args2 = Err e ∧
          s' = set_proc k1 (Some (mkPopen n None)) s1 ∧
          w' = spawned k1 args1 life1 code1 w1))
  | Spins (s', w') =>
      ∃ life1 code1 life2 code2 rc1 rc2,
        launch env n args1 = Ok (life1, code1) ∧
        launch env (S n) args2 = Ok (life2, code2) ∧
        s' = set_proc k1 (Some (mkPopen n rc1))
               (set_proc k2 (Some (mkPopen (S n) rc2)) s1) ∧
        waited [n; S n]
          (spawned k2 args2 life2 code2 (spawned k1 args1 life1 code1 w1)) w'
  end.
Proof.
  intros Hbody n.
  destruct (launch env n args1) as [[life1 code1]|e] eqn:Henv1; [| by left].
  cbv zeta.
  destruct (launch env (S n) args2) as [[life2 code2]|e] eqn:Henv2.
  2: { right. by exists life1, code1. }
  pose proof (wait_two_loop body k1 k2 n (S n) s1 Hbody fuel
                (spawned k2 args2 life2 code2 (spawned k1 args1 life1 code1 w1)))
    as Hloop.
  destruct (while_true body fuel _) as [[] st' | e st' | st']; simpl; try done.
  - destruct Hloop as (c1 & c2 & wl & -> & Hw & Hrec1 & Hrec2).
    by exists life1, code1, life2, code2, c1, c2, wl.
  - destruct Hloop as (rc1 & rc2 & wl & -> & Hw).
    by exists life1, code1, life2, code2, rc1, rc2.
Qed.

Lemma kill_spec (k : kind) (n : nat) (s : controller) (w : world) (p : osproc) :
  get_proc k s = Some (mkPopen n None) → procs w !! n = Some p →
  (p_start p ≤ now w)%nat →
  ∃ rc' p',
    kill k (s, w) =
    Returns tt (set_proc k (Some (mkPopen n rc')) s, after_kill n p' w) ∧
    kill_result (now w) p p'.
Proof.
  intros Hget Hp Hstart. unfold kill. simpl. rewrite Hget. simpl.
  destruct (refresh_fresh w n) as [(Hrc & Heq & Hrun) | (c & p0 & Heq & Hp0 & Hover)].
  - rewrite Heq. simpl. rewrite Hp.
    exists None, (with_kill (now w) p). split; [done |]. split; [by right |].
    unfold over_at, state_at. simpl.
    replace (now w + 1 <? p_start p)%nat with false
      by (symmetry; apply Nat.ltb_ge; lia).
    by replace (now w <=? now w + 1)%nat with true
      by (symmetry; apply Nat.leb_le; lia).
  - rewrite Heq. simpl. rewrite Hp in Hp0. injection Hp0 as <-.
    exists (Some c), p. split.
    + unfold after_kill. by rewrite list_insert_id.
    + split; [by left |]. apply (over_at_mono p (now w)); [done | lia].
Qed.

Lemma start_usrp_iperf_alone_eq (fuel : nat) (s : controller) (w : world) :
  truthy (iperf_client_addr s) = false →
  let n := length (procs w) in
  let w1 := printed ("Running USRP with interference injected..." ++ nl) w in
  start_usrp_iperf env fuel (s, w) =
  match launch env n (iperf_server_args s) with
  | Err e => Raises e (s, w1)
  | Ok (ls, cs) =>
      let ss := set_usrp_control_args (capture_args s)
                  (set_proc IperfServer (Some (mkPopen n None)) s) in
      let ws := spawned IperfServer (iperf_server_args s) ls cs w1 in
      match launch env (S n) (capture_args s) with
      | Err e => Raises e (ss, ws)
      | Ok (lu, cu) =>
          and_then
            (while_true iperf_loop fuel
               (set_proc Usrp (Some (mkPopen (S n) None)) ss,
                spawned Usrp (capture_args s) lu cu ws))
            teardown
      end
  end.
Proof.
  intros Hc n w1. subst n w1. run_method.
  cbv [iperf_client_addr] in Hc. rewrite Hc. run_method.
  destruct (launch env _ _) as [[ls cs]|e]; [| reflexivity].
  rewrite length_app. simpl length. rewrite Nat.add_1_r.
  destruct (launch env _ _) as [[lu cu]|e]; [| reflexivity].
  destruct (while_true _ _ _) as [[] st' | e st' | st']; reflexivity.
Qed.

Lemma start_usrp_iperf_client_eq (fuel : nat) (s : controller) (w : world) :
  truthy (iperf_client_addr s) = true →
  let n := length (procs w) in
  let w1 := printed ("Running USRP with interference injected..." ++ nl) w in
  start_usrp_iperf env fuel (s, w) =
  match launch env n (iperf_client_args s) with
  | Err e => Raises e (s, w1)
  | Ok (lc, cc) =>
      let sc := set_proc IperfClient (Some (mkPopen n None)) s in
      let wc := spawned IperfClient (iperf_client_args s) lc cc w1 in
      match launch env (S n) (iperf_server_args s) with
      | Err e => Raises e (sc, wc)
      | Ok (ls, cs) =>
          let ss := set_usrp_control_args (capture_args s)
                      (set_proc IperfServer (Some (mkPopen (S n) None)) sc) in
          let ws := spawned IperfServer (iperf_server_args s) ls cs wc in
          match launch env (S (S n)) (capture_args s) with
          | Err e => Raises e (ss, ws)
          | Ok (lu, cu) =>
              and_then
                (while_true iperf_loop fuel
                   (set_proc Usrp (Some (mkPopen (S (S n)) None)) ss,
                    spawned Usrp (capture_args s) lu cu ws))
                teardown
          end
      end
  end.
Proof.
  intros Hc n w1. subst n w1. run_method.
  cbv [iperf_client_addr] in Hc. rewrite Hc. run_method.
  destruct (launch env _ _) as [[lc cc]|e]; [| reflexivity].
  rewrite !length_app. simpl length. rewrite !Nat.add_1_r.
  destruct (launch env _ _) as [[ls cs]|e]; [| reflexivity].
  rewrite !length_app. simpl length. rewrite !Nat.add_1_r.
  destruct (launch env _ _) as [[lu cu]|e]; [| reflexivity].
  destruct (while_true _ _ _) as [[] st' | e st' | st']; reflexivity.
Qed.

Lemma teardown_alone (s4 : controller) (w4 : world) (ns : nat) (ps : osproc) :
  truthy (iperf_client_addr s4) = false →
  get_proc IperfServer s4 = Some (mkPopen ns None) →
  procs w4 !! ns = Some ps → (p_start ps ≤ now w4)%nat →
  ∃ rcs ps',
    teardown (s4, w4) =
    Returns tt
      (set_proc IperfServer (Some (mkPopen ns rcs)) s4,
       printed ("Done sensing with iperf" ++ nl) (after_kill ns ps' w4)) ∧
    kill_result (now w4) ps ps'.
Proof.
  intros Hc Hget Hp Hstart.
  destruct (kill_spec IperfServer ns s4 w4 ps Hget Hp Hstart) as (rcs & ps' & Hkill & Hres).
  exists rcs, ps'. split; [| done].
  unfold teardown. unfold bind at 1. unfold self at 1. cbv beta iota. unfold fst at 1.
  rewrite Hc. unfold bind at 1. unfold ret at 1. cbv beta iota.
  unfold bind at 1. by rewrite Hkill.
Qed.

Lemma teardown_client (s4 : controller) (w4 : world) (nc ns : nat) (pc ps : osproc) :
  truthy (iperf_client_addr s4) = true →
  get_proc IperfClient s4 = Some (mkPopen nc None) →
  get_proc IperfServer s4 = Some (mkPopen ns None) →
  nc ≠ ns →
  procs w4 !! nc = Some pc → procs w4 !! ns = Some ps →
  (p_start pc ≤ now w4)%nat → (p_start ps ≤ now w4)%nat →
  ∃ rcc rcs pc' ps',
    teardown (s4, w4) =
    Returns tt
      (set_proc IperfServer (Some (mkPopen ns rcs))
         (set_proc IperfClient (Some (mkPopen nc rcc)) s4),
       printed ("Done sensing with iperf" ++ nl)
         (after_kill ns ps' (after_kill nc pc' w4))) ∧
    kill_result (now w4) pc pc' ∧ kill_result (now w4 + 1) ps ps'.
Proof.
  intros Hc Hgc Hgs Hne Hpc Hps Hsc Hss.
  destruct (kill_spec IperfClient nc s4 w4 pc Hgc Hpc Hsc) as (rcc & pc' & Hkc & Hrc).
  destruct (kill_spec IperfServer ns (set_proc IperfClient (Some (mkPopen nc rcc)) s4)
              (after_kill nc pc' w4) ps) as (rcs & ps' & Hks & Hrs).
  { by rewrite get_set_proc_ne. }
  { simpl. by rewrite list_lookup_insert_ne. }
  { simpl. lia. }
  exists rcc, rcs, pc', ps'. split; [| done].
  unfold teardown. unfold bind at 1. unfold self at 1. cbv beta iota. unfold fst at 1.
  rewrite Hc. unfold bind at 1. rewrite Hkc. cbv beta iota.
  unfold bind at 1. by rewrite Hks.
Qed.

Lemma waited_lookup (ns : list nat) (w w' : world) (i : nat) :
  waited ns w w' → procs w' !! i = procs w !! i.
Proof. intros (-> & _). done. Qed.

Lemma waited_now (ns : list nat) (w w' : world) :
  waited ns w w' → (now w ≤ now w')%nat.
Proof. by intros (_ & _ & H & _). Qed.

Lemma start_usrp_iperf_alone_outcome (fuel : nat) (s : controller) (w : world) :
  truthy (iperf_client_addr s) = false →
  let n := length (procs w) in
  let w1 := printed ("Running USRP with interference injected..." ++ nl) w in
  let ss := set_usrp_control_args (capture_args s)
              (set_proc IperfServer (Some (mkPopen n None)) s) in
  match start_usrp_iperf env fuel (s, w) with
  | Returns _ (s', w') =>
      ∃ ls cs lu cu c wl rcs ps',
        launch env n (iperf_server_args s) = Ok (ls, cs) ∧
        launch env (S n) (capture_args s) = Ok (lu, cu) ∧
        waited [S n]
          (spawned Usrp (capture_args s) lu cu
             (spawned IperfServer (iperf_server_args s) ls cs w1)) wl ∧
        recorded wl (S n) (Some c) ∧
        kill_result (now wl) (mkProc IperfServer (iperf_server_args s) (now w) ls cs None) ps' ∧
        s' = set_proc IperfServer (Some (mkPopen n rcs))
               (set_proc Usrp (Some (mkPopen (S n) (Some c))) ss) ∧
        w' = printed ("Done sensing with iperf" ++ nl) (after_kill n ps' wl)
  | Raises e (s', w') =>
      ((launch env n (iperf_server_args s) = Err e ∧ s' = s ∧ w' = w1) ∨
       (∃ ls cs,
          launch env n (iperf_server_args s) = Ok (ls, cs) ∧
          launch env (S n) (capture_args s) = Err e ∧
          s' = ss ∧ w' = spawned IperfServer (iperf_server_args s) ls cs w1))
  | Spins (s', w') =>
      ∃ ls cs lu cu rc,
        launch env n (iperf_server_args s) = Ok (ls, cs) ∧
        launch env (S n) (capture_args s) = Ok (lu, cu) ∧
        s' = set_proc Usrp (Some (mkPopen (S n) rc)) ss ∧
        waited [S n]
          (spawned Usrp (capture_args s) lu cu
             (spawned IperfServer (iperf_server_args s) ls cs w1)) w'
  end.
Proof.
  intros Hc n w1 ss. rewrite (start_usrp_iperf_alone_eq fuel s w Hc).
  fold n. fold w1.
  destruct (launch env n (iperf_server_args s)) as [[ls cs]|e] eqn:Henvs;
    [| by left].
  cbv zeta. fold ss.
  destruct (launch env (S n) (capture_args s)) as [[lu cu]|e] eqn:Henvu.
  2: { right. by exists ls, cs. }
  set (ws := spawned IperfServer (iperf_server_args s) ls cs w1).
  set (wu := spawned Usrp (capture_args s) lu cu ws).
  pose proof (wait_one_loop iperf_loop Usrp (S n) ss (watches_read Usrp (S n) ss)
                fuel wu) as Hloop.
  destruct (while_true iperf_loop fuel _) as [[] st' | e st' | st']; simpl; try done.
  - destruct Hloop as (c & wl & -> & Hw & Hrec).
    destruct (teardown_alone (set_proc Usrp (Some (mkPopen (S n) (Some c))) ss) wl n
                (mkProc IperfServer (iperf_server_args s) (now w) ls cs None))
      as (rcs & ps' & -> & Hres).
    + exact Hc.
    + reflexivity.
    + rewrite (waited_lookup _ _ _ n Hw). subst wu ws. simpl.
      rewrite lookup_app_l by (rewrite length_app; simpl; lia).
      rewrite lookup_app_r by (fold n; lia). fold n. by rewrite Nat.sub_diag.
    + apply waited_now in Hw. simpl in Hw |- *. lia.
    + by exists ls, cs, lu, cu, c, wl, rcs, ps'.
  - destruct Hloop as (rc & wl & -> & Hw). by exists ls, cs, lu, cu, rc.
Qed.

Lemma start_usrp_iperf_client_outcome (fuel : nat) (s : controller) (w : world) :
  truthy (iperf_client_addr s) = true →
  let n := length (procs w) in
  let w1 := printed ("Running USRP with interference injected..." ++ nl) w in
  let sc := set_proc IperfClient (Some (mkPopen n None)) s in
  let ss := set_usrp_control_args (capture_args s)
              (set_proc IperfServer (Some (mkPopen (S n) None)) sc) in
  match start_usrp_iperf env fuel (s, w) with
  | Returns _ (s', w') =>
      ∃ lc cc ls cs lu cu c wl rcc rcs pc' ps',
        launch env n (iperf_client_args s) = Ok (lc, cc) ∧
        launch env (S n) (iperf_server_args s) = Ok (ls, cs) ∧
        launch env (S (S n)) (capture_args s) = Ok (lu, cu) ∧
        waited [S (S n)]
          (spawned Usrp (capture_args s) lu cu
             (spawned IperfServer (iperf_server_args s) ls cs
                (spawned IperfClient (iperf_client_args s) lc cc w1))) wl ∧
        recorded wl (S (S n)) (Some c) ∧
        kill_result (now wl)
          (mkProc IperfClient (iperf_client_args s) (now w) lc cc None) pc' ∧
        kill_result (now wl + 1)
          (mkProc IperfServer (iperf_server_args s) (now w + 1) ls cs None) ps' ∧
        s' = set_proc IperfServer (Some (mkPopen (S n) rcs))
               (set_proc IperfClient (Some (mkPopen n rcc))
                  (set_proc Usrp (Some (mkPopen (S (S n)) (Some c))) ss)) ∧
        w' = printed ("Done sensing with iperf" ++ nl)
               (after_kill (S n) ps' (after_kill n pc' wl))
  | Raises e (s', w') =>
      ((launch env n (iperf_client_args s) = Err e ∧ s' = s ∧ w' = w1) ∨
       (∃ lc cc,
          launch env n (iperf_client_args s) = Ok (lc, cc) ∧
          launch env (S n) (iperf_server_args s) = Err e ∧
          s' = sc ∧ w' = spawned IperfClient (iperf_client_args s) lc cc w1) ∨
       (∃ lc cc ls cs,
          launch env n (iperf_client_args s) = Ok (lc, cc) ∧
          launch env (S n) (iperf_server_args s) = Ok (ls, cs) ∧
          launch env (S (S n)) (capture_args s) = Err e ∧
          s' = ss ∧
          w' = spawned IperfServer (iperf_server_args s) ls cs
                 (spawned IperfClient (iperf_client_args s) lc cc w1)))
  | Spins (s', w') =>
      ∃ lc cc ls cs lu cu rc,
        launch env n (iperf_client_args s) = Ok (lc, cc) ∧
        launch env (S n) (iperf_server_args s) = Ok (ls, cs) ∧
        launch env (S (S n)) (capture_args s) = Ok (lu, cu) ∧
        s' = set_proc Usrp (Some (mkPopen (S (S n)) rc)) ss ∧
        waited [S (S n)]
          (spawned Usrp (capture_args s) lu cu
             (spawned IperfServer (iperf_server_args s) ls cs
                (spawned IperfClient (iperf_client_args s) lc cc w1))) w'
  end.
Proof.
  intros Hc n w1 sc ss. rewrite (start_usrp_iperf_client_eq fuel s w Hc).
  fold n. fold w1.
  destruct (launch env n (iperf_client_args s)) as [[lc cc]|e] eqn:Henvc;
    [| by left].
  cbv zeta. fold sc.
  destruct (launch env (S n) (iperf_server_args s)) as [[ls cs]|e] eqn:Henvs.
  2: { right. left. by exists lc, cc. }
  fold ss.
  destruct (launch env (S (S n)) (capture_args s)) as [[lu cu]|e] eqn:Henvu.
  2: { right. right. by exists lc, cc, ls, cs. }
  set (wc := spawned IperfClient (iperf_client_args s) lc cc w1).
  set (ws := spawned IperfServer (iperf_server_args s) ls cs wc).
  set (wu := spawned Usrp (capture_args s) lu cu ws).
  pose proof (wait_one_loop iperf_loop Usrp (S (S n)) ss
                (watches_read Usrp (S (S n)) ss) fuel wu) as Hloop.
  destruct (while_true iperf_loop fuel _) as [[] st' | e st' | st']; simpl; try done.
  - destruct Hloop as (c & wl & -> & Hw & Hrec).
    destruct (teardown_client (set_proc Usrp (Some (mkPopen (S (S n)) (Some c))) ss) wl
                n (S n)
                (mkProc IperfClient (iperf_client_args s) (now w) lc cc None)
                (mkProc IperfServer (iperf_server_args s) (now w + 1) ls cs None))
      as (rcc & rcs & pc' & ps' & -> & Hresc & Hress).
    + exact Hc.
    + reflexivity.
    + reflexivity.
    + lia.
    + rewrite (waited_lookup _ _ _ n Hw). subst wu ws wc. simpl.
      rewrite lookup_app_l by (rewrite !length_app; simpl; fold n; lia).
      rewrite lookup_app_l by (rewrite !length_app; simpl; fold n; lia).
      rewrite lookup_app_r by (fold n; lia). fold n. by rewrite Nat.sub_diag.
    + rewrite (waited_lookup _ _ _ (S n) Hw). subst wu ws wc. simpl.
      rewrite lookup_app_l by (rewrite !length_app; simpl; fold n; lia).
      rewrite lookup_app_r by (rewrite !length_app; simpl; fold n; lia).
      rewrite length_app. simpl. fold n.
      by replace (S n - (n + 1))%nat with 0%nat by lia.
    + apply waited_now in Hw. simpl in Hw |- *. lia.
    + apply waited_now in Hw. simpl in Hw |- *. lia.
    + by exists lc, cc, ls, cs, lu, cu, c, wl, rcc, rcs, pc', ps'.
  - destruct Hloop as (rc & wl & -> & Hw). by exists lc, cc, ls, cs, lu, cu, rc.
Qed.

End Proofs.

Local Open Scope list_scope.

(** ** What a start operation leaves behind *)

Section Effects.
Variable env : nat → list string → option (option nat * Z).

Lemma same_settings_refl (s : controller) : same_settings s s.
Proof. by repeat split. Qed.

Lemma recorded_over (ns : list nat) (w wl : world) (n : nat) (c : Z) (p : osproc) :
  waited ns w wl → recorded wl n (Some c) → procs w !! n = Some p →
  over_at (now wl) p.
Proof.
  intros Hw Hrec Hp. destruct (Hrec c eq_refl) as (p' & Hp' & Hover).
  rewrite (waited_lookup _ _ _ n Hw), Hp in Hp'. by injection Hp' as <-.
Qed.

Lemma lookup_new (l : list osproc) (p : osproc) (k : list osproc) :
  (l ++ p :: k) !! length l = Some p.
Proof. by rewrite lookup_app_r, Nat.sub_diag by lia. Qed.

Lemma lookup_new_next (l : list osproc) (p q : osproc) (k : list osproc) :
  (l ++ p :: q :: k) !! S (length l) = Some q.
Proof.
  rewrite lookup_app_r by lia. by replace (S (length l) - length l)%nat with 1%nat by lia.
Qed.

Lemma unit_outcome (out : outcome unit) (st : state) (u : unit) :
  out = Returns u st → out = Returns tt st.
Proof. by destruct u. Qed.

Lemma same_settings_set_proc (k : kind) (h : option popen) (s s1 : controller) :
  same_settings s s1 → same_settings s (set_proc k h s1).
Proof. intros H. exact H. Qed.

Lemma usrp_args_set_proc (k : kind) (h : option popen) (s : controller) :
  usrp_control_args (set_proc k h s) = usrp_control_args s.
Proof. done. Qed.

Lemma single_effect (k : kind) (args : list string) (line : string)
    (s s1 : controller) (w w1 : world) (out : outcome unit) :
  procs w1 = procs w → now w1 = now w → args = args_for s k →
  same_settings s s1 → (k = Usrp → usrp_control_args s1 = capture_args s) →
  (let n := length (procs w1) in
   match out with
   | Returns _ (s', w') =>
       ∃ life code c wl,
         launch env n args = Ok (life, code) ∧
         s' = set_proc k (Some (mkPopen n (Some c))) s1 ∧
         waited [n] (spawned k args life code w1) wl ∧
         recorded wl n (Some c) ∧
         w' = printed line wl
   | Raises e (s', w') => launch env n args = Err e ∧ s' = s1 ∧ w' = w1
   | Spins (s', w') =>
       ∃ life code rc,
         launch env n args = Ok (life, code) ∧
         s' = set_proc k (Some (mkPopen n rc)) s1 ∧
         waited [n] (spawned k args life code w1) w'
   end) →
  op_effect s w [k] out.
Proof.
  intros Hprocs Hnow Hargs Hset Hctl Hout. cbv zeta in Hout.
  destruct out as [u [s' w'] | e [s' w'] | [s' w']].
  - destruct u. destruct Hout as (life & code & c & wl & Henv & -> & Hw & Hrec & ->).
    exists [mkProc k args (now w1) life code None].
    assert (over_at (now wl) (mkProc k args (now w1) life code None)) as Hover.
    { apply (recorded_over _ _ _ _ _ _ Hw Hrec). simpl. apply lookup_new. }
    split; [| split; [done | split; [exact Hset |]]].
    + split; [| split]; simpl.
      * destruct Hw as (-> & _). simpl. by rewrite Hprocs.
      * apply waited_now in Hw. simpl in Hw. lia.
      * apply Forall_singleton. simpl. split; [done | lia].
    + intros st [= <-]. simpl. split; [done |]. split.
      * by apply Forall_singleton.
      * intros Hin. apply list_elem_of_singleton in Hin. by apply Hctl.
  - destruct Hout as (Henv & -> & ->). exists [].
    split; [| split; [apply prefix_nil | split; [exact Hset | by intros st [=]]]].
    split; [| split]; simpl.
    + by rewrite Hprocs, app_nil_r.
    + lia.
    + done.
  - destruct Hout as (life & code & rc & Henv & -> & Hw).
    exists [mkProc k args (now w1) life code None].
    split; [| split; [done | split; [exact Hset | by intros st [=]]]].
    split; [| split]; simpl.
    + destruct Hw as (-> & _). simpl. by rewrite Hprocs.
    + apply waited_now in Hw. simpl in Hw. lia.
    + apply Forall_singleton. simpl. split; [done | lia].
Qed.

Lemma start_usrp_effect (fuel : nat) (s : controller) (w : world) :
  op_effect s w [Usrp] (start_usrp env fuel (s, w)).
Proof.
  rewrite start_usrp_eq. cbv zeta.
  eapply (single_effect Usrp (capture_args s) _ s
            (set_usrp_control_args (capture_args s) s) w
            (printed ("Running USRP..." ++ nl)%string w));
    [done | done | done | by repeat split | done |].
  exact (single_outcome env Usrp _ _ fuel (capture_args s)
           (set_usrp_control_args (capture_args s) s)
           (printed ("Running USRP..." ++ nl)%string w)
           (watches_poll Usrp _ _)).
Qed.

Lemma start_controller_effect {T : Type} (args : T) (fuel : nat)
    (s : controller) (w : world) :
  op_effect s w [Controller] (start_controller env args fuel (s, w)).
Proof.
  rewrite start_controller_eq. cbv zeta.
  eapply (single_effect Controller (sg_controller_args s) _ s s w
            (printed ("Running interference..." ++ nl)%string w));
    [done | done | done | by repeat split | done |].
  exact (single_outcome env Controller _ _ fuel (sg_controller_args s) s
           (printed ("Running interference..." ++ nl)%string w)
           (watches_poll Controller _ _)).
Qed.

Lemma joint_effect (k1 k2 : kind) (args1 args2 : list string) (line : string)
    (s s1 : controller) (w w1 : world) (out : outcome unit) :
  procs w1 = procs w → now w1 = now w →
  args1 = args_for s k1 → args2 = args_for s k2 →
  same_settings s s1 → (Usrp ∈ [k1; k2] → usrp_control_args s1 = capture_args s) →
  (let n := length (procs w1) in
   match out with
   | Returns _ (s', w') =>
       ∃ life1 code1 life2 code2 c1 c2 wl,
         launch env n args1 = Ok (life1, code1) ∧
         launch env (S n) args2 = Ok (life2, code2) ∧
         s' = set_proc k1 (Some (mkPopen n (Some c1)))
                (set_proc k2 (Some (mkPopen (S n) (Some c2))) s1) ∧
         waited [n; S n]
           (spawned k2 args2 life2 code2 (spawned k1 args1 life1 code1 w1)) wl ∧
         recorded wl n (Some c1) ∧ recorded wl (S n) (Some c2) ∧
         w' = printed line wl
   | Raises e (s', w') =>
       ((launch env n args1 = Err e ∧ s' = s1 ∧ w' = w1) ∨
        (∃ life1 code1,
           launch env n args1 = Ok (life1, code1) ∧ launch env (S n) args2 = Err e ∧
           s' = set_proc k1 (Some (mkPopen n None)) s1 ∧
           w' = spawned k1 args1 life1 code1 w1))
   | Spins (s', w') =>
       ∃ life1 code1 life2 code2 rc1 rc2,
         launch env n args1 = Ok (life1, code1) ∧
         launch env (S n) args2 = Ok (life2, code2) ∧
         s' = set_proc k1 (Some (mkPopen n rc1))
                (set_proc k2 (Some (mkPopen (S n) rc2)) s1) ∧
         waited [n; S n]
           (spawned k2 args2 life2 code2 (spawned k1 args1 life1 code1 w1)) w'
   end) →
  op_effect s w [k1; k2] out.
Proof.
  intros Hprocs Hnow Hargs1 Hargs2 Hset Hctl Hout. cbv zeta in Hout.
  destruct out as [u [s' w'] | e [s' w'] | [s' w']].
  - destruct u.
    destruct Hout as (l1 & c1 & l2 & c2 & r1 & r2 & wl & _ & _ & -> & Hw & Hrec1 & Hrec2 & ->).
    exists [mkProc k1 args1 (now w1) l1 c1 None; mkProc k2 args2 (now w1 + 1) l2 c2 None].
    assert (procs (spawned k2 args2 l2 c2 (spawned k1 args1 l1 c1 w1)) =
            procs w ++ [mkProc k1 args1 (now w1) l1 c1 None;
                        mkProc k2 args2 (now w1 + 1) l2 c2 None]) as Hps.
    { simpl. by rewrite <- app_assoc, Hprocs. }
    split; [| split; [done | split; [exact Hset |]]].
    + split; [| split]; simpl.
      * destruct Hw as (-> & _). exact Hps.
      * apply waited_now in Hw. simpl in Hw. lia.
      * apply Forall_cons. split; [simpl; split; [done | lia] |].
        apply Forall_singleton. simpl. split; [done | lia].
    + intros st [= <-]. simpl. split; [done |]. split; [| exact Hctl].
      apply Forall_cons. split.
      * apply (recorded_over _ _ _ _ _ _ Hw Hrec1). rewrite Hps, <- Hprocs.
        apply lookup_new.
      * apply Forall_singleton.
        apply (recorded_over _ _ _ _ _ _ Hw Hrec2). rewrite Hps, <- Hprocs.
        apply lookup_new_next.
  - destruct Hout as [(_ & -> & ->) | (l1 & c1 & _ & _ & -> & ->)].
    + exists [].
      split; [| split; [apply prefix_nil | split; [exact Hset | by intros st [=]]]].
      split; [| split]; simpl; [by rewrite Hprocs, app_nil_r | lia | done].
    + exists [mkProc k1 args1 (now w1) l1 c1 None].
      split; [| split; [| split; [exact Hset | by intros st [=]]]].
      * split; [| split]; simpl; [by rewrite Hprocs | lia |].
        apply Forall_singleton. simpl. split; [done | lia].
      * simpl. by exists [k2].
  - destruct Hout as (l1 & c1 & l2 & c2 & r1 & r2 & _ & _ & -> & Hw).
    exists [mkProc k1 args1 (now w1) l1 c1 None; mkProc k2 args2 (now w1 + 1) l2 c2 None].
    split; [| split; [done | split; [exact Hset | by intros st [=]]]].
    split; [| split]; simpl.
    + destruct Hw as (-> & _). simpl. by rewrite <- app_assoc, Hprocs.
    + apply waited_now in Hw. simpl in Hw. lia.
    + apply Forall_cons. split; [simpl; split; [done | lia] |].
      apply Forall_singleton. simpl. split; [done | lia].
Qed.

Lemma start_usrp_controller_effect (fuel : nat) (s : controller) (w : world) :
  op_effect s w [Usrp; Controller] (start_usrp_controller env fuel (s, w)).
Proof.
  rewrite start_usrp_controller_eq. cbv zeta.
  eapply (joint_effect Usrp Controller (capture_args s) (sg_controller_args s) _ s
            (set_usrp_control_args (capture_args s) s) w
            (printed ("Running USRP with interference injected..." ++ nl)%string w));
    [done | done | done | done | by repeat split | done |].
  exact (joint_outcome env Usrp Controller _ _ fuel (capture_args s)
           (sg_controller_args s)
           (set_usrp_control_args (capture_args s) s)
           (printed ("Running USRP with interference injected..." ++ nl)%string w)
           (watches_both Usrp Controller _ _ _ ltac:(done))).
Qed.

Lemma start_iperf_effect (fuel : nat) (s : controller) (w : world) :
  op_effect s w [IperfClient; IperfServer] (start_iperf env fuel (s, w)).
Proof.
  rewrite start_iperf_eq. cbv zeta.
  eapply (joint_effect IperfClient IperfServer (iperf_client_args s)
            (iperf_server_args s) _ s s w
            (printed ("Running iperf..." ++ nl)%string w));
    [done | done | done | done | by repeat split | |].
  { intros Hin. apply elem_of_cons in Hin as [|Hin]; [done |].
    by apply list_elem_of_singleton in Hin. }
  exact (joint_outcome env IperfClient IperfServer _ _ fuel (iperf_client_args s)
           (iperf_server_args s) s
           (printed ("Running iperf..." ++ nl)%string w)
           (watches_both IperfClient IperfServer _ _ _ ltac:(done))).
Qed.

Lemma kill_result_same (t : nat) (p p' : osproc) :
  kill_result t p p' →
  p_kind p' = p_kind p ∧ p_args p' = p_args p ∧ p_start p' = p_start p ∧
  over_at (t + 1) p'.
Proof. intros [[-> | ->] Hover]; by repeat split. Qed.

Lemma start_usrp_iperf_alone_effect (fuel : nat) (s : controller) (w : world) :
  truthy (iperf_client_addr s) = false →
  op_effect s w [IperfServer; Usrp] (start_usrp_iperf env fuel (s, w)).
Proof.
  intros Hc. pose proof (start_usrp_iperf_alone_outcome env fuel s w Hc) as Hout.
  cbv zeta in Hout.
  destruct (start_usrp_iperf env fuel (s, w)) as [u [s' w'] | e [s' w'] | [s' w']].
  - destruct u.
    destruct Hout as (ls & cs & lu & cu & c & wl & rcs & ps' & _ & _ & Hw & Hrec & Hkill & -> & ->).
    apply kill_result_same in Hkill as (Hk & Ha & Hs & Hover). simpl in Hk, Ha, Hs.
    exists [ps'; mkProc Usrp (capture_args s) (now w + 1) lu cu None].
    assert (procs wl =
            procs w ++ [mkProc IperfServer (iperf_server_args s) (now w) ls cs None;
                        mkProc Usrp (capture_args s) (now w + 1) lu cu None]) as Hps.
    { destruct Hw as (-> & _). simpl. by rewrite <- app_assoc. }
    pose proof (waited_now _ _ _ Hw) as Hnow. simpl in Hnow.
    split; [| split; [| split; [by repeat split |]]].
    + split; [| split]; simpl.
      * rewrite Hps. rewrite <- (Nat.add_0_r (length (procs w))).
        by rewrite insert_app_r.
      * lia.
      * apply Forall_cons. split; [by rewrite Hk, Ha, Hs |].
        apply Forall_singleton. simpl. split; [done | lia].
    + simpl. by rewrite Hk.
    + intros st [= <-]. simpl. rewrite Hk. split; [done |]. split; [| done].
      apply Forall_cons. split; [done |]. apply Forall_singleton.
      apply (over_at_mono _ (now wl)); [| lia].
      apply (recorded_over _ _ _ _ _ _ Hw Hrec). simpl. rewrite <- app_assoc.
      apply lookup_new_next.
  - destruct Hout as [(_ & -> & ->) | (ls & cs & _ & _ & -> & ->)].
    + exists [].
      split; [| split; [apply prefix_nil | split; [by repeat split | by intros st [=]]]].
      split; [| split]; simpl; [by rewrite app_nil_r | lia | done].
    + exists [mkProc IperfServer (iperf_server_args s) (now w) ls cs None].
      split; [| split; [| split; [by repeat split | by intros st [=]]]].
      * split; [| split]; simpl; [done | lia |].
        apply Forall_singleton. simpl. split; [done | lia].
      * simpl. by exists [Usrp].
  - destruct Hout as (ls & cs & lu & cu & rc & _ & _ & -> & Hw).
    exists [mkProc IperfServer (iperf_server_args s) (now w) ls cs None;
            mkProc Usrp (capture_args s) (now w + 1) lu cu None].
    split; [| split; [done | split; [by repeat split | by intros st [=]]]].
    split; [| split]; simpl.
    + destruct Hw as (-> & _). simpl. by rewrite <- app_assoc.
    + apply waited_now in Hw. simpl in Hw. lia.
    + apply Forall_cons. split; [simpl; split; [done | lia] |].
      apply Forall_singleton. simpl. split; [done | lia].
Qed.

Lemma start_usrp_iperf_client_effect (fuel : nat) (s : controller) (w : world) :
  truthy (iperf_client_addr s) = true →
  op_effect s w [IperfClient; IperfServer; Usrp] (start_usrp_iperf env fuel (s, w)).
Proof.
  intros Hc. pose proof (start_usrp_iperf_client_outcome env fuel s w Hc) as Hout.
  cbv zeta in Hout.
  destruct (start_usrp_iperf env fuel (s, w)) as [u [s' w'] | e [s' w'] | [s' w']].
  - destruct u.
    destruct Hout as (lc & cc & ls & cs & lu & cu & c & wl & rcc & rcs & pc' & ps'
                      & _ & _ & _ & Hw & Hrec & Hkc & Hks & -> & ->).
    apply kill_result_same in Hkc as (Hkc & Hac & Hsc & Hoc). simpl in Hkc, Hac, Hsc.
    apply kill_result_same in Hks as (Hks & Has & Hss & Hos). simpl in Hks, Has, Hss.
    exists [pc'; ps'; mkProc Usrp (capture_args s) (now w + 1 + 1) lu cu None].
    assert (procs wl =
            procs w ++ [mkProc IperfClient (iperf_client_args s) (now w) lc cc None;
                        mkProc IperfServer (iperf_server_args s) (now w + 1) ls cs None;
                        mkProc Usrp (capture_args s) (now w + 1 + 1) lu cu None]) as Hps.
    { destruct Hw as (-> & _). simpl. by rewrite <- !app_assoc. }
    pose proof (waited_now _ _ _ Hw) as Hnow. simpl in Hnow.
    split; [| split; [| split; [by repeat split |]]].
    + split; [| split]; simpl.
      * rewrite Hps. rewrite <- (Nat.add_0_r (length (procs w))) at 2.
        rewrite insert_app_r. simpl.
        replace (S (length (procs w))) with (length (procs w) + 1)%nat by lia.
        by rewrite insert_app_r.
      * lia.
      * apply Forall_cons. split; [by rewrite Hkc, Hac, Hsc |].
        apply Forall_cons. split; [rewrite Hks, Has, Hss; split; [done | lia] |].
        apply Forall_singleton. simpl. split; [done | lia].
    + simpl. by rewrite Hkc, Hks.
    + intros st [= <-]. simpl. rewrite Hkc, Hks. split; [done |]. split; [| done].
      apply Forall_cons. split; [apply (over_at_mono _ (now wl + 1)); [done | lia] |].
      apply Forall_cons. split; [done |]. apply Forall_singleton.
      apply (over_at_mono _ (now wl)); [| lia].
      apply (recorded_over _ _ _ _ _ _ Hw Hrec). simpl. rewrite <- !app_assoc. simpl.
      rewrite lookup_app_r by lia.
      by replace (S (S (length (procs w))) - length (procs w))%nat with 2%nat by lia.
  - destruct Hout as [(_ & -> & ->) | [(lc & cc & _ & _ & -> & ->)
                                           | (lc & cc & ls & cs & _ & _ & _ & -> & ->)]].
    + exists [].
      split; [| split; [apply prefix_nil | split; [by repeat split | by intros st [=]]]].
      split; [| split]; simpl; [by rewrite app_nil_r | lia | done].
    + exists [mkProc IperfClient (iperf_client_args s) (now w) lc cc None].
      split; [| split; [| split; [by repeat split | by intros st [=]]]].
      * split; [| split]; simpl; [done | lia |].
        apply Forall_singleton. simpl. split; [done | lia].
      * simpl. by exists [IperfServer; Usrp].
    + exists [mkProc IperfClient (iperf_client_args s) (now w) lc cc None;
              mkProc IperfServer (iperf_server_args s) (now w + 1) ls cs None].
      split; [| split; [| split; [by repeat split | by intros st [=]]]].
      * split; [| split]; simpl; [by rewrite <- app_assoc | lia |].
        apply Forall_cons. split; [simpl; split; [done | lia] |].
        apply Forall_singleton. simpl. split; [done | lia].
      * simpl. by exists [Usrp].
  - destruct Hout as (lc & cc & ls & cs & lu & cu & rc & _ & _ & _ & -> & Hw).
    exists [mkProc IperfClient (iperf_client_args s) (now w) lc cc None;
            mkProc IperfServer (iperf_server_args s) (now w + 1) ls cs None;
            mkProc Usrp (capture_args s) (now w + 1 + 1) lu cu None].
    split; [| split; [done | split; [by repeat split | by intros st [=]]]].
    split; [| split]; simpl.
    + destruct Hw as (-> & _). simpl. by rewrite <- !app_assoc.
    + apply waited_now in Hw. simpl in Hw. lia.
    + apply Forall_cons. split; [simpl; split; [done | lia] |].
      apply Forall_cons. split; [simpl; split; [done | lia] |].
      apply Forall_singleton. simpl. split; [done | lia].
Qed.

(** Every start operation launches the jobs of its plan, in order, with
    the command lines of the controller it was called on. *)
Lemma run_op_effect (o : op) (fuel : nat) (s : controller) (w : world) :
  op_effect s w (plan s o) (run_op env o fuel (s, w)).
Proof.
  destruct o; simpl.
  - apply start_usrp_effect.
  - apply start_controller_effect.
  - apply start_usrp_controller_effect.
  - destruct (truthy (iperf_client_addr s)) eqn:Hc.
    + by apply start_usrp_iperf_client_effect.
    + by apply start_usrp_iperf_alone_effect.
  - apply start_iperf_effect.
Qed.

End Effects.

(** ** The barriers of the start operations *)

Section Barriers.
Variable env : nat → list string → option (option nat * Z).

Lemma start_usrp_outcome (fuel : nat) (s : controller) (w : world) :
  let n := length (procs w) in
  let s1 := set_usrp_control_args (capture_args s) s in
  let w1 := printed ("Running USRP..." ++ nl)%string w in
  match start_usrp env fuel (s, w) with
  | Returns _ (s', w') =>
      ∃ life code c wl,
        launch env n (capture_args s) = Ok (life, code) ∧
        s' = set_proc Usrp (Some (mkPopen n (Some c))) s1 ∧
        waited [n] (spawned Usrp (capture_args s) life code w1) wl ∧
        recorded wl n (Some c) ∧
        w' = printed ("Done sensing medium" ++ nl)%string wl
  | Raises e (s', w') =>
      launch env n (capture_args s) = Err e ∧ s' = s1 ∧ w' = w1
  | Spins (s', w') =>
      ∃ life code rc,
        launch env n (capture_args s) = Ok (life, code) ∧
        s' = set_proc Usrp (Some (mkPopen n rc)) s1 ∧
        waited [n] (spawned Usrp (capture_args s) life code w1) w'
  end.
Proof.
  rewrite start_usrp_eq.
  exact (single_outcome env Usrp _ _ fuel (capture_args s)
           (set_usrp_control_args (capture_args s) s)
           (printed ("Running USRP..." ++ nl)%string w)
           (watches_poll Usrp _ _)).
Qed.

Lemma start_controller_outcome {T : Type} (args : T) (fuel : nat)
    (s : controller) (w : world) :
  let n := length (procs w) in
  let w1 := printed ("Running interference..." ++ nl)%string w in
  match start_controller env args fuel (s, w) with
  | Returns _ (s', w') =>
      ∃ life code c wl,
        launch env n (sg_controller_args s) = Ok (life, code) ∧
        s' = set_proc Controller (Some (mkPopen n (Some c))) s ∧
        waited [n] (spawned Controller (sg_controller_args s) life code w1) wl ∧
        recorded wl n (Some c) ∧
        w' = printed ("Done injecting interference" ++ nl)%string wl
  | Raises e (s', w') =>
      launch env n (sg_controller_args s) = Err e ∧ s' = s ∧ w' = w1
  | Spins (s', w') =>
      ∃ life code rc,
        launch env n (sg_controller_args s) = Ok (life, code) ∧
        s' = set_proc Controller (Some (mkPopen n rc)) s ∧
        waited [n] (spawned Controller (sg_controller_args s) life code w1) w'
  end.
Proof.
  rewrite start_controller_eq.
  exact (single_outcome env Controller _ _ fuel (sg_controller_args s) s
           (printed ("Running interference..." ++ nl)%string w)
           (watches_poll Controller _ _)).
Qed.

(** C9: [start_usrp] and [start_controller] return only after the
    process they started has ended and its return code is recorded in
    the handle. *)
Theorem start_single_returns_after_exit (o : op) (k : kind) (fuel : nat)
    (s s' : controller) (w w' : world) :
  single_job o = Some k →
  run_op env o fuel (s, w) = Returns tt (s', w') →
  ∃ c p,
    get_proc k s' = Some (mkPopen (length (procs w)) (Some c)) ∧
    procs w' !! length (procs w) = Some p ∧
    p_kind p = k ∧
    over_at (now w') p.
Proof.
  intros Hk Hrun. destruct o; simpl in Hk; try done; injection Hk as <-; simpl in Hrun.
  - pose proof (start_usrp_outcome fuel s w) as H. cbv zeta in H. rewrite Hrun in H.
    destruct H as (life & code & c & wl & _ & -> & Hw & Hrec & ->).
    exists c, (mkProc Usrp (capture_args s) (now w) life code None).
    assert (procs wl !! length (procs w) =
            Some (mkProc Usrp (capture_args s) (now w) life code None)) as Hp.
    { rewrite (waited_lookup _ _ _ _ Hw). simpl. apply lookup_new. }
    repeat split; [done |].
    destruct (Hrec c eq_refl) as (p & Hp' & Hover). rewrite Hp in Hp'.
    by injection Hp' as <-.
  - pose proof (start_controller_outcome tt fuel s w) as H. cbv zeta in H.
    rewrite Hrun in H.
    destruct H as (life & code & c & wl & _ & -> & Hw & Hrec & ->).
    exists c, (mkProc Controller (sg_controller_args s) (now w) life code None).
    assert (procs wl !! length (procs w) =
            Some (mkProc Controller (sg_controller_args s) (now w) life code None))
      as Hp.
    { rewrite (waited_lookup _ _ _ _ Hw). simpl. apply lookup_new. }
    repeat split; [done |].
    destruct (Hrec c eq_refl) as (p & Hp' & Hover). rewrite Hp in Hp'.
    by injection Hp' as <-.
Qed.

Ltac use_run H Hrun :=
  cbv zeta in H;
  match type of Hrun with
  | ?L = _ =>
      match type of H with
      | match ?X with _ => _ end => change X with L in H
      end
  end;
  rewrite Hrun in H.

(** C2: [start_usrp_controller] and [start_iperf] return only when both
    jobs they started have ended: on return both handles carry a return
    code and both processes are over. *)
Theorem start_joint_returns_after_both_exit (o : op) (k1 k2 : kind) (fuel : nat)
    (s s' : controller) (w w' : world) :
  joint_jobs o = Some (k1, k2) →
  run_op env o fuel (s, w) = Returns tt (s', w') →
  ∃ c1 c2 p1 p2,
    get_proc k1 s' = Some (mkPopen (length (procs w)) (Some c1)) ∧
    get_proc k2 s' = Some (mkPopen (S (length (procs w))) (Some c2)) ∧
    procs w' !! length (procs w) = Some p1 ∧
    procs w' !! S (length (procs w)) = Some p2 ∧
    p_kind p1 = k1 ∧ p_kind p2 = k2 ∧
    over_at (now w') p1 ∧ over_at (now w') p2.
Proof.
  intros Hk Hrun.
  destruct o; simpl in Hk; try done; injection Hk as <- <-; simpl in Hrun.
  - pose proof (joint_outcome env Usrp Controller _
                  ("Done sensing with added interference" ++ nl)%string
                  fuel (capture_args s)
                  (sg_controller_args s)
                  (set_usrp_control_args (capture_args s) s)
                  (printed ("Running USRP with interference injected..." ++ nl)%string w)
                  (watches_both Usrp Controller _ _ _ ltac:(done))) as H.
    rewrite start_usrp_controller_eq in Hrun. use_run H Hrun.
    destruct H as (l1 & c1 & l2 & c2 & r1 & r2 & wl & _ & _ & -> & Hw & Hrec1 & Hrec2 & ->).
    exists r1, r2, (mkProc Usrp (capture_args s) (now w) l1 c1 None),
      (mkProc Controller (sg_controller_args s) (now w + 1) l2 c2 None).
    assert (procs wl = procs w ++
              [mkProc Usrp (capture_args s) (now w) l1 c1 None;
               mkProc Controller (sg_controller_args s) (now w + 1) l2 c2 None]) as Hps.
    { destruct Hw as (-> & _). simpl. by rewrite <- app_assoc. }
    split; [done |]. split; [done |]. simpl. rewrite Hps.
    split; [apply lookup_new |]. split; [apply lookup_new_next |].
    split; [done |]. split; [done |]. split.
    + destruct (Hrec1 r1 eq_refl) as (p & Hp & Hover).
      rewrite Hps, lookup_new in Hp. by injection Hp as <-.
    + destruct (Hrec2 r2 eq_refl) as (p & Hp & Hover).
      rewrite Hps, lookup_new_next in Hp. by injection Hp as <-.
  - pose proof (joint_outcome env IperfClient IperfServer _
                  ("Done running iperf" ++ nl)%string
                  fuel (iperf_client_args s)
                  (iperf_server_args s) s
                  (printed ("Running iperf..." ++ nl)%string w)
                  (watches_both IperfClient IperfServer _ _ _ ltac:(done))) as H.
    rewrite start_iperf_eq in Hrun. use_run H Hrun.
    destruct H as (l1 & c1 & l2 & c2 & r1 & r2 & wl & _ & _ & -> & Hw & Hrec1 & Hrec2 & ->).
    exists r1, r2, (mkProc IperfClient (iperf_client_args s) (now w) l1 c1 None),
      (mkProc IperfServer (iperf_server_args s) (now w + 1) l2 c2 None).
    assert (procs wl = procs w ++
              [mkProc IperfClient (iperf_client_args s) (now w) l1 c1 None;
               mkProc IperfServer (iperf_server_args s) (now w + 1) l2 c2 None]) as Hps.
    { destruct Hw as (-> & _). simpl. by rewrite <- app_assoc. }
    split; [done |]. split; [done |]. simpl. rewrite Hps.
    split; [apply lookup_new |]. split; [apply lookup_new_next |].
    split; [done |]. split; [done |]. split.
    + destruct (Hrec1 r1 eq_refl) as (p & Hp & Hover).
      rewrite Hps, lookup_new in Hp. by injection Hp as <-.
    + destruct (Hrec2 r2 eq_refl) as (p & Hp & Hover).
      rewrite Hps, lookup_new_next in Hp. by injection Hp as <-.
Qed.

Lemma over_not_running (p : osproc) (t t' : nat) :
  over_at t p → (t ≤ t')%nat → state_at t' p ≠ Running.
Proof.
  intros Hover Hle Hrun. pose proof (over_at_mono p t t' Hover Hle) as H.
  unfold over_at in H. by rewrite Hrun in H.
Qed.

Lemma over_unkilled (p : osproc) (t : nat) :
  over_at t p → p_killed p = None → ∃ d, p_life p = Some d.
Proof.
  unfold over_at, state_at, natural_state. intros H Hk. rewrite Hk in H.
  destruct (t <? p_start p)%nat; [done |].
  destruct (p_life p) as [d|]; [by exists d | done].
Qed.

(** The new processes of an operation, read off its effect. *)
Lemma effect_new (s : controller) (w : world) (jobs : list kind) (out : outcome unit) :
  op_effect s w jobs out →
  ∀ pid p,
    (length (procs w) ≤ pid)%nat → procs (snd (final out)) !! pid = Some p →
    p_args p = args_for s (p_kind p) ∧ p_kind p ∈ jobs ∧ (now w ≤ p_start p)%nat ∧
    (∀ st, out = Returns tt st → over_at (now (snd st)) p).
Proof.
  intros (news & (Hprocs & Hnow & Hall) & Hpre & Hset & Hret) pid p Hpid Hp.
  rewrite Hprocs, lookup_app_r in Hp by done.
  pose proof (Forall_lookup_1 _ _ _ _ Hall Hp) as [Hargs Hstart].
  split; [done |]. split; [| split; [done |]].
  - destruct Hpre as [rest ->]. apply elem_of_app. left.
    apply list_elem_of_lookup. exists (pid - length (procs w))%nat.
    by rewrite list_lookup_fmap, Hp.
  - intros st Hst. destruct (Hret st Hst) as (_ & Hover & _).
    by apply (Forall_lookup_1 _ _ _ _ Hover Hp).
Qed.

Lemma effect_old (s : controller) (w : world) (jobs : list kind) (out : outcome unit) :
  op_effect s w jobs out →
  ∀ pid, (pid < length (procs w))%nat →
    procs (snd (final out)) !! pid = procs w !! pid.
Proof.
  intros (news & (Hprocs & _) & _) pid Hpid. by rewrite Hprocs, lookup_app_l.
Qed.

Lemma polls_of_one (n : nat) (evs : list event) :
  Forall (λ e, ∃ m, m ∈ [n] ∧ e = EvPoll m) evs → Forall (λ e, e = EvPoll n) evs.
Proof.
  intros H. eapply Forall_impl; [exact H |]. intros e (m & Hm & ->).
  apply list_elem_of_singleton in Hm. by subst m.
Qed.

(** The events and the capture handle of a complete run. *)
Lemma start_usrp_iperf_trace (fuel : nat) (s s' : controller) (w w' : world) :
  start_usrp_iperf env fuel (s, w) = Returns tt (s', w') →
  ∃ c polls,
    usrp_proc s' = Some (mkPopen (capture_pid s w) (Some c)) ∧
    Forall (λ e, e = EvPoll (capture_pid s w)) polls ∧
    trace w' = trace w ++ usrp_iperf_events s w polls.
Proof.
  intros Hrun. unfold usrp_iperf_events, capture_pid, server_pid.
  destruct (truthy (iperf_client_addr s)) eqn:Hc.
  - pose proof (start_usrp_iperf_client_outcome env fuel s w Hc) as H.
    cbv zeta in H. rewrite Hrun in H.
    destruct H as (lc & cc & ls & cs & lu & cu & c & wl & rcc & rcs & pc' & ps'
                   & _ & _ & _ & Hw & _ & _ & _ & -> & ->).
    destruct Hw as (_ & _ & _ & evs & Hevs & Hall).
    exists c, evs. split; [done |]. split; [by apply polls_of_one |].
    simpl. rewrite Hevs. simpl. rewrite !length_app. simpl.
    rewrite <- !app_assoc. simpl.
    by rewrite !Nat.add_1_r.
  - pose proof (start_usrp_iperf_alone_outcome env fuel s w Hc) as H.
    cbv zeta in H. rewrite Hrun in H.
    destruct H as (ls & cs & lu & cu & c & wl & rcs & ps' & _ & _ & Hw & _ & _ & -> & ->).
    destruct Hw as (_ & _ & _ & evs & Hevs & Hall).
    exists c, evs. split; [done |]. split; [by apply polls_of_one |].
    simpl. rewrite Hevs. simpl. rewrite !length_app. simpl.
    rewrite <- !app_assoc. simpl.
    by rewrite !Nat.add_1_r.
Qed.

Lemma start_usrp_iperf_effect (fuel : nat) (s : controller) (w : world) :
  op_effect s w (plan s StartUsrpIperf) (start_usrp_iperf env fuel (s, w)).
Proof. apply (run_op_effect env StartUsrpIperf). Qed.

Lemma capture_pid_bounds (s : controller) (w : world) :
  (length (procs w) ≤ capture_pid s w)%nat.
Proof. unfold capture_pid, server_pid. destruct (truthy _); lia. Qed.

(** The capture process of a complete run sits at [capture_pid]. *)
Lemma start_usrp_iperf_capture (fuel : nat) (s s' : controller) (w w' : world) :
  start_usrp_iperf env fuel (s, w) = Returns tt (s', w') →
  ∃ lu cu,
    launch env (capture_pid s w) (capture_args s) = Ok (lu, cu) ∧
    ∃ t, procs w' !! capture_pid s w =
         Some (mkProc Usrp (capture_args s) t lu cu None).
Proof.
  intros Hrun. unfold capture_pid, server_pid.
  destruct (truthy (iperf_client_addr s)) eqn:Hc.
  - pose proof (start_usrp_iperf_client_outcome env fuel s w Hc) as H.
    cbv zeta in H. rewrite Hrun in H.
    destruct H as (lc & cc & ls & cs & lu & cu & c & wl & rcc & rcs & pc' & ps'
                   & _ & _ & Henv & Hw & _ & _ & _ & -> & ->).
    exists lu, cu. split; [done |]. exists (now w + 1 + 1)%nat.
    destruct Hw as (Hps & _). simpl in Hps |- *. rewrite Hps.
    rewrite !list_lookup_insert_ne by lia.
    rewrite lookup_app_r by (rewrite !length_app; simpl; lia).
    rewrite !length_app. simpl.
    by replace (S (S (length (procs w))) - (length (procs w) + 1 + 1))%nat
      with 0%nat by lia.
  - pose proof (start_usrp_iperf_alone_outcome env fuel s w Hc) as H.
    cbv zeta in H. rewrite Hrun in H.
    destruct H as (ls & cs & lu & cu & c & wl & rcs & ps' & _ & Henv & Hw & _ & _ & -> & ->).
    exists lu, cu. split; [done |]. exists (now w + 1)%nat.
    destruct Hw as (Hps & _). simpl in Hps |- *. rewrite Hps.
    rewrite !list_lookup_insert_ne by lia.
    rewrite lookup_app_r by (rewrite !length_app; simpl; lia).
    rewrite !length_app. simpl.
    by replace (S (length (procs w)) - (length (procs w) + 1))%nat with 0%nat by lia.
Qed.

Lemma start_usrp_iperf_post (fuel : nat) (s s' : controller) (w w' : world) :
  start_usrp_iperf env fuel (s, w) = Returns tt (s', w') → barrier_post s w s' w'.
Proof.
  intros Hrun.
  pose proof (start_usrp_iperf_effect fuel s w) as Heff. rewrite Hrun in Heff.
  destruct (start_usrp_iperf_trace fuel s s' w w' Hrun) as (c & polls & Hh & Hpolls & Htr).
  destruct (start_usrp_iperf_capture fuel s s' w w' Hrun) as (lu & cu & _ & t & Hp).
  split; [| split].
  - exists c, (mkProc Usrp (capture_args s) t lu cu None).
    split; [done |]. split; [done |]. split; [done |].
    destruct (effect_new s w _ _ Heff _ _ (capture_pid_bounds s w) Hp) as (_ & _ & _ & Hover).
    by apply (Hover (s', w')).
  - intros pid p Hpid Hlook Hk.
    destruct (effect_new s w _ _ Heff pid p Hpid Hlook) as (_ & Hin & _ & Hover).
    split.
    + simpl in Hin. destruct (truthy (iperf_client_addr s)), (p_kind p); try done;
        auto; exfalso; revert Hin; rewrite ?elem_of_cons, elem_of_nil;
      intuition discriminate.
    + intros t' Ht'. apply (over_not_running p (now w')); [| done].
      by apply (Hover (s', w')).
  - exists (usrp_iperf_events s w polls). split; [done |].
    intros pid Hin. unfold usrp_iperf_events in Hin.
    assert (EvPoll pid ∈ polls) as Hpoll.
    { revert Hin. rewrite !elem_of_app.
      destruct (truthy (iperf_client_addr s));
        rewrite ?elem_of_cons, ?elem_of_nil; intuition discriminate. }
    apply (proj1 (Forall_forall _ _) Hpolls) in Hpoll. by injection Hpoll.
Qed.

(** With enough fuel the loop is left as soon as the capture job is over,
    whatever the iperf processes do. *)
Lemma start_usrp_iperf_alone_returns (fuel : nat) (s : controller) (w : world)
    (ls : option nat) (cs cu : Z) (d : nat) :
  truthy (iperf_client_addr s) = false →
  launch env (length (procs w)) (iperf_server_args s) = Ok (ls, cs) →
  launch env (S (length (procs w))) (capture_args s) = Ok (Some d, cu) →
  (d < fuel)%nat →
  ∃ st', start_usrp_iperf env fuel (s, w) = Returns tt st'.
Proof.
  intros Hc Henvs Henvu Hfuel.
  rewrite (start_usrp_iperf_alone_eq env fuel s w Hc). cbv zeta.
  rewrite Henvs, Henvu.
  set (w1 := printed ("Running USRP with interference injected..." ++ nl)%string w).
  set (ss := set_usrp_control_args (capture_args s)
               (set_proc IperfServer (Some (mkPopen (length (procs w)) None)) s)).
  set (ws := spawned IperfServer (iperf_server_args s) ls cs w1).
  set (wu := spawned Usrp (capture_args s) (Some d) cu ws).
  set (n := length (procs w)).
  destruct (wait_one_terminates iperf_loop Usrp (S n) ss (watches_read Usrp (S n) ss)
              fuel wu (mkProc Usrp (capture_args s) (now ws) (Some d) cu None) d)
    as [st' Hterm].
  { subst wu ws w1 n. simpl. rewrite <- app_assoc. apply lookup_new_next. }
  { done. }
  { subst wu. simpl. lia. }
  { subst wu. simpl. lia. }
  pose proof (wait_one_loop iperf_loop Usrp (S n) ss (watches_read Usrp (S n) ss)
                fuel wu) as Hloop.
  rewrite Hterm in Hloop |- *. destruct Hloop as (c & wl & -> & Hw & Hrec).
  destruct (teardown_alone (set_proc Usrp (Some (mkPopen (S n) (Some c))) ss) wl n
              (mkProc IperfServer (iperf_server_args s) (now w) ls cs None))
    as (rcs & ps' & Htd & _).
  - exact Hc.
  - reflexivity.
  - rewrite (waited_lookup _ _ _ n Hw). subst wu ws w1 n. simpl.
    rewrite <- app_assoc. apply lookup_new.
  - apply waited_now in Hw. subst wu ws w1. simpl in Hw |- *. lia.
  - simpl. rewrite Htd. by eexists.
Qed.

Lemma start_usrp_iperf_client_returns (fuel : nat) (s : controller) (w : world)
    (lc ls : option nat) (cc cs cu : Z) (d : nat) :
  truthy (iperf_client_addr s) = true →
  launch env (length (procs w)) (iperf_client_args s) = Ok (lc, cc) →
  launch env (S (length (procs w))) (iperf_server_args s) = Ok (ls, cs) →
  launch env (S (S (length (procs w)))) (capture_args s) = Ok (Some d, cu) →
  (d < fuel)%nat →
  ∃ st', start_usrp_iperf env fuel (s, w) = Returns tt st'.
Proof.
  intros Hc Henvc Henvs Henvu Hfuel.
  rewrite (start_usrp_iperf_client_eq env fuel s w Hc). cbv zeta.
  rewrite Henvc, Henvs, Henvu.
  set (w1 := printed ("Running USRP with interference injected..." ++ nl)%string w).
  set (n := length (procs w)).
  set (ss := set_usrp_control_args (capture_args s)
               (set_proc IperfServer (Some (mkPopen (S n) None))
                  (set_proc IperfClient (Some (mkPopen n None)) s))).
  set (wc := spawned IperfClient (iperf_client_args s) lc cc w1).
  set (ws := spawned IperfServer (iperf_server_args s) ls cs wc).
  set (wu := spawned Usrp (capture_args s) (Some d) cu ws).
  destruct (wait_one_terminates iperf_loop Usrp (S (S n)) ss
              (watches_read Usrp (S (S n)) ss)
              fuel wu (mkProc Usrp (capture_args s) (now ws) (Some d) cu None) d)
    as [st' Hterm].
  { subst wu ws wc w1 n. simpl. rewrite <- !app_assoc. simpl.
    rewrite lookup_app_r by lia.
    by replace (S (S (length (procs w))) - length (procs w))%nat with 2%nat by lia. }
  { done. }
  { subst wu. simpl. lia. }
  { subst wu. simpl. lia. }
  pose proof (wait_one_loop iperf_loop Usrp (S (S n)) ss
                (watches_read Usrp (S (S n)) ss) fuel wu) as Hloop.
  rewrite Hterm in Hloop |- *. destruct Hloop as (c & wl & -> & Hw & Hrec).
  destruct (teardown_client (set_proc Usrp (Some (mkPopen (S (S n)) (Some c))) ss) wl
              n (S n)
              (mkProc IperfClient (iperf_client_args s) (now w) lc cc None)
              (mkProc IperfServer (iperf_server_args s) (now w + 1) ls cs None))
    as (rcc & rcs & pc' & ps' & Htd & _).
  - exact Hc.
  - reflexivity.
  - reflexivity.
  - lia.
  - rewrite (waited_lookup _ _ _ n Hw). subst wu ws wc w1 n. simpl.
    rewrite <- !app_assoc. apply lookup_new.
  - rewrite (waited_lookup _ _ _ (S n) Hw). subst wu ws wc w1 n. simpl.
    rewrite <- !app_assoc. apply lookup_new_next.
  - apply waited_now in Hw. subst wu ws wc w1. simpl in Hw |- *. lia.
  - apply waited_now in Hw. subst wu ws wc w1. simpl in Hw |- *. lia.
  - simpl. rewrite Htd. by eexists.
Qed.

(** C1: [start_usrp_iperf] waits for the capture job alone.  When the
    iperf processes can be started, it returns exactly when the capture
    job ends by itself; on return the exit status of the capture job is
    recorded, the loop has polled no other process, and no iperf process
    started by the call is running at any later time. *)
Theorem start_usrp_iperf_asymmetric_barrier (s : controller) (w : world) :
  aux_launch_ok env s w →
  ((∃ fuel s' w', start_usrp_iperf env fuel (s, w) = Returns tt (s', w')) ↔
   primary_ends env s w) ∧
  (∀ fuel s' w',
     start_usrp_iperf env fuel (s, w) = Returns tt (s', w') →
     barrier_post s w s' w').
Proof.
  intros [Hclient Hserver]. split; [split |].
  - intros (fuel & s' & w' & Hrun).
    destruct (start_usrp_iperf_capture fuel s s' w w' Hrun) as (lu & cu & Henv & t & Hp).
    destruct (start_usrp_iperf_post fuel s s' w w' Hrun) as ((c & p & _ & Hp' & _ & Hover) & _).
    rewrite Hp in Hp'. injection Hp' as <-.
    destruct (over_unkilled _ _ Hover eq_refl) as [d Hd]. simpl in Hd. subst lu.
    by exists d, cu.
  - intros (d & cu & Henvu). unfold aux_launch_ok, capture_pid, server_pid in *.
    destruct (truthy (iperf_client_addr s)) eqn:Hc.
    + destruct (Hclient eq_refl) as [[lc cc] Henvc].
      destruct Hserver as [[ls cs] Henvs].
      destruct (start_usrp_iperf_client_returns (S d) s w lc ls cc cs cu d
                  Hc Henvc Henvs Henvu ltac:(lia)) as [[s' w'] Hrun].
      by exists (S d), s', w'.
    + destruct Hserver as [[ls cs] Henvs].
      destruct (start_usrp_iperf_alone_returns (S d) s w ls cs cu d
                  Hc Henvs Henvu ltac:(lia)) as [[s' w'] Hrun].
      by exists (S d), s', w'.
  - intros fuel s' w'. apply start_usrp_iperf_post.
Qed.

Lemma address_given_truthy (s : controller) :
  address_given s → truthy (iperf_client_addr s) = true.
Proof. intros (a & -> & Ha). by destruct a. Qed.

Lemma address_missing_falsy (s : controller) :
  address_missing s → truthy (iperf_client_addr s) = false.
Proof. by intros [-> | ->]. Qed.

Lemma address_cases (s : controller) : address_given s ∨ address_missing s.
Proof.
  unfold address_given, address_missing.
  destruct (iperf_client_addr s) as [[|c a]|]; [by right; right | | by right; left].
  left. by exists (String c a).
Qed.

Lemma address_given_not_missing (s : controller) :
  address_given s → ¬ address_missing s.
Proof.
  intros (a & Ha & Hne) [H | H]; rewrite H in Ha; [done |].
  injection Ha as <-. done.
Qed.

(** An event of [pre ++ polls ++ post] that is no poll is in [pre] or [post]. *)
Lemma event_not_poll (pre post polls : list event) (n : nat) (e : event) :
  Forall (λ x, x = EvPoll n) polls → e ∈ pre ++ polls ++ post → e ≠ EvPoll n →
  e ∈ pre ∨ e ∈ post.
Proof.
  intros Hpolls Hin Hne. rewrite !elem_of_app in Hin.
  destruct Hin as [Hin | [Hin | Hin]]; [by left | | by right].
  by apply (proj1 (Forall_forall _ _) Hpolls) in Hin.
Qed.

(** The events of a run without a client address, whatever its outcome. *)
Lemma start_usrp_iperf_alone_events (fuel : nat) (s : controller) (w : world) :
  truthy (iperf_client_addr s) = false →
  ∃ pre polls post,
    trace (snd (final (start_usrp_iperf env fuel (s, w)))) =
      trace w ++ pre ++ polls ++ post ∧
    pre `prefix_of` [EvSpawn IperfServer (length (procs w));
                     EvSpawn Usrp (S (length (procs w)))] ∧
    Forall (λ e, e = EvPoll (S (length (procs w)))) polls ∧
    (post = [] ∨
     post = [EvKill (length (procs w))] ∧
     pre = [EvSpawn IperfServer (length (procs w)); EvSpawn Usrp (S (length (procs w)))]).
Proof.
  intros Hc. pose proof (start_usrp_iperf_alone_outcome env fuel s w Hc) as Hout.
  cbv zeta in Hout.
  destruct (start_usrp_iperf env fuel (s, w)) as [u [s' w'] | e [s' w'] | [s' w']];
    simpl.
  - destruct Hout as (ls & cs & lu & cu & c & wl & rcs & ps' & _ & _ & Hw & _ & _ & -> & ->).
    destruct Hw as (_ & _ & _ & evs & Hevs & Hall).
    exists [EvSpawn IperfServer (length (procs w)); EvSpawn Usrp (S (length (procs w)))],
      evs, [EvKill (length (procs w))].
    split; [| split; [done | split; [by apply polls_of_one | by right]]].
    simpl. rewrite Hevs. simpl. rewrite !length_app. simpl.
    rewrite <- !app_assoc. simpl. by rewrite !Nat.add_1_r.
  - destruct Hout as [(_ & -> & ->) | (ls & cs & _ & _ & -> & ->)].
    + exists [], [], []. simpl. rewrite app_nil_r.
      split; [done | split; [apply prefix_nil | split; [done | by left]]].
    + exists [EvSpawn IperfServer (length (procs w))], [], []. simpl.
      split; [done | split; [by eexists | split; [done | by left]]].
  - destruct Hout as (ls & cs & lu & cu & rc & _ & _ & -> & Hw).
    destruct Hw as (_ & _ & _ & evs & Hevs & Hall).
    exists [EvSpawn IperfServer (length (procs w)); EvSpawn Usrp (S (length (procs w)))],
      evs, [].
    split; [| split; [done | split; [by apply polls_of_one | by left]]].
    rewrite Hevs. simpl. rewrite !length_app. simpl.
    rewrite <- !app_assoc. simpl. by rewrite app_nil_r, !Nat.add_1_r.
Qed.

(** C3: [start_usrp_iperf] and the client address.  With an address that
    is [None] or the empty string, no run, whatever its outcome, starts
    an iperf client, and the only process it kills is the iperf server
    it has started.  In a run that returns, an iperf client is started
    if and only if the address is a non-empty string; the events of the
    run are then the launches of client, server and capture job, the
    polls of the capture job, and the kills of client and server; with
    an address that is [None] or empty they are the launches of server
    and capture job, the polls, and the kill of the server alone.  The
    server is started and killed in every run that returns. *)
Theorem client_launched_iff_address (fuel : nat) (s : controller) (w : world) :
  (address_missing s →
   ∃ evs,
     trace (snd (final (start_usrp_iperf env fuel (s, w)))) = trace w ++ evs ∧
     (∀ pid, EvSpawn IperfClient pid ∉ evs) ∧
     (∀ pid, EvKill pid ∈ evs → EvSpawn IperfServer pid ∈ evs)) ∧
  (∀ s' w',
     start_usrp_iperf env fuel (s, w) = Returns tt (s', w') →
     ∃ evs polls,
       trace w' = trace w ++ evs ∧
       ((∃ pid, EvSpawn IperfClient pid ∈ evs) ↔ address_given s) ∧
       (address_given s →
        Forall (λ e, e = EvPoll (S (S (length (procs w))))) polls ∧
        evs = [EvSpawn IperfClient (length (procs w));
               EvSpawn IperfServer (S (length (procs w)));
               EvSpawn Usrp (S (S (length (procs w))))] ++ polls ++
              [EvKill (length (procs w)); EvKill (S (length (procs w)))]) ∧
       (address_missing s →
        Forall (λ e, e = EvPoll (S (length (procs w)))) polls ∧
        evs = [EvSpawn IperfServer (length (procs w));
               EvSpawn Usrp (S (length (procs w)))] ++ polls ++
              [EvKill (length (procs w))]) ∧
       (∃ pid, EvSpawn IperfServer pid ∈ evs ∧ EvKill pid ∈ evs)).
Proof.
  split.
  - intros Hm.
    destruct (start_usrp_iperf_alone_events fuel s w (address_missing_falsy s Hm))
      as (pre & polls & post & Htr & Hpre & Hpolls & Hpost).
    exists (pre ++ polls ++ post). split; [done |]. split.
    + intros pid Hin.
      apply (event_not_poll _ _ _ _ _ Hpolls) in Hin as [Hin | Hin]; [| | done].
      * apply (elem_of_prefix _ _ _ Hin) in Hpre. revert Hpre.
        rewrite !elem_of_cons, elem_of_nil. intuition discriminate.
      * destruct Hpost as [-> | [-> _]]; revert Hin;
          rewrite ?elem_of_cons, elem_of_nil; intuition discriminate.
    + intros pid Hin.
      apply (event_not_poll _ _ _ _ _ Hpolls) in Hin as [Hin | Hin]; [| | done].
      * apply (elem_of_prefix _ _ _ Hin) in Hpre. revert Hpre.
        rewrite !elem_of_cons, elem_of_nil. intuition discriminate.
      * destruct Hpost as [-> | [-> ->]]; [by apply elem_of_nil in Hin |].
        apply list_elem_of_singleton in Hin. injection Hin as ->.
        apply list_elem_of_here.
  - intros s' w' Hrun.
    destruct (start_usrp_iperf_trace fuel s s' w w' Hrun) as (c & polls & _ & Hpolls & Htr).
    unfold usrp_iperf_events, capture_pid, server_pid in Hpolls, Htr.
    exists (usrp_iperf_events s w polls), polls. split; [done |].
    unfold usrp_iperf_events, capture_pid, server_pid.
    destruct (address_cases s) as [Hg | Hm].
    + rewrite (address_given_truthy s Hg) in Hpolls |- *. simpl.
      split; [| split; [done | split]].
      * split; [done |]. intros _. exists (length (procs w)). apply list_elem_of_here.
      * intros Hm. by destruct (address_given_not_missing s Hg).
      * exists (S (length (procs w))). split.
        -- apply list_elem_of_further, list_elem_of_here.
        -- do 3 apply list_elem_of_further. apply elem_of_app. right.
           apply list_elem_of_further, list_elem_of_here.
    + rewrite (address_missing_falsy s Hm) in Hpolls |- *. simpl.
      split; [| split; [| split; [done |]]].
      * split; [| by intros Hg; destruct (address_given_not_missing s Hg)].
        intros [pid Hin]. exfalso.
        apply (event_not_poll [_; _] _ _ _ _ Hpolls) in Hin as [Hin | Hin]; [| | done];
          revert Hin; rewrite ?elem_of_cons, elem_of_nil; intuition discriminate.
      * intros Hg. by destruct (address_given_not_missing s Hg).
      * exists (length (procs w)). split; [apply list_elem_of_here |].
        do 2 apply list_elem_of_further. apply elem_of_app. right.
        apply list_elem_of_here.
Qed.

End Barriers.

(** ** Command lines and sessions *)

Section Sessions.
Variable env : nat → list string → option (option nat * Z).

Lemma plan_NoDup (s : controller) (o : op) : NoDup (plan s o).
Proof.
  destruct o; simpl; try destruct (truthy _);
    repeat (apply NoDup_cons; split;
            [rewrite ?not_elem_of_cons; repeat split; try done; apply not_elem_of_nil |]);
    apply NoDup_nil_2.
Qed.

(** C4: [start_usrp], [start_usrp_controller] and [start_usrp_iperf]
    rebuild the command line of the capture job from the current
    [file_name] and [run_time] before they start it: every capture
    process they start carries that command line, whatever
    [usrp_control_args] held before, and on return the attribute holds
    it too. *)
Theorem capture_args_rebuilt_before_launch (o : op) (fuel : nat)
    (s : controller) (w : world) :
  launches_capture o = true →
  (∀ pid p,
     (length (procs w) ≤ pid)%nat →
     procs (snd (final (run_op env o fuel (s, w)))) !! pid = Some p →
     p_kind p = Usrp →
     p_args p = ["python"; (working_dir s ++ "/utils/writeIQ.py")%string;
                 file_name s; num_str (run_time s)]) ∧
  (∀ s' w',
     run_op env o fuel (s, w) = Returns tt (s', w') →
     usrp_control_args s' =
       ["python"; (working_dir s ++ "/utils/writeIQ.py")%string;
        file_name s; num_str (run_time s)] ∧
     ∃ pid p,
       (length (procs w) ≤ pid)%nat ∧ procs w' !! pid = Some p ∧ p_kind p = Usrp).
Proof.
  intros Ho. pose proof (run_op_effect env o fuel s w) as Heff.
  assert (Usrp ∈ plan s o) as Hin.
  { destruct o; simpl; try done; try destruct (truthy _);
      rewrite ?elem_of_cons; auto. }
  split.
  - intros pid p Hpid Hp Hk.
    destruct (effect_new s w _ _ Heff pid p Hpid Hp) as (Hargs & _).
    by rewrite Hargs, Hk.
  - intros s' w' Hrun. rewrite Hrun in Heff.
    destruct Heff as (news & (Hprocs & _) & _ & _ & Hret).
    destruct (Hret (s', w') eq_refl) as (Hkinds & _ & Hctl).
    split; [by apply Hctl |].
    rewrite <- Hkinds in Hin. apply list_elem_of_fmap in Hin as (p & Hk & Hp).
    apply list_elem_of_lookup in Hp as [i Hi].
    exists (length (procs w) + i)%nat, p. split; [lia |]. split; [| done].
    simpl in Hprocs. rewrite Hprocs, lookup_app_r by lia.
    by replace (length (procs w) + i - length (procs w))%nat with i by lia.
Qed.

(** *** Sessions *)

Lemma run_session_cons (a : action) (rest : list action) (st : state) :
  run_session env (a :: rest) st =
  match run_action env a st with
  | Returns _ st' => run_session env rest st'
  | Raises e st' => Raises e st'
  | Spins st' => Spins st'
  end.
Proof. reflexivity. Qed.

(** An invariant of the states that every action keeps, whatever its
    outcome, holds at the end of a session. *)
Lemma session_invariant (I : state → Prop) :
  (∀ a st, I st → I (final (run_action env a st))) →
  ∀ acts st, I st → I (final (run_session env acts st)).
Proof.
  intros Hact. induction acts as [|a rest IH]; intros st Hst; [done |].
  rewrite run_session_cons. specialize (Hact a st Hst).
  destruct (run_action env a st) as [u st' | e st' | st']; simpl in *; [| done | done].
  by apply IH.
Qed.

Lemma action_keeps_iperf_args (s0 : controller) (w0 : world) (a : action) (st : state) :
  iperf_args_kept s0 w0 st → iperf_args_kept s0 w0 (final (run_action env a st)).
Proof.
  destruct st as [s w]. intros (Hc & Hs & Hp). simpl in Hc, Hs, Hp.
  destruct a as [o fuel | f | r | x | r | m]; simpl; try done.
  pose proof (run_op_effect env o fuel s w) as Heff.
  pose proof Heff as (news & _ & _ & Hset & _).
  destruct Hset as (_ & _ & _ & _ & Hc' & Hs' & _).
  split; [by rewrite Hc' | split; [by rewrite Hs' |]].
  intros pid p Hpid Hlook.
  destruct (decide (pid < length (procs w))%nat) as [Hold | Hnew].
  - rewrite (effect_old s w _ _ Heff pid Hold) in Hlook. by apply (Hp pid).
  - destruct (effect_new s w _ _ Heff pid p ltac:(lia) Hlook) as (Hargs & _).
    rewrite Hargs. split; intros ->; simpl; congruence.
Qed.

(** C5, amended: the iperf command lines are fixed when the controller
    is built, in test mode as the command line of the simulation script
    and otherwise as the iperf call with the text None for the address,
    the rate and the memory address; no assignment to the attributes
    and no start operation changes them, and every iperf process of a
    session is started with them. *)
Theorem iperf_args_fixed_at_construction (cwd : string) (test_mode : bool)
    (acts : list action) (w0 : world) :
  let s0 := init cwd test_mode in
  iperf_client_args s0 =
    (if test_mode
     then ["python3"; (cwd ++ "/tests/iperf_sim.py")%string; "None"]
     else real_client_args) ∧
  iperf_server_args s0 = ["iperf"; "-s"; "-u"; "-t100000000000000"] ∧
  iperf_args_kept s0 w0 (final (run_session env acts (s0, w0))).
Proof.
  intros s0. split; [by destruct test_mode |]. split; [by destruct test_mode |].
  apply (session_invariant (iperf_args_kept s0 w0)).
  - intros a st. apply action_keeps_iperf_args.
  - split; [done |]. split; [done |]. intros pid p Hpid Hp. simpl in Hp.
    apply lookup_lt_Some in Hp. lia.
Qed.

(** *** One job of a kind at a time *)

Lemma idle_before_start (p : osproc) (t : nat) :
  (t < p_start p)%nat → state_at t p = Idle.
Proof.
  intros H. unfold state_at.
  by replace (t <? p_start p)%nat with true by (symmetry; apply Nat.ltb_lt; lia).
Qed.

Lemma effect_keeps_one_per_kind (s : controller) (w : world) (jobs : list kind)
    (out : outcome unit) :
  NoDup jobs → quiet w → one_per_kind w → op_effect s w jobs out →
  one_per_kind (snd (final out)) ∧
  (∀ st, out = Returns tt st → quiet (snd st)).
Proof.
  intros Hnd Hq Hone Heff. split.
  - intros t i j pi pj Hi Hj Hk Hri Hrj.
    assert (∀ a b pa pb,
              (a < length (procs w))%nat → (length (procs w) ≤ b)%nat →
              procs (snd (final out)) !! a = Some pa →
              procs (snd (final out)) !! b = Some pb →
              state_at t pa = Running → state_at t pb = Running → False) as Hmix.
    { intros a b pa pb Ha Hb Hpa Hpb Hra Hrb.
      rewrite (effect_old s w _ _ Heff a Ha) in Hpa.
      destruct (effect_new s w _ _ Heff b pb Hb Hpb) as (_ & _ & Hstart & _).
      destruct (decide (t < now w)%nat) as [Hlt | Hge].
      - rewrite idle_before_start in Hrb by lia. done.
      - by apply (over_not_running pa (now w) t (Hq a pa Hpa) ltac:(lia)). }
    destruct (decide (i < length (procs w))%nat) as [Hio | Hin],
             (decide (j < length (procs w))%nat) as [Hjo | Hjn].
    + rewrite (effect_old s w _ _ Heff i Hio) in Hi.
      rewrite (effect_old s w _ _ Heff j Hjo) in Hj.
      by apply (Hone t i j pi pj).
    + exfalso. apply (Hmix i j pi pj); [done | lia | done..].
    + exfalso. apply (Hmix j i pj pi); [done | lia | done..].
    + destruct Heff as (news & (Hprocs & _) & Hpre & _).
      rewrite Hprocs, lookup_app_r in Hi, Hj by lia.
      assert (NoDup (p_kind <$> news)) as Hnd'.
      { destruct Hpre as [rest ->]. by apply NoDup_app in Hnd as (Hnd & _). }
      assert (i - length (procs w) = j - length (procs w))%nat; [| lia].
      apply (NoDup_lookup _ _ _ (p_kind pi) Hnd').
      * by rewrite list_lookup_fmap, Hi.
      * by rewrite list_lookup_fmap, Hj, Hk.
  - intros [s' w'] ->. simpl. intros pid p Hp.
    destruct (decide (pid < length (procs w))%nat) as [Hold | Hnew].
    + pose proof (effect_old s w _ _ Heff pid Hold) as Hsame. simpl in Hsame.
      rewrite Hsame in Hp.
      destruct Heff as (news & (_ & Hnow & _) & _). simpl in Hnow.
      by apply (over_at_mono p (now w)); [apply (Hq pid) |].
    + destruct (effect_new s w _ _ Heff pid p ltac:(lia) Hp) as (_ & _ & _ & Hover).
      by apply (Hover (s', w')).
Qed.

Lemma action_keeps_one_per_kind (a : action) (st : state) :
  quiet (snd st) ∧ one_per_kind (snd st) →
  one_per_kind (snd (final (run_action env a st))) ∧
  (∀ st', run_action env a st = Returns tt st' → quiet (snd st')).
Proof.
  destruct st as [s w]. intros [Hq Hone].
  destruct a as [o fuel | f | r | x | r | m]; simpl;
    try (split; [done | by intros st' [= <-]]).
  apply (effect_keeps_one_per_kind s w (plan s o));
    [apply plan_NoDup | done | done | apply run_op_effect].
Qed.

(** C10: in a session of assignments and start operations run one
    after the other, at no time two processes of one kind are running,
    and when the session returns no process is running. *)
Theorem one_running_job_per_kind (acts : list action) (s : controller) (w : world) :
  quiet w → one_per_kind w →
  one_per_kind (snd (final (run_session env acts (s, w)))) ∧
  (∀ s' w', run_session env acts (s, w) = Returns tt (s', w') → quiet w').
Proof.
  revert s w. induction acts as [|a rest IH]; intros s w Hq Hone.
  - split; [done |]. by intros s' w' [= <- <-].
  - rewrite run_session_cons.
    destruct (action_keeps_one_per_kind a (s, w) (conj Hq Hone)) as [Hone' Hq'].
    destruct (run_action env a (s, w)) as [[] [s1 w1] | e st1 | st1];
      [| by split | by split].
    apply IH; [by apply (Hq' (s1, w1)) | done].
Qed.

End Sessions.

(** ** The properties on the sample run *)

Lemma max_cell_level_first_maximal_witness :
  ∃ (i : nat) (c : Cell) (n : Z),
    max_cell_level sample_cells = Ok c ∧ sample_cells !! i = Some c ∧
    py_int (level c) = Ok n ∧
    (∀ j cj nj, sample_cells !! j = Some cj → py_int (level cj) = Ok nj → nj ≤ n) ∧
    (∀ j cj nj, (j < i)%nat → sample_cells !! j = Some cj →
                py_int (level cj) = Ok nj → nj < n).
Proof.
  apply (max_cell_level_first_maximal sample_cells); [discriminate |].
  repeat constructor; eexists; (split; [reflexivity |]);
    (split; [discriminate | split; [reflexivity | unfold max_str_digits; simpl; lia]]).
Defined.

Lemma missing_level_breaks_max_cell_level_witness :
  (∃ c, get_cells sample_scan !! 0%nat = Some c ∧ level c = None) ∧
  max_cell_level (get_cells sample_scan) = Err TypeError.
Proof.
  assert (split "Cell" sample_scan !! 1%nat = Some " 01 - Address: 00:11 ") as Hblock
    by reflexivity.
  assert (¬ has_level_text " 01 - Address: 00:11 ") as Hmissing
    by (apply get_level_None_iff; reflexivity).
  destruct (missing_level_breaks_max_cell_level sample_scan 0 _ Hblock Hmissing)
    as (Hcell & Hmax & _).
  exact (conj Hcell Hmax).
Defined.

Lemma start_single_returns_after_exit_witness :
  ∃ c p,
    get_proc Usrp (fst (final (run_op sample_env StartUsrp 10 (sample_controller, world0))))
      = Some (mkPopen 0 (Some c)) ∧
    procs (snd (final (run_op sample_env StartUsrp 10 (sample_controller, world0)))) !! 0%nat
      = Some p ∧
    p_kind p = Usrp ∧
    over_at (now (snd (final (run_op sample_env StartUsrp 10 (sample_controller, world0))))) p.
Proof.
  apply (start_single_returns_after_exit sample_env StartUsrp Usrp 10
           sample_controller _ world0 _); [reflexivity | vm_compute; reflexivity].
Defined.

Lemma start_joint_returns_after_both_exit_witness :
  ∃ c1 c2 p1 p2,
    get_proc Usrp
      (fst (final (run_op sample_env StartUsrpController 10 (sample_controller, world0))))
      = Some (mkPopen 0 (Some c1)) ∧
    get_proc Controller
      (fst (final (run_op sample_env StartUsrpController 10 (sample_controller, world0))))
      = Some (mkPopen 1 (Some c2)) ∧
    procs (snd (final (run_op sample_env StartUsrpController 10 (sample_controller, world0))))
      !! 0%nat = Some p1 ∧
    procs (snd (final (run_op sample_env StartUsrpController 10 (sample_controller, world0))))
      !! 1%nat = Some p2 ∧
    p_kind p1 = Usrp ∧ p_kind p2 = Controller ∧
    over_at
      (now (snd (final (run_op sample_env StartUsrpController 10 (sample_controller, world0)))))
      p1 ∧
    over_at
      (now (snd (final (run_op sample_env StartUsrpController 10 (sample_controller, world0)))))
      p2.
Proof.
  apply (start_joint_returns_after_both_exit sample_env StartUsrpController
           Usrp Controller 10 sample_controller _ world0 _);
    [reflexivity | vm_compute; reflexivity].
Defined.

Lemma start_usrp_iperf_asymmetric_barrier_witness :
  aux_launch_ok sample_env sample_controller world0 ∧
  primary_ends sample_env sample_controller world0 ∧
  barrier_post sample_controller world0
    (fst (final (start_usrp_iperf sample_env 10 (sample_controller, world0))))
    (snd (final (start_usrp_iperf sample_env 10 (sample_controller, world0)))).
Proof.
  assert (aux_launch_ok sample_env sample_controller world0) as Hok.
  { split; [intros _ |]; eexists; reflexivity. }
  destruct (start_usrp_iperf_asymmetric_barrier sample_env sample_controller world0 Hok)
    as [[Hends _] Hpost].
  split; [exact Hok |]. split.
  - apply Hends. eexists 10%nat, _, _. vm_compute. reflexivity.
  - apply (Hpost 10%nat). vm_compute. reflexivity.
Defined.

Lemma client_launched_iff_address_witness :
  (∃ polls,
     trace (snd (final (start_usrp_iperf sample_env 10 (bare_controller, world0)))) =
       [EvSpawn IperfServer 0; EvSpawn Usrp 1] ++ polls ++ [EvKill 0]) ∧
  (∃ polls,
     trace (snd (final (start_usrp_iperf sample_env 10 (blank_controller, world0)))) =
       [EvSpawn IperfServer 0; EvSpawn Usrp 1] ++ polls ++ [EvKill 0]) ∧
  (∃ polls,
     trace (snd (final (start_usrp_iperf sample_env 10 (sample_controller, world0)))) =
       [EvSpawn IperfClient 0; EvSpawn IperfServer 1; EvSpawn Usrp 2] ++ polls ++
       [EvKill 0; EvKill 1]) ∧
  (∃ evs,
     trace (snd (final (start_usrp_iperf sample_env 2 (blank_controller, world0)))) = evs ∧
     ∀ pid, EvSpawn IperfClient pid ∉ evs).
Proof.
  split; [| split; [| split]].
  - destruct (proj2 (client_launched_iff_address sample_env 10 bare_controller world0)
                (fst (final (start_usrp_iperf sample_env 10 (bare_controller, world0))))
                (snd (final (start_usrp_iperf sample_env 10 (bare_controller, world0)))))
      as (evs & polls & Htr & _ & _ & Hmissing & _).
    { vm_compute. reflexivity. }
    destruct (Hmissing (or_introl eq_refl)) as [_ Hevs].
    exists polls. rewrite Htr, Hevs. reflexivity.
  - destruct (proj2 (client_launched_iff_address sample_env 10 blank_controller world0)
                (fst (final (start_usrp_iperf sample_env 10 (blank_controller, world0))))
                (snd (final (start_usrp_iperf sample_env 10 (blank_controller, world0)))))
      as (evs & polls & Htr & _ & _ & Hmissing & _).
    { vm_compute. reflexivity. }
    destruct (Hmissing (or_intror eq_refl)) as [_ Hevs].
    exists polls. rewrite Htr, Hevs. reflexivity.
  - destruct (proj2 (client_launched_iff_address sample_env 10 sample_controller world0)
                (fst (final (start_usrp_iperf sample_env 10 (sample_controller, world0))))
                (snd (final (start_usrp_iperf sample_env 10 (sample_controller, world0)))))
      as (evs & polls & Htr & _ & Hgiven & _).
    { vm_compute. reflexivity. }
    destruct Hgiven as [_ Hevs].
    { exists "10.0.0.2"%string. split; [reflexivity | discriminate]. }
    exists polls. rewrite Htr, Hevs. reflexivity.
  - destruct (proj1 (client_launched_iff_address sample_env 2 blank_controller world0)
                (or_intror eq_refl)) as (evs & Htr & Hnone & _).
    exists evs. split; [exact Htr | exact Hnone].
Defined.

Lemma capture_args_rebuilt_before_launch_witness :
  usrp_control_args
    (fst (final (run_op sample_env StartUsrpIperf 10 (sample_controller, world0)))) =
    ["python"; "/home/ants/utils/writeIQ.py"; "capture"; "0.5"] ∧
  ∃ pid p,
    procs (snd (final (run_op sample_env StartUsrpIperf 10 (sample_controller, world0))))
      !! pid = Some p ∧
    p_kind p = Usrp ∧
    p_args p = ["python"; "/home/ants/utils/writeIQ.py"; "capture"; "0.5"].
Proof.
  destruct (capture_args_rebuilt_before_launch sample_env StartUsrpIperf 10
              sample_controller world0 eq_refl) as [Hlaunch Hret].
  destruct (Hret (fst (final (run_op sample_env StartUsrpIperf 10 (sample_controller, world0))))
                 (snd (final (run_op sample_env StartUsrpIperf 10 (sample_controller, world0)))))
    as (Hargs & pid & p & Hpid & Hp & Hk).
  { vm_compute. reflexivity. }
  split; [exact Hargs |]. exists pid, p. split; [exact Hp |]. split; [exact Hk |].
  exact (Hlaunch pid p Hpid Hp Hk).
Defined.

Lemma one_running_job_per_kind_witness :
  one_per_kind (snd (final (run_session sample_env sample_session (sample_controller, world0)))) ∧
  quiet (snd (final (run_session sample_env sample_session (sample_controller, world0)))).
Proof.
  assert (quiet world0) as Hq by (intros pid p Hp; discriminate Hp).
  assert (one_per_kind world0) as Hone by (intros t i j pi pj Hp; discriminate Hp).
  destruct (one_running_job_per_kind sample_env sample_session sample_controller world0
              Hq Hone) as [H1 H2].
  split; [exact H1 |]. apply (H2 (fst (final (run_session sample_env sample_session
                                              (sample_controller, world0))))).
  vm_compute. reflexivity.
Defined.

(** A controller built in test mode: its client command line is the one
    of the simulation script and has no rate option. *)
Lemma test_mode_client_args_lack_rate :
  iperf_client_args (init "/home/ants" true) =
    ["python3"; "/home/ants/tests/iperf_sim.py"; "None"] ∧
  ("-bNoneM" ∉ iperf_client_args (init "/home/ants" true)) ∧
  iperf_client_args (init "/home/ants" true) ≠ real_client_args.
Proof.
  split; [reflexivity |]. split; [| discriminate].
  intros H. repeat (apply elem_of_cons in H as [H | H]; [discriminate H |]).
  by apply elem_of_nil in H.
Defined.

Local Open Scope string_scope.
Local Open Scope Z_scope.
Local Open Scope method_scope.

(** ** More on the scan helper *)

Lemma max_cell_level_numeric (arr : list Cell) :
  arr ≠ [] → Forall numeric_level arr →
  ∃ (i : nat) (c : Cell) (n : Z),
    max_cell_level arr = Ok c ∧ arr !! i = Some c ∧ py_int (level c) = Ok n ∧
    (∀ j cj nj, arr !! j = Some cj → py_int (level cj) = Ok nj → nj ≤ n) ∧
    (∀ j cj nj, (j < i)%nat → arr !! j = Some cj → py_int (level cj) = Ok nj → nj < n).
Proof.
  intros Hne Hnum.
  destruct (max_cell_level_loop_numeric arr Hnum) as (mx & index & Hloop & Hmx & Hle & Hidx).
  unfold max_cell_level. rewrite Hloop. simpl.
  destruct Hidx as [[-> ->] | (c & Hc & Hv & Hfirst)].
  - destruct arr as [|c arr]; [done |]. simpl.
    apply Forall_cons in Hnum as [(l & Hl & Hnl) _].
    destruct (py_int_numeric l Hnl) as (v & Hv & Hint). rewrite <- Hl in Hint.
    pose proof (Hle 0%nat c v eq_refl Hint) as Hv0.
    assert (v = 0) as -> by lia.
    exists 0%nat, c, 0. repeat split; [done | done | intros; lia].
  - rewrite Hc. exists index, c, mx. by repeat split.
Qed.

Lemma missing_or_numeric_cases (arr : list Cell) :
  Forall level_missing_or_numeric arr →
  Exists (λ c, level c = None) arr ∨ Forall numeric_level arr.
Proof.
  induction 1 as [|c arr Hc _ IH]; [by right |].
  destruct Hc as [Hnone | Hnum]; [left; by apply Exists_cons_hd |].
  destruct IH as [Hex | Hall]; [left; by apply Exists_cons_tl | right; by apply Forall_cons].
Qed.

Lemma numeric_level_present (arr : list Cell) :
  Forall numeric_level arr → ¬ Exists (λ c, level c = None) arr.
Proof.
  intros Hall Hex. apply Exists_exists in Hex as (c & Hin & Hnone).
  apply (proj1 (Forall_forall _ _) Hall) in Hin as (l & Hl & _). congruence.
Qed.

(** X1: the outcome of [max_cell_level] on the cells read from a text. *)
Theorem scan_outcome (s : string) :
  (max_cell_level (get_cells s) = Err IndexError ↔ get_cells s = []) ∧
  (max_cell_level (get_cells s) = Err TypeError ↔
     Exists (λ c, level c = None) (get_cells s)) ∧
  ((∃ c, max_cell_level (get_cells s) = Ok c ∧ c ∈ get_cells s) ↔
     get_cells s ≠ [] ∧ Forall (λ c, level c ≠ None) (get_cells s)) ∧
  max_cell_level (get_cells s) ≠ Err ValueError.
Proof.
  pose proof (get_cells_levels s) as Hlev.
  destruct (missing_or_numeric_cases _ Hlev) as [Hex | Hnum].
  - pose proof (max_cell_level_loop_missing (get_cells s) 0 0 0 Hlev Hex) as Hloop.
    assert (max_cell_level (get_cells s) = Err TypeError) as Hmax
      by (unfold max_cell_level; by rewrite Hloop).
    rewrite Hmax. split; [| split; [| split]]; try done.
    + split; [done |]. intros Hnil. rewrite Hnil in Hex. by apply Exists_nil in Hex.
    + split; [by intros (c & ? & _) |]. intros [_ Hall]. exfalso.
      apply Exists_exists in Hex as (c & Hin & Hnone).
      by apply (proj1 (Forall_forall _ _) Hall) in Hin.
  - pose proof (numeric_level_present _ Hnum) as Hno.
    assert (Forall (λ c, level c ≠ None) (get_cells s)) as Hall.
    { eapply Forall_impl; [exact Hnum |]. intros c (l & Hl & _). congruence. }
    destruct (get_cells s) as [|c0 cells] eqn:Hcells.
    + assert (max_cell_level [] = Err IndexError) as Hmax by reflexivity.
      rewrite Hmax. split; [done |]. split; [| split]; try done.
      split; [by intros (c & ? & _) | by intros [? _]].
    + destruct (max_cell_level_numeric (c0 :: cells) ltac:(done) Hnum)
        as (i & c & n & Hmax & Hi & _).
      rewrite Hmax. split; [done |]. split; [done |]. split; [| done].
      split; [done |]. intros _. exists c. split; [done |].
      by apply (list_elem_of_lookup_2 _ i).
Qed.

(** A text is cut in at least two pieces when the separator occurs. *)
Lemma split_go_not_nil (sep s : string) (skip : nat) (cur : string) :
  split_go sep s skip cur ≠ [].
Proof.
  revert skip cur. induction s as [|c s IH]; intros skip cur; simpl; [done |].
  destruct skip; [| apply IH]. destruct (starts_with sep (String c s)); [done | apply IH].
Qed.

Lemma split_go_occurrence (sep s cur : string) :
  sep ≠ EmptyString → occurs sep s = true → (2 ≤ length (split_go sep s 0 cur))%nat.
Proof.
  intros Hsep. revert cur. induction s as [|c s IH]; intros cur Hocc.
  - destruct sep; [done | discriminate Hocc].
  - cbn [split_go]. cbn [occurs] in Hocc.
    destruct (starts_with sep (String c s)) eqn:Hst.
    + pose proof (split_go_not_nil sep s (String.length sep - 1) EmptyString) as Hne.
      destruct (split_go sep s (String.length sep - 1) EmptyString); [done |].
      simpl. lia.
    + simpl in Hocc. by apply IH.
Qed.

(** X2: no cell is read exactly when the word Cell does not occur. *)
Theorem get_cells_empty_iff (s : string) :
  get_cells s = [] ↔ occurs "Cell" s = false.
Proof.
  split; [| apply get_cells_no_cell].
  intros Hnil. destruct (occurs "Cell" s) eqn:Hocc; [| done]. exfalso.
  pose proof (split_go_occurrence "Cell" s EmptyString ltac:(done) Hocc) as Hlen.
  rewrite get_cells_blocks in Hnil. apply fmap_nil_inv in Hnil.
  unfold split in Hnil.
  destruct (split_go "Cell" s 0 EmptyString) as [|a [|b l]]; simpl in *; [lia | lia | done].
Qed.

Lemma max_cell_level_loop_not_positive (arr : list Cell) (index i : nat) :
  Forall level_not_positive arr → max_cell_level_loop arr 0 index i = Ok index.
Proof.
  revert i. induction arr as [|a arr IH]; intros i Hall; [done |].
  apply Forall_cons in Hall as [(l & n & Hl & _ & Hn & Hle) Hall]. simpl.
  rewrite Hl, Hn. simpl.
  replace (n >? 0) with false by (symmetry; rewrite Z.gtb_ltb; apply Z.ltb_ge; lia).
  by apply IH.
Qed.

(** X4: when the levels are ASCII text and none of them is read as a
    positive number, the first cell is returned, whatever the levels are. *)
Theorem max_cell_level_not_positive (c0 : Cell) (rest : list Cell) :
  Forall level_not_positive (c0 :: rest) → max_cell_level (c0 :: rest) = Ok c0.
Proof.
  intros Hall. unfold max_cell_level.
  by rewrite (max_cell_level_loop_not_positive _ 0 0 Hall).
Qed.

Lemma max_cell_level_loop_first_error (pre post : list Cell) (c : Cell) (e : exn) :
  ∀ (mx : Z) (index i : nat),
    Forall level_parsed pre → py_int (level c) = Err e →
    max_cell_level_loop (pre ++ c :: post)%list mx index i = Err e.
Proof.
  induction pre as [|a pre IH]; intros mx index i Hpre Hc; simpl.
  - by rewrite Hc.
  - apply Forall_cons in Hpre as [(l & n & _ & Hn) Hpre]. rewrite Hn. simpl.
    destruct (n >? mx); simpl; by apply IH.
Qed.

(** X5: among levels that are [None] or ASCII text, the first one that
    [int] refuses decides the exception. *)
Theorem max_cell_level_first_error (pre post : list Cell) (c : Cell) (e : exn) :
  Forall ascii_level pre → ascii_level c →
  Forall level_parsed pre → py_int (level c) = Err e →
  max_cell_level (pre ++ c :: post)%list = Err e.
Proof.
  intros _ _ Hpre Hc. unfold max_cell_level.
  by rewrite (max_cell_level_loop_first_error pre post c e 0 0 0 Hpre Hc).
Qed.

(** The value [int] gives to a string of digits. *)
Lemma digits_go_value (s : string) (acc : Z) (count : nat) :
  all_digits s = true → 0 ≤ acc →
  ∃ v, digits_go s acc count true = Some (v, (count + String.length s)%nat) ∧
       acc * 10 ^ Z.of_nat (String.length s) ≤ v
         < (acc + 1) * 10 ^ Z.of_nat (String.length s).
Proof.
  revert acc count. induction s as [|c s IH]; intros acc count Hs Hacc.
  - exists acc. split; [simpl; do 2 f_equal; lia |]. simpl. lia.
  - cbn [all_digits] in Hs. apply andb_true_iff in Hs as [Hc Hs].
    pose proof (digit_val_bounds c Hc) as Hb.
    destruct (IH (10 * acc + digit_val c) (S count) Hs ltac:(lia)) as (v & Hgo & Hv).
    exists v. split.
    + cbn [digits_go]. rewrite Hc, Hgo. cbn [String.length]. do 2 f_equal. lia.
    + cbn [String.length]. rewrite Nat2Z.inj_succ, Z.pow_succ_r by lia.
      assert (0 < 10 ^ Z.of_nat (String.length s)) by (apply Z.pow_pos_nonneg; lia).
      nia.
Qed.

Lemma py_int_digits_value (l : string) :
  numeric l →
  ∃ v, py_int (Some l) = Ok v ∧ 0 ≤ v < 10 ^ Z.of_nat (String.length l).
Proof.
  intros (Hne & Hd & Hlen). destruct l as [|c s]; [done |].
  pose proof Hd as Hd'. cbn [all_digits] in Hd'.
  apply andb_true_iff in Hd' as [Hc Hs].
  pose proof (digit_val_bounds c Hc) as Hb.
  destruct (digits_go_value s (10 * 0 + digit_val c) 1 Hs ltac:(lia)) as (v & Hgo & Hv).
  exists v. split.
  - cbn [py_int]. unfold int_of_str. rewrite (strip_digits _ Hd).
    rewrite (int_of_str_digit_head c s Hc). unfold int_of_digits.
    cbn [digits_go]. rewrite Hc, Hgo.
    cbn [String.length] in Hlen.
    replace (1 + String.length s <=? max_str_digits)%nat with true; [done |].
    symmetry. apply Nat.leb_le. lia.
  - cbn [String.length]. rewrite Nat2Z.inj_succ, Z.pow_succ_r by lia.
    assert (0 < 10 ^ Z.of_nat (String.length s)) by (apply Z.pow_pos_nonneg; lia).
    nia.
Qed.

(** X6: a level that [get_level] finds is read by [int] as a number from 0
    to 999: three digits are taken although the text says out of 100. *)
Theorem get_level_range (a d : string) :
  get_level a = Some d → ∃ n, py_int (Some d) = Ok n ∧ 0 ≤ n ≤ 999.
Proof.
  intros Hd. pose proof (get_level_numeric a d Hd) as Hnum.
  destruct (get_level_Some a d Hd) as ([_ Hlen] & _ & _).
  destruct (py_int_digits_value d Hnum) as (v & Hv & Hlo & Hhi).
  exists v. split; [done |]. split; [done |].
  assert (10 ^ Z.of_nat (String.length d) ≤ 10 ^ 3)
    by (apply Z.pow_le_mono_r; lia).
  lia.
Qed.

(** X7: [network_scan] on a text all of whose cells have a level: the name
    of the first cell of maximal level is returned. *)
Theorem network_scan_strongest
    (iwlist : string → result string) (device_name data : string) :
  iwlist device_name = Ok data →
  get_cells data ≠ [] → Forall (λ c, level c ≠ None) (get_cells data) →
  ∃ (i : nat) (c : Cell) (n : Z),
    network_scan iwlist device_name = Ok (essid c) ∧
    get_cells data !! i = Some c ∧ py_int (level c) = Ok n ∧
    (∀ j cj nj, get_cells data !! j = Some cj → py_int (level cj) = Ok nj → nj ≤ n) ∧
    (∀ j cj nj, (j < i)%nat → get_cells data !! j = Some cj →
                py_int (level cj) = Ok nj → nj < n).
Proof.
  intros Hrun Hne Hall.
  assert (Forall numeric_level (get_cells data)) as Hnum.
  { pose proof (get_cells_levels data) as Hlev.
    apply Forall_forall. intros c Hin.
    pose proof (proj1 (Forall_forall _ _) Hlev c Hin) as [Hnone | Hc]; [| done].
    by apply (proj1 (Forall_forall _ _) Hall) in Hin. }
  destruct (max_cell_level_numeric _ Hne Hnum) as (i & c & n & Hmax & Hrest).
  exists i, c, n. split; [| exact Hrest].
  unfold network_scan. rewrite Hrun. simpl. by rewrite Hmax.
Qed.

(** *** [get_essid] *)

Lemma get_essid_unfold (s : string) :
  get_essid s =
  match essid_at s with
  | Some g => Some g
  | None =>
      match s with
      | EmptyString => None
      | String _ r => get_essid r
      end
  end.
Proof. by destruct s. Qed.

Lemma ascii_eqb_sym (a b : ascii) : Ascii.eqb a b = Ascii.eqb b a.
Proof.
  destruct (Ascii.eqb_spec a b) as [-> | Hne].
  - by rewrite Ascii.eqb_refl.
  - symmetry. apply Ascii.eqb_neq. congruence.
Qed.

Lemma essid_group_None (r : string) :
  essid_group r = None ↔ has_char dquote (first_line r) = false.
Proof.
  induction r as [|c r IH]; [done |]. cbn [essid_group first_line].
  destruct (Ascii.eqb c newline) eqn:Hnl; [done |].
  cbn [has_char]. rewrite (ascii_eqb_sym dquote c).
  destruct (essid_group r) as [g|].
  - split; [done |]. intros H. apply orb_false_iff in H as [_ H].
    by apply IH in H.
  - destruct (Ascii.eqb c dquote); [done |]. simpl. by rewrite <- IH.
Qed.

Lemma essid_group_Some (r g : string) :
  essid_group r = Some g →
  ∃ post, r = g ++ quote ++ post ∧ has_char newline g = false ∧
          has_char dquote (first_line post) = false.
Proof.
  revert g. induction r as [|c r IH]; intros g H; [done |].
  cbn [essid_group] in H.
  destruct (Ascii.eqb c newline) eqn:Hnl; [done |].
  destruct (essid_group r) as [g'|] eqn:Hg.
  - injection H as <-. destruct (IH g' eq_refl) as (post & -> & Hno & Hq).
    exists post. split; [done |]. split; [| done].
    cbn [has_char]. by rewrite (ascii_eqb_sym newline c), Hnl, Hno.
  - destruct (Ascii.eqb_spec c dquote) as [-> | Hne]; [| done].
    injection H as <-. exists r. split; [done |]. split; [done |].
    by apply essid_group_None.
Qed.

Lemma essid_group_text (g post : string) :
  has_char newline g = false → essid_group (g ++ quote ++ post) ≠ None.
Proof.
  induction g as [|c g IH]; intros Hno.
  - change (EmptyString ++ quote ++ post) with (String dquote post).
    cbn [essid_group].
    replace (Ascii.eqb dquote newline) with false by reflexivity.
    destruct (essid_group post); [done |]. by rewrite Ascii.eqb_refl.
  - cbn [has_char] in Hno. apply orb_false_iff in Hno as [Hc Hno].
    change (String c g ++ quote ++ post) with (String c (g ++ quote ++ post)).
    cbn [essid_group]. rewrite (ascii_eqb_sym c newline), Hc.
    specialize (IH Hno). by destruct (essid_group (g ++ quote ++ post)).
Qed.

Lemma essid_at_Some (s g : string) :
  essid_at s = Some g →
  ∃ post, s = essid_open ++ g ++ quote ++ post ∧ has_char newline g = false ∧
          has_char dquote (first_line post) = false.
Proof.
  unfold essid_at. fold essid_open.
  destruct (strip_prefix essid_open s) as [r|] eqn:Hpre; [| done].
  apply strip_prefix_Some in Hpre. intros Hg.
  destruct (essid_group_Some r g Hg) as (post & -> & Hno & Hq).
  by exists post.
Qed.

Lemma essid_at_text (g post : string) :
  has_char newline g = false → essid_at (essid_open ++ g ++ quote ++ post) ≠ None.
Proof.
  intros Hno. unfold essid_at. fold essid_open.
  assert (strip_prefix essid_open (essid_open ++ g ++ quote ++ post)
          = Some (g ++ quote ++ post)) as Hsp by (by apply strip_prefix_Some).
  rewrite Hsp. by apply essid_group_text.
Qed.

Lemma get_essid_shape (s g : string) :
  get_essid s = Some g →
  ∃ pre post,
    s = pre ++ essid_open ++ g ++ quote ++ post ∧
    has_char newline g = false ∧
    has_char dquote (first_line post) = false.
Proof.
  induction s as [|c s IH]; rewrite get_essid_unfold.
  - destruct (essid_at EmptyString) as [g'|] eqn:Hat; [| done].
    intros [= ->]. destruct (essid_at_Some _ _ Hat) as (post & Hs & Hno & Hq).
    by exists EmptyString, post.
  - destruct (essid_at (String c s)) as [g'|] eqn:Hat.
    + intros [= ->]. destruct (essid_at_Some _ _ Hat) as (post & Hs & Hno & Hq).
      by exists EmptyString, post.
    + intros H. destruct (IH H) as (pre & post & -> & Hno & Hq).
      by exists (String c pre), post.
Qed.

(** X8: the name [get_essid] finds stands between the opening text and a
    double quote, holds no newline, and runs up to the last double quote
    of its line. *)
Theorem get_essid_Some (s g : string) :
  get_essid s = Some g →
  ∃ pre post,
    s = pre ++ essid_open ++ g ++ quote ++ post ∧
    has_char newline g = false ∧
    has_char dquote (first_line post) = false.
Proof. apply get_essid_shape. Qed.

(** X9: [get_essid] finds a name exactly when the opening text is followed
    by a double quote on the same line. *)
Theorem get_essid_None_iff (s : string) :
  get_essid s = None ↔
  ¬ ∃ pre g post,
      s = pre ++ essid_open ++ g ++ quote ++ post ∧ has_char newline g = false.
Proof.
  split.
  - intros Hnone (pre & g & post & -> & Hno).
    induction pre as [|c pre IH].
    + rewrite get_essid_unfold in Hnone.
      pose proof (essid_at_text g post Hno) as Hat.
      change (EmptyString ++ essid_open ++ g ++ quote ++ post)
        with (essid_open ++ g ++ quote ++ post) in Hnone.
      by destruct (essid_at (essid_open ++ g ++ quote ++ post)).
    + rewrite get_essid_unfold in Hnone.
      destruct (essid_at (String c pre ++ essid_open ++ g ++ quote ++ post)); [done |].
      by apply IH.
  - intros Hn. destruct (get_essid s) as [g|] eqn:H; [| done].
    exfalso. apply Hn.
    destruct (get_essid_shape s g H) as (pre & post & -> & Hno & _).
    by exists pre, g, post.
Qed.

(** *** [Cell.__str__] *)

Lemma string_app_assoc (a b c : string) : (a ++ b) ++ c = a ++ b ++ c.
Proof. induction a as [|x a IH]; simpl; [done | by rewrite IH]. Qed.

(** X10: the text of the cell [max_cell_level] returns: the cell has a level,
    so [str] fails only for the lack of a name. *)
Theorem strongest_cell_str (arr : list Cell) (c : Cell) :
  max_cell_level arr = Ok c →
  ∃ l, level c = Some l ∧
       match essid c with
       | Some e => Cell_str c = Ok (e ++ ", " ++ l)
       | None => Cell_str c = Err TypeError
       end.
Proof.
  intros H. unfold max_cell_level in H.
  destruct (max_cell_level_loop arr 0 0 0) as [r|e] eqn:Hloop; [| done].
  simpl in H. destruct (arr !! r) as [c'|] eqn:Hr; [| done]. injection H as ->.
  apply max_cell_level_loop_parsed in Hloop.
  pose proof (Forall_lookup_1 _ _ _ _ Hloop Hr) as (l & n & Hl & _).
  exists l. split; [done |]. unfold Cell_str. rewrite Hl.
  destruct (essid c) as [e|]; [| done]. by rewrite string_app_assoc.
Qed.

(** *** The blocks of [get_cells] *)

Lemma rev_onto_app (s acc : string) : rev_onto s acc = rev s ++ acc.
Proof.
  revert acc. induction s as [|c s IH]; intros acc; [done |].
  unfold rev. cbn [rev_onto]. rewrite (IH (String c acc)), (IH (String c EmptyString)).
  by rewrite string_app_assoc.
Qed.

Lemma rev_cons_app (c : ascii) (cur r : string) :
  rev (String c cur) ++ r = rev cur ++ String c r.
Proof.
  unfold rev at 1. cbn [rev_onto]. rewrite rev_onto_app.
  by rewrite string_app_assoc.
Qed.

Lemma drop_app_length (a b : string) : drop (String.length a) (a ++ b) = b.
Proof. induction a as [|x a IH]; simpl; [by destruct b | done]. Qed.

Lemma join_cons (sep p : string) (rest : list string) :
  rest ≠ [] → join sep (p :: rest) = p ++ sep ++ join sep rest.
Proof. by destruct rest. Qed.

Lemma split_go_join (sep : string) :
  sep ≠ EmptyString →
  ∀ (s : string) (k : nat) (cur : string),
    (k ≤ String.length s)%nat →
    join sep (split_go sep s k cur) = rev cur ++ drop k s.
Proof.
  intros Hsep. induction s as [|c s IH]; intros k cur Hk.
  - cbn [String.length] in Hk. assert (k = 0%nat) as -> by lia.
    cbn [split_go join drop]. by rewrite append_empty_r.
  - destruct k as [|k].
    + cbn [split_go drop].
      destruct (starts_with sep (String c s)) eqn:Hst.
      * apply starts_with_true in Hst as [rest Hrest].
        destruct sep as [|x sep']; [done |].
        cbn [String.append] in Hrest. injection Hrest as <- ->.
        rewrite join_cons by apply split_go_not_nil.
        cbn [String.length]. rewrite Nat.sub_succ, Nat.sub_0_r.
        rewrite IH.
        -- rewrite drop_app_length. reflexivity.
        -- clear. induction sep' as [|y sep' IH]; simpl; lia.
      * rewrite IH by lia. cbn [drop]. apply rev_cons_app.
    + cbn [split_go drop]. apply IH. cbn [String.length] in Hk. lia.
Qed.

Lemma length_append (a b : string) :
  String.length (a ++ b) = (String.length a + String.length b)%nat.
Proof. induction a as [|x a IH]; simpl; [done | by rewrite IH]. Qed.

Lemma length_rev (s : string) : String.length (rev s) = String.length s.
Proof.
  induction s as [|c s IH]; [done |].
  unfold rev. cbn [rev_onto]. rewrite rev_onto_app, length_append, IH. simpl. lia.
Qed.

Lemma drop_app (i : nat) (a b : string) :
  (i ≤ String.length a)%nat → drop i (a ++ b) = drop i a ++ b.
Proof.
  revert a. induction i as [|i IH]; intros a Hi; [by destruct a |].
  destruct a as [|x a]; simpl in Hi; [lia |]. simpl. apply IH. lia.
Qed.

Lemma drop_all (i : nat) (a : string) :
  (String.length a ≤ i)%nat → drop i a = EmptyString.
Proof.
  revert a. induction i as [|i IH]; intros [|x a] Hi; simpl in *; try done; [lia |].
  apply IH. lia.
Qed.

Lemma starts_with_app (sep a b : string) :
  starts_with sep a = true → starts_with sep (a ++ b) = true.
Proof.
  intros H. apply starts_with_true in H as [r ->]. apply starts_with_true.
  exists (r ++ b). apply string_app_assoc.
Qed.

Lemma starts_with_empty (sep : string) :
  sep ≠ EmptyString → starts_with sep EmptyString = false.
Proof. by destruct sep. Qed.

Lemma occurs_false (sep t : string) :
  (∀ i, starts_with sep (drop i t) = false) → occurs sep t = false.
Proof.
  induction t as [|c t IH]; intros H; pose proof (H 0%nat) as H0; simpl in H0;
    cbn [occurs]; rewrite H0; [done |].
  simpl. apply IH. intros i. exact (H (S i)).
Qed.

(** A piece that is clean when the text ends, or when the separator
    follows, holds no separator. *)
Lemma clean_piece (sep cur s : string) :
  sep ≠ EmptyString → clean sep cur s → occurs sep (rev cur) = false.
Proof.
  intros Hsep Hclean. apply occurs_false. intros i.
  destruct (decide (i < String.length cur)%nat) as [Hi | Hi].
  - destruct (starts_with sep (drop i (rev cur))) eqn:Hst; [| done].
    apply (starts_with_app _ _ s) in Hst.
    rewrite <- drop_app in Hst by (rewrite length_rev; lia).
    by rewrite (Hclean i Hi) in Hst.
  - rewrite drop_all by (rewrite length_rev; lia). by apply starts_with_empty.
Qed.

Lemma clean_next (sep cur r : string) (c : ascii) :
  clean sep cur (String c r) → starts_with sep (String c r) = false →
  clean sep (String c cur) r.
Proof.
  intros Hclean Hst i Hi. rewrite rev_cons_app. cbn [String.length] in Hi.
  destruct (decide (i < String.length cur)%nat) as [Hlt | Hge]; [by apply Hclean |].
  assert (i = String.length (rev cur)) as -> by (rewrite length_rev; lia).
  by rewrite drop_app_length.
Qed.

(** No piece [split] cuts holds the separator. *)
Lemma split_go_clean (sep : string) :
  sep ≠ EmptyString →
  ∀ s : string,
    (∀ cur, clean sep cur s →
       Forall (λ p, occurs sep p = false) (split_go sep s 0 cur)) ∧
    (∀ k, Forall (λ p, occurs sep p = false) (split_go sep s k EmptyString)).
Proof.
  intros Hsep.
  assert (clean_nil : ∀ s, clean sep EmptyString s) by (intros s i Hi; simpl in Hi; lia).
  induction s as [|c s [IH0 IHk]].
  - assert (∀ cur, clean sep cur EmptyString →
              Forall (λ p, occurs sep p = false) (split_go sep EmptyString 0 cur)) as H0.
    { intros cur Hclean. cbn [split_go]. apply Forall_singleton.
      by apply (clean_piece sep cur EmptyString). }
    split; [exact H0 |]. intros k. destruct k; by apply H0.
  - assert (∀ cur, clean sep cur (String c s) →
              Forall (λ p, occurs sep p = false) (split_go sep (String c s) 0 cur)) as H0.
    { intros cur Hclean. cbn [split_go].
      destruct (starts_with sep (String c s)) eqn:Hst.
      - apply Forall_cons. split; [by apply (clean_piece sep cur (String c s)) |].
        apply IHk.
      - apply IH0. by apply clean_next. }
    split; [exact H0 |]. intros [|k]; [by apply H0 |]. cbn [split_go]. apply IHk.
Qed.

(** X11: the blocks [get_cells] reads are the text between the occurrences
    of the word Cell: the scan is the text before the first occurrence
    and the blocks, each written after the word; the word occurs in none
    of them; and the cells are read from the blocks, one from each. *)
Theorem get_cells_between_words (s : string) :
  ∃ head blocks,
    s = join "Cell" (head :: blocks) ∧
    occurs "Cell" head = false ∧
    Forall (λ b, occurs "Cell" b = false) blocks ∧
    get_cells s = (λ b, mkCell (get_essid b) (get_level b)) <$> blocks.
Proof.
  assert ("Cell" ≠ EmptyString) as Hsep by discriminate.
  pose proof (split_go_join "Cell" Hsep s 0 EmptyString ltac:(lia)) as Hjoin.
  destruct (split_go_clean "Cell" Hsep s) as [_ Hclean]. specialize (Hclean 0%nat).
  pose proof (get_cells_blocks s) as Hcells. unfold split in Hcells.
  destruct (split_go "Cell" s 0 EmptyString) as [|head blocks] eqn:Hsplit.
  { by destruct (split_go_not_nil "Cell" s 0 EmptyString). }
  apply Forall_cons in Hclean as [Hhead Hblocks].
  exists head, blocks. split; [by rewrite Hjoin |]. by split; [| split].
Qed.

(** X3: the pieces of the text after the first are the blocks of the cells,
    in their order; the text before the first separator gives no cell. *)
Theorem get_cells_one_per_block (s : string) :
  length (get_cells s) = (length (split "Cell" s) - 1)%nat ∧
  ∀ i, get_cells s !! i =
       (λ a, mkCell (get_essid a) (get_level a)) <$> (split "Cell" s !! S i).
Proof.
  rewrite get_cells_blocks. split.
  - rewrite length_fmap. destruct (split "Cell" s); simpl; lia.
  - intros i. rewrite list_lookup_fmap. f_equal. by destruct (split "Cell" s).
Qed.

Local Open Scope list_scope.

(** ** More on the supervisor *)

Section Liveness.
Variable env : nat → list string → option (option nat * Z).

Lemma wait_two_terminates (body : M bool) (k1 k2 : kind) (n1 n2 : nat)
    (s : controller) :
  watches_two body k1 k2 n1 n2 s →
  ∀ fuel w p1 p2 d1 d2,
    procs w !! n1 = Some p1 → procs w !! n2 = Some p2 →
    ends_by_itself p1 d1 → ends_by_itself p2 d2 →
    (p_start p1 ≤ now w)%nat → (p_start p2 ≤ now w)%nat →
    (p_start p1 + d1 - now w < fuel)%nat → (p_start p2 + d2 - now w < fuel)%nat →
    ∃ st',
      while_true body fuel
        (set_proc k1 (Some (mkPopen n1 None)) (set_proc k2 (Some (mkPopen n2 None)) s), w)
      = Returns tt st'.
Proof.
  intros Hbody fuel w p1 p2 d1 d2 Hp1 Hp2 Hends1 Hends2 Hstart1 Hstart2 Hfuel1 Hfuel2.
  pose (I := λ st : state,
    ∃ rc1 rc2 w',
      st = (set_proc k1 (Some (mkPopen n1 rc1))
              (set_proc k2 (Some (mkPopen n2 rc2)) s), w') ∧
      waited [n1; n2] w w' ∧ recorded w' n1 rc1 ∧ recorded w' n2 rc2).
  pose (mu := λ st : state,
    (Nat.max (p_start p1 + d1) (p_start p2 + d2) - now (snd st))%nat).
  apply (while_true_terminates I mu body).
  - intros st (rc1 & rc2 & w1 & -> & Hw & Hrec1 & Hrec2).
    destruct (Hbody rc1 rc2 w1 Hrec1 Hrec2)
      as (rc1' & rc2' & -> & Hrec1' & Hrec2' & Hrun1 & Hrun2).
    assert (waited [n1; n2] w (after_poll n2 (after_poll n1 w1))) as Hw'.
    { apply waited_poll; [apply elem_of_cons; right; by apply list_elem_of_singleton |].
      apply waited_poll; [apply elem_of_cons; by left | done]. }
    destruct Hw as (Hprocs & _ & Hnow & _).
    rewrite <- Hprocs in Hp1, Hp2.
    destruct rc1' as [c1|], rc2' as [c2|]; simpl; [done | | |].
    + split; [by exists (Some c1), None, (after_poll n2 (after_poll n1 w1)) |].
      pose proof (not_over_ends p2 d2 (now w1 + 1) Hends2 ltac:(lia)
                    (Hrun2 eq_refl p2 Hp2)).
      unfold mu. simpl. lia.
    + split; [by exists None, (Some c2), (after_poll n2 (after_poll n1 w1)) |].
      pose proof (not_over_ends p1 d1 (now w1) Hends1 ltac:(lia)
                    (Hrun1 eq_refl p1 Hp1)).
      unfold mu. simpl. lia.
    + split; [by exists None, None, (after_poll n2 (after_poll n1 w1)) |].
      pose proof (not_over_ends p1 d1 (now w1) Hends1 ltac:(lia)
                    (Hrun1 eq_refl p1 Hp1)).
      unfold mu. simpl. lia.
  - exists None, None, w. split; [done |]. split; [apply waited_refl |].
    split; by intros c.
  - unfold mu. simpl. lia.
Qed.

Lemma single_terminates (k : kind) (body : M bool) (line : string) (fuel : nat)
    (args : list string) (s1 : controller) (w1 : world) (d : nat) (c : Z) :
  watches_one body k (length (procs w1)) s1 →
  (d < fuel)%nat →
  ∃ st',
    and_then
      (while_true body fuel
         (set_proc k (Some (mkPopen (length (procs w1)) None)) s1,
          spawned k args (Some d) c w1))
      (finish line) = Returns tt st'.
Proof.
  intros Hbody Hfuel.
  destruct (wait_one_terminates body k (length (procs w1)) s1 Hbody fuel
              (spawned k args (Some d) c w1)
              (mkProc k args (now w1) (Some d) c None) d) as [st' Hterm].
  - simpl. apply lookup_new.
  - done.
  - simpl. lia.
  - simpl. lia.
  - rewrite Hterm. simpl. by eexists.
Qed.

Lemma joint_terminates (k1 k2 : kind) (body : M bool) (line : string) (fuel : nat)
    (args1 args2 : list string) (s1 : controller) (w1 : world)
    (d1 d2 : nat) (c1 c2 : Z) :
  watches_two body k1 k2 (length (procs w1)) (S (length (procs w1))) s1 →
  (d1 < fuel)%nat → (d2 < fuel)%nat →
  ∃ st',
    and_then
      (while_true body fuel
         (set_proc k1 (Some (mkPopen (length (procs w1)) None))
            (set_proc k2 (Some (mkPopen (S (length (procs w1))) None)) s1),
          spawned k2 args2 (Some d2) c2 (spawned k1 args1 (Some d1) c1 w1)))
      (finish line) = Returns tt st'.
Proof.
  intros Hbody Hfuel1 Hfuel2.
  destruct (wait_two_terminates body k1 k2 (length (procs w1)) (S (length (procs w1)))
              s1 Hbody fuel
              (spawned k2 args2 (Some d2) c2 (spawned k1 args1 (Some d1) c1 w1))
              (mkProc k1 args1 (now w1) (Some d1) c1 None)
              (mkProc k2 args2 (now w1 + 1) (Some d2) c2 None) d1 d2)
    as [st' Hterm].
  - simpl. rewrite <- app_assoc. apply lookup_new.
  - simpl. rewrite <- app_assoc. apply lookup_new_next.
  - done.
  - done.
  - simpl. lia.
  - simpl. lia.
  - simpl. lia.
  - simpl. lia.
  - rewrite Hterm. simpl. by eexists.
Qed.

(** The outcome of a single operation, for either of them. *)
Lemma run_single_outcome (o : op) (k : kind) (fuel : nat) (s : controller) (w : world) :
  single_job o = Some k →
    let n := length (procs w) in
    let w1 := printed (start_line o) w in
    let s1 := primed o s in
    let line := done_line o in
    match run_op env o fuel (s, w) with
    | Returns _ (s', w') =>
        ∃ life code c wl,
          launch env n (args_for s k) = Ok (life, code) ∧
          s' = set_proc k (Some (mkPopen n (Some c))) s1 ∧
          waited [n] (spawned k (args_for s k) life code w1) wl ∧
          recorded wl n (Some c) ∧
          w' = printed line wl
    | Raises e (s', w') =>
        launch env n (args_for s k) = Err e ∧ s' = s1 ∧ w' = w1
    | Spins (s', w') =>
        ∃ life code rc,
          launch env n (args_for s k) = Ok (life, code) ∧
          s' = set_proc k (Some (mkPopen n rc)) s1 ∧
          waited [n] (spawned k (args_for s k) life code w1) w'
    end.
Proof.
  intros Hk. destruct o; simpl in Hk; try done; injection Hk as <-.
  - exact (start_usrp_outcome env fuel s w).
  - exact (start_controller_outcome env tt fuel s w).
Qed.

(** The same for the two operations that wait for two jobs. *)
Lemma run_joint_outcome (o : op) (k1 k2 : kind) (fuel : nat)
    (s : controller) (w : world) :
  joint_jobs o = Some (k1, k2) →
    let n := length (procs w) in
    let w1 := printed (start_line o) w in
    let s1 := primed o s in
    let line := done_line o in
    match run_op env o fuel (s, w) with
    | Returns _ (s', w') =>
        ∃ life1 code1 life2 code2 c1 c2 wl,
          launch env n (args_for s k1) = Ok (life1, code1) ∧
          launch env (S n) (args_for s k2) = Ok (life2, code2) ∧
          s' = set_proc k1 (Some (mkPopen n (Some c1)))
                 (set_proc k2 (Some (mkPopen (S n) (Some c2))) s1) ∧
          waited [n; S n]
            (spawned k2 (args_for s k2) life2 code2
               (spawned k1 (args_for s k1) life1 code1 w1)) wl ∧
          recorded wl n (Some c1) ∧ recorded wl (S n) (Some c2) ∧
          w' = printed line wl
    | Raises e (s', w') =>
        ((launch env n (args_for s k1) = Err e ∧ s' = s1 ∧ w' = w1) ∨
         (∃ life1 code1,
            launch env n (args_for s k1) = Ok (life1, code1) ∧
            launch env (S n) (args_for s k2) = Err e ∧
            s' = set_proc k1 (Some (mkPopen n None)) s1 ∧
            w' = spawned k1 (args_for s k1) life1 code1 w1))
    | Spins (s', w') =>
        ∃ life1 code1 life2 code2 rc1 rc2,
          launch env n (args_for s k1) = Ok (life1, code1) ∧
          launch env (S n) (args_for s k2) = Ok (life2, code2) ∧
          s' = set_proc k1 (Some (mkPopen n rc1))
                 (set_proc k2 (Some (mkPopen (S n) rc2)) s1) ∧
          waited [n; S n]
            (spawned k2 (args_for s k2) life2 code2
               (spawned k1 (args_for s k1) life1 code1 w1)) w'
    end.
Proof.
  intros Hk. destruct o; simpl in Hk; try done; injection Hk as <- <-.
  - cbv zeta. cbn [run_op]. rewrite start_usrp_controller_eq.
    exact (joint_outcome env Usrp Controller _
             ("Done sensing with added interference" ++ nl)%string
             fuel (capture_args s) (sg_controller_args s)
             (set_usrp_control_args (capture_args s) s)
             (printed ("Running USRP with interference injected..." ++ nl)%string w)
             (watches_both Usrp Controller _ _ _ ltac:(done))).
  - cbv zeta. cbn [run_op]. rewrite start_iperf_eq.
    exact (joint_outcome env IperfClient IperfServer _
             ("Done running iperf" ++ nl)%string
             fuel (iperf_client_args s) (iperf_server_args s) s
             (printed ("Running iperf..." ++ nl)%string w)
             (watches_both IperfClient IperfServer _ _ _ ltac:(done))).
Qed.

Lemma run_single_terminates (o : op) (k : kind) (fuel : nat) (s : controller)
    (w : world) (d : nat) (c : Z) :
  single_job o = Some k →
  launch env (length (procs w)) (args_for s k) = Ok (Some d, c) → (d < fuel)%nat →
  ∃ st, run_op env o fuel (s, w) = Returns tt st.
Proof.
  intros Hk Henv Hfuel. destruct o; simpl in Hk; try done; injection Hk as <-;
    cbn [run_op args_for] in *.
  - rewrite start_usrp_eq. cbv zeta. rewrite Henv.
    exact (single_terminates Usrp _ _ fuel (capture_args s)
             (set_usrp_control_args (capture_args s) s)
             (printed ("Running USRP..." ++ nl)%string w) d c
             (watches_poll Usrp _ _) Hfuel).
  - rewrite start_controller_eq. cbv zeta. rewrite Henv.
    exact (single_terminates Controller _ _ fuel (sg_controller_args s) s
             (printed ("Running interference..." ++ nl)%string w) d c
             (watches_poll Controller _ _) Hfuel).
Qed.

Lemma run_joint_terminates (o : op) (k1 k2 : kind) (fuel : nat) (s : controller)
    (w : world) (d1 d2 : nat) (c1 c2 : Z) :
  joint_jobs o = Some (k1, k2) →
  launch env (length (procs w)) (args_for s k1) = Ok (Some d1, c1) →
  launch env (S (length (procs w))) (args_for s k2) = Ok (Some d2, c2) →
  (d1 < fuel)%nat → (d2 < fuel)%nat →
  ∃ st, run_op env o fuel (s, w) = Returns tt st.
Proof.
  intros Hk Henv1 Henv2 Hfuel1 Hfuel2.
  destruct o; simpl in Hk; try done; injection Hk as <- <-;
    cbn [run_op args_for] in *.
  - rewrite start_usrp_controller_eq. cbv zeta. rewrite Henv1, Henv2.
    exact (joint_terminates Usrp Controller _ _ fuel (capture_args s)
             (sg_controller_args s) (set_usrp_control_args (capture_args s) s)
             (printed ("Running USRP with interference injected..." ++ nl)%string w)
             d1 d2 c1 c2 (watches_both Usrp Controller _ _ _ ltac:(done))
             Hfuel1 Hfuel2).
  - rewrite start_iperf_eq. cbv zeta. rewrite Henv1, Henv2.
    exact (joint_terminates IperfClient IperfServer _ _ fuel (iperf_client_args s)
             (iperf_server_args s) s
             (printed ("Running iperf..." ++ nl)%string w)
             d1 d2 c1 c2 (watches_both IperfClient IperfServer _ _ _ ltac:(done))
             Hfuel1 Hfuel2).
Qed.

(** X12: [start_usrp] and [start_controller] return exactly when the job
    they start ends by itself; a job that runs for ever keeps them in
    their loop whatever the fuel. *)
Theorem start_single_liveness (o : op) (k : kind) (s : controller) (w : world) :
  single_job o = Some k →
  (∀ fuel st, run_op env o fuel (s, w) = Returns tt st →
     ∃ d c, launch env (length (procs w)) (args_for s k) = Ok (Some d, c)) ∧
  (∀ d c fuel, launch env (length (procs w)) (args_for s k) = Ok (Some d, c) →
     (d < fuel)%nat → ∃ st, run_op env o fuel (s, w) = Returns tt st) ∧
  (∀ c fuel, launch env (length (procs w)) (args_for s k) = Ok (None, c) →
     ∃ st, run_op env o fuel (s, w) = Spins st).
Proof.
  intros Hk.
  assert (∀ fuel st, run_op env o fuel (s, w) = Returns tt st →
            ∃ d c, launch env (length (procs w)) (args_for s k) = Ok (Some d, c)) as Hret.
  { intros fuel [s' w'] Hrun.
    pose proof (run_single_outcome o k fuel s w Hk) as H.
    cbv zeta in H. rewrite Hrun in H.
    destruct H as (life & code & c & wl & Henv & _ & Hw & Hrec & _).
    destruct (Hrec c eq_refl) as (p & Hp & Hover).
    rewrite (waited_lookup _ _ _ _ Hw) in Hp. simpl in Hp.
    rewrite lookup_new in Hp. injection Hp as <-.
    destruct (over_unkilled _ _ Hover eq_refl) as [d Hd]. simpl in Hd. subst life.
    by exists d, code. }
  split; [exact Hret |]. split.
  - intros d c fuel Henv Hfuel. by apply (run_single_terminates o k fuel s w d c).
  - intros c fuel Henv.
    pose proof (run_single_outcome o k fuel s w Hk) as H.
    cbv zeta in H.
    destruct (run_op env o fuel (s, w)) as [[] st | e [s' w'] | st] eqn:Hrun.
    + destruct (Hret fuel st Hrun) as (d & c' & Henv'). congruence.
    + destruct H as (Henv' & _). congruence.
    + by exists st.
Qed.

(** X13: [start_usrp_controller] and [start_iperf] return exactly when both
    jobs end by themselves; when one of them runs for ever they stay
    in their loop. *)
Theorem start_joint_liveness (o : op) (k1 k2 : kind) (s : controller) (w : world) :
  joint_jobs o = Some (k1, k2) →
  (∀ fuel st, run_op env o fuel (s, w) = Returns tt st →
     ∃ d1 d2, both_launched env s w k1 k2 (Some d1) (Some d2)) ∧
  (∀ d1 d2 fuel, both_launched env s w k1 k2 (Some d1) (Some d2) →
     (d1 < fuel)%nat → (d2 < fuel)%nat →
     ∃ st, run_op env o fuel (s, w) = Returns tt st) ∧
  (∀ life1 life2 fuel, both_launched env s w k1 k2 life1 life2 →
     life1 = None ∨ life2 = None →
     ∃ st, run_op env o fuel (s, w) = Spins st).
Proof.
  intros Hk.
  assert (∀ fuel st, run_op env o fuel (s, w) = Returns tt st →
            ∃ d1 d2, both_launched env s w k1 k2 (Some d1) (Some d2)) as Hret.
  { intros fuel [s' w'] Hrun.
    pose proof (run_joint_outcome o k1 k2 fuel s w Hk) as H.
    cbv zeta in H. rewrite Hrun in H.
    destruct H as (l1 & c1 & l2 & c2 & r1 & r2 & wl & Henv1 & Henv2 & _ & Hw
                   & Hrec1 & Hrec2 & _).
    destruct (Hrec1 r1 eq_refl) as (p1 & Hp1 & Hover1).
    destruct (Hrec2 r2 eq_refl) as (p2 & Hp2 & Hover2).
    rewrite (waited_lookup _ _ _ _ Hw) in Hp1.
    rewrite (waited_lookup _ _ _ _ Hw) in Hp2. simpl in Hp1, Hp2.
    rewrite <- app_assoc in Hp1, Hp2. simpl in Hp1, Hp2.
    rewrite lookup_new in Hp1. rewrite lookup_new_next in Hp2.
    injection Hp1 as <-. injection Hp2 as <-.
    destruct (over_unkilled _ _ Hover1 eq_refl) as [d1 Hd1].
    destruct (over_unkilled _ _ Hover2 eq_refl) as [d2 Hd2].
    simpl in Hd1, Hd2. subst l1 l2.
    by exists d1, d2, c1, c2. }
  split; [exact Hret |]. split.
  - intros d1 d2 fuel (c1 & c2 & Henv1 & Henv2) Hfuel1 Hfuel2.
    by apply (run_joint_terminates o k1 k2 fuel s w d1 d2 c1 c2).
  - intros life1 life2 fuel (c1 & c2 & Henv1 & Henv2) Hnone.
    pose proof (run_joint_outcome o k1 k2 fuel s w Hk) as H.
    cbv zeta in H.
    destruct (run_op env o fuel (s, w)) as [[] st | e [s' w'] | st] eqn:Hrun.
    + destruct (Hret fuel st Hrun) as (d1 & d2 & c1' & c2' & Henv1' & Henv2').
      destruct Hnone; congruence.
    + destruct H as [(Henv' & _) | (l1 & c1' & _ & Henv' & _)]; congruence.
    + by exists st.
Qed.

End Liveness.

Section Logs.
Variable env : nat → list string → option (option nat * Z).

Lemma grown_refl (w : world) : grown w w [] [] [].
Proof. unfold grown. by rewrite !app_nil_r. Qed.

Lemma grown_printed (w w1 : world) (line : string) (L : list string)
    (E : list event) (N : list osproc) :
  grown w w1 L E N → grown w (printed line w1) (L ++ [line]) E N.
Proof.
  intros (Hout & Htr & Hps & HE & HN). repeat split; simpl; try done.
  by rewrite Hout, app_assoc.
Qed.

Lemma grown_spawned (w w1 : world) (k : kind) (args : list string)
    (life : option nat) (code : Z) (L : list string) (E : list event)
    (N : list osproc) :
  grown w w1 L E N →
  grown w (spawned k args life code w1) L (E ++ [EvSpawn k (length (procs w1))])
    (N ++ [mkProc k args (now w1) life code None]).
Proof.
  intros (Hout & Htr & Hps & HE & HN). repeat split; simpl; try done.
  - by rewrite Htr, app_assoc.
  - by rewrite Hps, app_assoc.
  - apply Forall_app. split; [done |]. by apply Forall_singleton.
  - apply Forall_app. split; [done |]. by apply Forall_singleton.
Qed.

Lemma grown_waited (w w1 wl : world) (ns : list nat) (L : list string)
    (E : list event) (N : list osproc) :
  grown w w1 L E N → waited ns w1 wl → ∃ E', grown w wl L E' N.
Proof.
  intros (Hout & Htr & Hps & HE & HN) (Hprocs & Hstd & _ & evs & Hevs & Hpolls).
  exists (E ++ evs). repeat split; try done.
  - by rewrite Hstd.
  - by rewrite Hevs, Htr, app_assoc.
  - by rewrite Hprocs.
  - apply Forall_app. split; [done |].
    eapply Forall_impl; [exact Hpolls |]. by intros e (n & _ & ->).
Qed.

Lemma grown_unkilled (w w' : world) (L : list string) (E : list event)
    (N : list osproc) :
  grown w w' L E N →
  ∀ pid p, procs w' !! pid = Some p → (length (procs w) ≤ pid)%nat →
           p_killed p = None.
Proof.
  intros (_ & _ & Hps & _ & HN) pid p Hp Hpid.
  rewrite Hps, lookup_app_r in Hp by done.
  exact (Forall_lookup_1 _ _ _ _ HN Hp).
Qed.

(** The log of an outcome whose world has only grown. *)
Lemma grown_log (o : op) (s : controller) (w : world) (out : outcome unit)
    (E : list event) (N : list osproc) :
  grown w (snd (final out))
    (start_line o :: (if returned out then [done_line o] else [])) E N →
  (∀ k, k ∉ plan s o → get_proc k (fst (final out)) = get_proc k s) →
  same_tools s (fst (final out)) →
  (∀ e st, out = Raises e st →
     ∃ k, k ∈ plan s o ∧ launch env (length (procs (snd st))) (args_for s k) = Err e) →
  op_log env o s w out.
Proof.
  intros Hg Hh Ht Hr. pose proof Hg as (Hout & Htr & _ & HE & _).
  split; [done |]. split; [done |]. split; [done |]. split; [| done].
  exists E. split; [done |]. right. split; [done |].
  by apply (grown_unkilled _ _ _ _ _ Hg).
Qed.

Lemma op_shape (o : op) :
  (∃ k, single_job o = Some k) ∨ (∃ k1 k2, joint_jobs o = Some (k1, k2)) ∨
  o = StartUsrpIperf.
Proof. destruct o; eauto. Qed.

Ltac other_handle :=
  let k := fresh "k" in
  let Hk := fresh "Hk" in
  intros k Hk; destruct k; try reflexivity;
  exfalso; apply Hk; repeat constructor.

Lemma single_log (o : op) (k : kind) (fuel : nat) (s : controller) (w : world) :
  single_job o = Some k → op_log env o s w (run_op env o fuel (s, w)).
Proof.
  intros Hk. pose proof (run_single_outcome env o k fuel s w Hk) as H. cbv zeta in H.
  assert (plan s o = [k] ∧ same_tools s (primed o s) ∧
          ∀ k', get_proc k' (primed o s) = get_proc k' s) as (Hplan & Htools & Hprimed).
  { destruct o; simpl in Hk; try done; injection Hk as <-; by repeat split. }
  pose proof (grown_printed w w (start_line o) [] [] [] (grown_refl w)) as Hg1.
  simpl in Hg1.
  destruct (run_op env o fuel (s, w)) as [[] [s' w'] | e [s' w'] | [s' w']].
  - destruct H as (life & code & c & wl & Henv & -> & Hw & Hrec & ->).
    pose proof (grown_spawned _ _ k (args_for s k) life code _ _ _ Hg1) as Hg2.
    destruct (grown_waited _ _ _ _ _ _ _ Hg2 Hw) as [E Hg3].
    apply (grown_log o s w _ E ([] ++ [mkProc k (args_for s k) (now w) life code None])).
    + exact (grown_printed _ _ (done_line o) _ _ _ Hg3).
    + rewrite Hplan. simpl. intros k' Hk'. rewrite get_set_proc_ne; [apply Hprimed |].
      intros ->. apply Hk'. by apply list_elem_of_singleton.
    + exact Htools.
    + done.
  - destruct H as (Henv & -> & ->).
    apply (grown_log o s w _ [] []).
    + exact Hg1.
    + intros k' _. apply Hprimed.
    + exact Htools.
    + intros e' st [= <- <-]. exists k.
      rewrite Hplan. split; [by apply list_elem_of_singleton | exact Henv].
  - destruct H as (life & code & rc & Henv & -> & Hw).
    pose proof (grown_spawned _ _ k (args_for s k) life code _ _ _ Hg1) as Hg2.
    destruct (grown_waited _ _ _ _ _ _ _ Hg2 Hw) as [E Hg3].
    apply (grown_log o s w _ E ([] ++ [mkProc k (args_for s k) (now w) life code None])).
    + exact Hg3.
    + rewrite Hplan. simpl. intros k' Hk'. rewrite get_set_proc_ne; [apply Hprimed |].
      intros ->. apply Hk'. by apply list_elem_of_singleton.
    + exact Htools.
    + done.
Qed.

Lemma joint_log (o : op) (k1 k2 : kind) (fuel : nat) (s : controller) (w : world) :
  joint_jobs o = Some (k1, k2) → op_log env o s w (run_op env o fuel (s, w)).
Proof.
  intros Hk. pose proof (run_joint_outcome env o k1 k2 fuel s w Hk) as H. cbv zeta in H.
  assert (plan s o = [k1; k2] ∧ same_tools s (primed o s) ∧
          ∀ k', get_proc k' (primed o s) = get_proc k' s) as (Hplan & Htools & Hprimed).
  { destruct o; simpl in Hk; try done; injection Hk as <- <-; by repeat split. }
  assert (∀ h1 h2 k', k' ∉ [k1; k2] →
            get_proc k' (set_proc k1 h1 (set_proc k2 h2 (primed o s))) = get_proc k' s)
    as Hother.
  { intros h1 h2 k' Hk'.
    rewrite !get_set_proc_ne; [apply Hprimed | |];
      intros ->; apply Hk'; repeat constructor. }
  pose proof (grown_printed w w (start_line o) [] [] [] (grown_refl w)) as Hg1.
  simpl in Hg1.
  destruct (run_op env o fuel (s, w)) as [[] [s' w'] | e [s' w'] | [s' w']].
  - destruct H as (l1 & c1 & l2 & c2 & r1 & r2 & wl & Henv1 & Henv2 & -> & Hw & _ & _ & ->).
    pose proof (grown_spawned _ _ k1 (args_for s k1) l1 c1 _ _ _ Hg1) as Hg2.
    pose proof (grown_spawned _ _ k2 (args_for s k2) l2 c2 _ _ _ Hg2) as Hg3.
    destruct (grown_waited _ _ _ _ _ _ _ Hg3 Hw) as [E Hg4].
    eapply (grown_log o s w _ E).
    + exact (grown_printed _ _ (done_line o) _ _ _ Hg4).
    + rewrite Hplan. simpl. intros k' Hk'. by apply Hother.
    + exact Htools.
    + done.
  - destruct H as [(Henv & -> & ->) | (l1 & c1 & Henv1 & Henv2 & -> & ->)].
    + apply (grown_log o s w _ [] []).
      * exact Hg1.
      * intros k' _. apply Hprimed.
      * exact Htools.
      * intros e' st [= <- <-]. exists k1.
        rewrite Hplan. split; [by apply elem_of_cons; left | exact Henv].
    + pose proof (grown_spawned _ _ k1 (args_for s k1) l1 c1 _ _ _ Hg1) as Hg2.
      eapply (grown_log o s w _ _ _).
      * exact Hg2.
      * rewrite Hplan. simpl. intros k' Hk'.
        rewrite get_set_proc_ne; [apply Hprimed |].
        intros ->. apply Hk'. repeat constructor.
      * exact Htools.
      * intros e' st [= <- <-]. exists k2.
        rewrite Hplan. split; [repeat constructor |].
        simpl. rewrite length_app. simpl. rewrite Nat.add_1_r. exact Henv2.
  - destruct H as (l1 & c1 & l2 & c2 & r1 & r2 & Henv1 & Henv2 & -> & Hw).
    pose proof (grown_spawned _ _ k1 (args_for s k1) l1 c1 _ _ _ Hg1) as Hg2.
    pose proof (grown_spawned _ _ k2 (args_for s k2) l2 c2 _ _ _ Hg2) as Hg3.
    destruct (grown_waited _ _ _ _ _ _ _ Hg3 Hw) as [E Hg4].
    eapply (grown_log o s w _ E).
    + exact Hg4.
    + rewrite Hplan. simpl. intros k' Hk'. by apply Hother.
    + exact Htools.
    + done.
Qed.

Lemma usrp_iperf_alone_log (fuel : nat) (s : controller) (w : world) :
  truthy (iperf_client_addr s) = false →
  op_log env StartUsrpIperf s w (start_usrp_iperf env fuel (s, w)).
Proof.
  intros Hc. pose proof (start_usrp_iperf_alone_outcome env fuel s w Hc) as H.
  cbv zeta in H.
  assert (plan s StartUsrpIperf = [IperfServer; Usrp]) as Hplan
    by (simpl; by rewrite Hc).
  pose proof (grown_printed w w (start_line StartUsrpIperf) [] [] [] (grown_refl w))
    as Hg1.
  simpl in Hg1.
  destruct (start_usrp_iperf env fuel (s, w)) as [[] [s' w'] | e [s' w'] | [s' w']].
  - destruct H as (ls & cs & lu & cu & c & wl & rcs & ps' & _ & _ & Hw & _ & _ & -> & ->).
    pose proof (grown_spawned _ _ IperfServer (iperf_server_args s) ls cs _ _ _ Hg1)
      as Hg2.
    pose proof (grown_spawned _ _ Usrp (capture_args s) lu cu _ _ _ Hg2) as Hg3.
    destruct (grown_waited _ _ _ _ _ _ _ Hg3 Hw) as [E (Hout & Htr & _)].
    split; [| split; [| split; [| split]]].
    + simpl. by rewrite Hout, <- app_assoc.
    + rewrite Hplan. simpl. other_handle.
    + done.
    + exists (E ++ [EvKill (length (procs w))]). split; [| by left].
      simpl. by rewrite Htr, app_assoc.
    + done.
  - destruct H as [(Henv & -> & ->) | (ls & cs & Henvs & Henvu & -> & ->)].
    + apply (grown_log _ s w _ [] []); [exact Hg1 | done | done |].
      intros e' st [= <- <-]. exists IperfServer.
      rewrite Hplan. split; [repeat constructor | exact Henv].
    + pose proof (grown_spawned _ _ IperfServer (iperf_server_args s) ls cs _ _ _ Hg1)
        as Hg2.
      eapply (grown_log _ s w _ _ _); [exact Hg2 | | done |].
      * rewrite Hplan. simpl. other_handle.
      * intros e' st [= <- <-]. exists Usrp.
        rewrite Hplan. split; [repeat constructor |].
        simpl. rewrite length_app. simpl. rewrite Nat.add_1_r. exact Henvu.
  - destruct H as (ls & cs & lu & cu & rc & _ & _ & -> & Hw).
    pose proof (grown_spawned _ _ IperfServer (iperf_server_args s) ls cs _ _ _ Hg1)
      as Hg2.
    pose proof (grown_spawned _ _ Usrp (capture_args s) lu cu _ _ _ Hg2) as Hg3.
    destruct (grown_waited _ _ _ _ _ _ _ Hg3 Hw) as [E Hg4].
    eapply (grown_log _ s w _ E); [exact Hg4 | | done | done].
    rewrite Hplan. simpl. other_handle.
Qed.

Lemma usrp_iperf_client_log (fuel : nat) (s : controller) (w : world) :
  truthy (iperf_client_addr s) = true →
  op_log env StartUsrpIperf s w (start_usrp_iperf env fuel (s, w)).
Proof.
  intros Hc. pose proof (start_usrp_iperf_client_outcome env fuel s w Hc) as H.
  cbv zeta in H.
  assert (plan s StartUsrpIperf = [IperfClient; IperfServer; Usrp]) as Hplan
    by (simpl; by rewrite Hc).
  pose proof (grown_printed w w (start_line StartUsrpIperf) [] [] [] (grown_refl w))
    as Hg1.
  simpl in Hg1.
  destruct (start_usrp_iperf env fuel (s, w)) as [[] [s' w'] | e [s' w'] | [s' w']].
  - destruct H as (lc & cc & ls & cs & lu & cu & c & wl & rcc & rcs & pc' & ps'
                   & _ & _ & _ & Hw & _ & _ & _ & -> & ->).
    pose proof (grown_spawned _ _ IperfClient (iperf_client_args s) lc cc _ _ _ Hg1)
      as Hg2.
    pose proof (grown_spawned _ _ IperfServer (iperf_server_args s) ls cs _ _ _ Hg2)
      as Hg3.
    pose proof (grown_spawned _ _ Usrp (capture_args s) lu cu _ _ _ Hg3) as Hg4.
    destruct (grown_waited _ _ _ _ _ _ _ Hg4 Hw) as [E (Hout & Htr & _)].
    split; [| split; [| split; [| split]]].
    + simpl. by rewrite Hout, <- app_assoc.
    + rewrite Hplan. simpl. other_handle.
    + done.
    + exists (E ++ [EvKill (length (procs w)); EvKill (S (length (procs w)))]).
      split; [| by left]. simpl. by rewrite Htr, <- !app_assoc.
    + done.
  - destruct H as [(Henv & -> & ->)
                        | [(lc & cc & Henvc & Henvs & -> & ->)
                          | (lc & cc & ls & cs & Henvc & Henvs & Henvu & -> & ->)]].
    + apply (grown_log _ s w _ [] []); [exact Hg1 | done | done |].
      intros e' st [= <- <-]. exists IperfClient.
      rewrite Hplan. split; [repeat constructor | exact Henv].
    + pose proof (grown_spawned _ _ IperfClient (iperf_client_args s) lc cc _ _ _ Hg1)
        as Hg2.
      eapply (grown_log _ s w _ _ _); [exact Hg2 | | done |].
      * rewrite Hplan. simpl. other_handle.
      * intros e' st [= <- <-]. exists IperfServer.
        rewrite Hplan. split; [repeat constructor |].
        simpl. rewrite length_app. simpl. rewrite Nat.add_1_r. exact Henvs.
    + pose proof (grown_spawned _ _ IperfClient (iperf_client_args s) lc cc _ _ _ Hg1)
        as Hg2.
      pose proof (grown_spawned _ _ IperfServer (iperf_server_args s) ls cs _ _ _ Hg2)
        as Hg3.
      eapply (grown_log _ s w _ _ _); [exact Hg3 | | done |].
      * rewrite Hplan. simpl. other_handle.
      * intros e' st [= <- <-]. exists Usrp.
        rewrite Hplan. split; [repeat constructor |].
        simpl. rewrite !length_app. simpl. rewrite !Nat.add_1_r. exact Henvu.
  - destruct H as (lc & cc & ls & cs & lu & cu & rc & _ & _ & _ & -> & Hw).
    pose proof (grown_spawned _ _ IperfClient (iperf_client_args s) lc cc _ _ _ Hg1)
      as Hg2.
    pose proof (grown_spawned _ _ IperfServer (iperf_server_args s) ls cs _ _ _ Hg2)
      as Hg3.
    pose proof (grown_spawned _ _ Usrp (capture_args s) lu cu _ _ _ Hg3) as Hg4.
    destruct (grown_waited _ _ _ _ _ _ _ Hg4 Hw) as [E Hg5].
    eapply (grown_log _ s w _ E); [exact Hg5 | | done | done].
    rewrite Hplan. simpl. other_handle.
Qed.

Lemma run_op_log (o : op) (fuel : nat) (s : controller) (w : world) :
  op_log env o s w (run_op env o fuel (s, w)).
Proof.
  destruct (op_shape o) as [[k Hk] | [(k1 & k2 & Hk) | ->]].
  - by apply (single_log o k).
  - by apply (joint_log o k1 k2).
  - cbn [run_op]. destruct (truthy (iperf_client_addr s)) eqn:Hc.
    + by apply usrp_iperf_client_log.
    + by apply usrp_iperf_alone_log.
Qed.

End Logs.

Section Behaviour.
Variable env : nat → list string → option (option nat * Z).

(** X14: what the start operations print: the first line in every case, the
    last line exactly when they return, and nothing else. *)
Theorem start_messages (o : op) (fuel : nat) (s : controller) (w : world) :
  stdout (snd (final (run_op env o fuel (s, w)))) =
  stdout w ++
    start_line o ::
    (if returned (run_op env o fuel (s, w)) then [done_line o] else []).
Proof. by destruct (run_op_log env o fuel s w) as (H & _). Qed.

(** X15: a start operation changes the handles of the jobs it starts and
    the command line of the capture job, and no other attribute. *)
Theorem start_keeps_other_attributes (o : op) (fuel : nat) (s : controller)
    (w : world) :
  (∀ k, k ∉ plan s o →
     get_proc k (fst (final (run_op env o fuel (s, w)))) = get_proc k s) ∧
  same_tools s (fst (final (run_op env o fuel (s, w)))) ∧
  same_settings s (fst (final (run_op env o fuel (s, w)))).
Proof.
  destruct (run_op_log env o fuel s w) as (_ & Hh & Ht & _).
  destruct (run_op_effect env o fuel s w) as (news & _ & _ & Hs & _).
  split; [exact Hh | split; [exact Ht | exact Hs]].
Qed.

(** X16: no process is killed but at the end of a [start_usrp_iperf] that
    returns: in every other run the events are launches and polls, and
    the processes started carry no kill. *)
Theorem kill_only_after_capture (o : op) (fuel : nat) (s : controller) (w : world) :
  o ≠ StartUsrpIperf ∨ returned (run_op env o fuel (s, w)) = false →
  ∃ evs,
    trace (snd (final (run_op env o fuel (s, w)))) = trace w ++ evs ∧
    Forall (λ e, is_kill e = false) evs ∧
    ∀ pid p,
      procs (snd (final (run_op env o fuel (s, w)))) !! pid = Some p →
      (length (procs w) ≤ pid)%nat → p_killed p = None.
Proof.
  intros Hcase.
  destruct (run_op_log env o fuel s w) as (_ & _ & _ & (evs & Htr & Hk) & _).
  exists evs. split; [done |].
  destruct Hk as [[-> Hret] | [Hno Hprocs]]; [| done].
  destruct Hcase as [? | Hnot]; [done | congruence].
Qed.

(** The exception of a launch that fails tells why it failed. *)
Lemma launch_Err (n : nat) (args : list string) (e : exn) :
  launch env n args = Err e →
  e = IndexError ∧ args = [] ∨
  e = ValueError ∧ has_nul args = true ∨
  e = OSError ∧ env n args = None.
Proof.
  unfold launch. destruct args as [|a args]; [intros [= <-]; by left |].
  destruct (has_nul (a :: args)); [intros [= <-]; right; by left |].
  destruct (env n (a :: args)) as [child|]; [done |].
  intros [= <-]. right. by right.
Qed.

(** X17: the only exception a start operation raises is the one of a
    [Popen] that fails, for the next job of the operation:
    [IndexError] for an empty command line, [ValueError] for an
    argument with a NUL character, [OSError] when the system cannot
    start the process.  No [AttributeError] of a missing handle occurs. *)
Theorem start_raises_only_launch_failure (o : op) (fuel : nat) (s : controller)
    (w : world) (e : exn) (st : state) :
  run_op env o fuel (s, w) = Raises e st →
  ∃ k, k ∈ plan s o ∧
    launch env (length (procs (snd st))) (args_for s k) = Err e ∧
    (e = IndexError ∧ args_for s k = [] ∨
     e = ValueError ∧ has_nul (args_for s k) = true ∨
     e = OSError ∧ env (length (procs (snd st))) (args_for s k) = None).
Proof.
  intros Hrun. destruct (run_op_log env o fuel s w) as (_ & _ & _ & _ & Hr).
  destruct (Hr e st Hrun) as (k & Hk & Hl).
  exists k. split; [done |]. split; [done |]. by apply launch_Err.
Qed.

Lemma unkilled_runs_on (p : osproc) (t : nat) :
  p_killed p = None → p_life p = None → (p_start p ≤ t)%nat →
  state_at t p = Running.
Proof.
  intros Hk Hl Ht. unfold state_at, natural_state. rewrite Hk, Hl.
  by replace (t <? p_start p)%nat with false by (symmetry; apply Nat.ltb_ge; lia).
Qed.

(** X18: when the capture job cannot be started, [start_usrp_iperf] raises
    the exception of that launch and kills nothing: the iperf processes
    it has started are left, and those that do not end by themselves
    run on. *)
Theorem failed_capture_launch_leaves_iperf (fuel : nat) (s : controller) (w : world)
    (e : exn) :
  aux_launch_ok env s w → launch env (capture_pid s w) (capture_args s) = Err e →
  ∃ s' w' ps,
    start_usrp_iperf env fuel (s, w) = Raises e (s', w') ∧
    procs w' !! server_pid s w = Some ps ∧ p_kind ps = IperfServer ∧
    ∀ pid p,
      (length (procs w) ≤ pid)%nat → procs w' !! pid = Some p →
      p_kind p ≠ Usrp ∧ p_killed p = None ∧
      (p_life p = None → ∀ t, (now w ≤ t)%nat → (p_start p ≤ t)%nat →
                         state_at t p = Running).
Proof.
  intros [Hclient Hserver] Hcap. unfold capture_pid, server_pid in *.
  assert (∀ p, p_killed p = None →
            p_life p = None → ∀ t, (now w ≤ t)%nat → (p_start p ≤ t)%nat →
            state_at t p = Running) as Hrun
    by (intros p Hk Hl t _ Ht; by apply unkilled_runs_on).
  destruct (truthy (iperf_client_addr s)) eqn:Hc.
  - destruct (Hclient eq_refl) as [[lc cc] Henvc]. destruct Hserver as [[ls cs] Henvs].
    rewrite (start_usrp_iperf_client_eq env fuel s w Hc). cbv zeta.
    rewrite Henvc, Henvs, Hcap.
    eexists _, _, (mkProc IperfServer (iperf_server_args s) (now w + 1) ls cs None).
    split; [reflexivity |]. simpl. rewrite <- app_assoc. simpl.
    split; [apply lookup_new_next |]. split; [done |].
    intros pid p Hpid Hp. rewrite lookup_app_r in Hp by done.
    destruct (pid - length (procs w))%nat as [|[|?]]; simpl in Hp; [| | done];
      injection Hp as <-; (split; [done |]); (split; [done |]); by apply Hrun.
  - destruct Hserver as [[ls cs] Henvs].
    rewrite (start_usrp_iperf_alone_eq env fuel s w Hc). cbv zeta.
    rewrite Henvs, Hcap.
    eexists _, _, (mkProc IperfServer (iperf_server_args s) (now w) ls cs None).
    split; [reflexivity |]. simpl.
    split; [apply lookup_new |]. split; [done |].
    intros pid p Hpid Hp. rewrite lookup_app_r in Hp by done.
    destruct (pid - length (procs w))%nat as [|?]; simpl in Hp; [| done];
      injection Hp as <-; (split; [done |]); (split; [done |]); by apply Hrun.
Qed.

Lemma action_keeps_test_mode (cwd : string) (w0 : world) (a : action) (st : state) :
  test_mode_kept cwd w0 st → test_mode_kept cwd w0 (final (run_action env a st)).
Proof.
  destruct st as [s w]. intros (Hwd & Hsg & Hic & His & Hp). simpl in *.
  destruct a as [o fuel | f | r | x | r | m]; simpl; try done.
  pose proof (run_op_effect env o fuel s w) as Heff.
  pose proof Heff as (news & _ & _ & Hset & _).
  destruct Hset as (_ & _ & _ & _ & Hic' & His' & _ & _ & Hwd' & Hsg').
  split; [congruence |]. split; [congruence |]. split; [congruence |].
  split; [congruence |].
  intros pid p Hpid Hlook.
  destruct (decide (pid < length (procs w))%nat) as [Hold | Hnew].
  - rewrite (effect_old s w _ _ Heff pid Hold) in Hlook. by apply (Hp pid).
  - destruct (effect_new s w _ _ Heff pid p ltac:(lia) Hlook) as (Hargs & _).
    unfold test_mode_args. rewrite Hargs.
    destruct (p_kind p); simpl; [| done | done | done].
    unfold capture_args. rewrite Hwd. by eexists _, _.
Qed.

(** X19: in a session of a controller built in test mode the controller and
    the iperf client are the simulation scripts, but the capture job
    is the real script and the server the real iperf. *)
Theorem test_mode_launches (cwd : string) (acts : list action) (w0 : world)
    (pid : nat) (p : osproc) :
  (length (procs w0) ≤ pid)%nat →
  procs (snd (final (run_session env acts (init cwd true, w0)))) !! pid = Some p →
  test_mode_args cwd p.
Proof.
  intros Hpid Hp.
  assert (test_mode_kept cwd w0 (final (run_session env acts (init cwd true, w0))))
    as (_ & _ & _ & _ & H).
  { apply (session_invariant env (test_mode_kept cwd w0)).
    - intros a st. apply action_keeps_test_mode.
    - repeat split. intros pid' p' Hpid' Hp'. simpl in Hp'.
      apply lookup_lt_Some in Hp'. lia. }
  by apply (H pid).
Qed.

Lemma action_keeps_controller_args (cwd : string) (test_mode : bool) (w0 : world)
    (a : action) (st : state) :
  controller_args_kept cwd test_mode w0 st →
  controller_args_kept cwd test_mode w0 (final (run_action env a st)).
Proof.
  destruct st as [s w]. intros (Hsg & Hp). simpl in *.
  destruct a as [o fuel | f | r | x | r | m]; simpl; try done.
  pose proof (run_op_effect env o fuel s w) as Heff.
  pose proof Heff as (news & _ & _ & Hset & _).
  destruct Hset as (_ & _ & _ & _ & _ & _ & _ & _ & _ & Hsg').
  split; [congruence |].
  intros pid p Hpid Hlook Hk.
  destruct (decide (pid < length (procs w))%nat) as [Hold | Hnew].
  - rewrite (effect_old s w _ _ Heff pid Hold) in Hlook. by apply (Hp pid).
  - destruct (effect_new s w _ _ Heff pid p ltac:(lia) Hlook) as (Hargs & _).
    rewrite Hargs, Hk. simpl. exact Hsg.
Qed.

(** X20: the command line of the controller job is built once, by
    [__init__], with the run time of that moment: a later change of
    [run_time] does not reach the controller jobs of the session. *)
Theorem controller_args_fixed_at_construction (cwd : string) (test_mode : bool)
    (acts : list action) (w0 : world) :
  controller_args_kept cwd test_mode w0
    (final (run_session env acts (init cwd test_mode, w0))).
Proof.
  apply (session_invariant env (controller_args_kept cwd test_mode w0)).
  - intros a st. apply action_keeps_controller_args.
  - split; [by destruct test_mode |]. intros pid p Hpid Hp. simpl in Hp.
    apply lookup_lt_Some in Hp. lia.
Qed.

End Behaviour.

Section Reaping.
Variable env : nat → list string → option (option nat * Z).

Lemma kill_running (k : kind) (n : nat) (s : controller) (w : world) (p : osproc) :
  get_proc k s = Some (mkPopen n None) → procs w !! n = Some p →
  state_at (now w) p = Running →
  kill k (s, w) =
  Returns tt (set_proc k (Some (mkPopen n None)) s,
              after_kill n (with_kill (now w) p) w).
Proof.
  intros Hget Hp Hrun. unfold kill. simpl. rewrite Hget. simpl.
  destruct (refresh_fresh w n) as [(_ & Heq & _) | (c & p0 & _ & Hp0 & Hover)].
  - rewrite Heq. simpl. by rewrite Hp.
  - rewrite Hp in Hp0. injection Hp0 as <-.
    unfold over_at in Hover. by rewrite Hrun in Hover.
Qed.

Lemma teardown_alone_running (s4 : controller) (w4 : world) (ns : nat) (ps : osproc) :
  truthy (iperf_client_addr s4) = false →
  get_proc IperfServer s4 = Some (mkPopen ns None) →
  procs w4 !! ns = Some ps → state_at (now w4) ps = Running →
  teardown (s4, w4) =
  Returns tt
    (set_proc IperfServer (Some (mkPopen ns None)) s4,
     printed ("Done sensing with iperf" ++ nl)%string
       (after_kill ns (with_kill (now w4) ps) w4)).
Proof.
  intros Hc Hget Hp Hrun.
  pose proof (kill_running IperfServer ns s4 w4 ps Hget Hp Hrun) as Hkill.
  unfold teardown. unfold bind at 1. unfold self at 1. cbv beta iota. unfold fst at 1.
  rewrite Hc. unfold bind at 1. unfold ret at 1. cbv beta iota.
  unfold bind at 1. by rewrite Hkill.
Qed.

Lemma teardown_client_running (s4 : controller) (w4 : world) (nc ns : nat)
    (pc ps : osproc) :
  truthy (iperf_client_addr s4) = true →
  get_proc IperfClient s4 = Some (mkPopen nc None) →
  get_proc IperfServer s4 = Some (mkPopen ns None) →
  nc ≠ ns →
  procs w4 !! nc = Some pc → procs w4 !! ns = Some ps →
  (p_start pc ≤ now w4)%nat → state_at (now w4 + 1) ps = Running →
  ∃ rcc pc',
    teardown (s4, w4) =
    Returns tt
      (set_proc IperfServer (Some (mkPopen ns None))
         (set_proc IperfClient (Some (mkPopen nc rcc)) s4),
       printed ("Done sensing with iperf" ++ nl)%string
         (after_kill ns (with_kill (now w4 + 1) ps) (after_kill nc pc' w4))).
Proof.
  intros Hc Hgc Hgs Hne Hpc Hps Hsc Hrun.
  destruct (kill_spec IperfClient nc s4 w4 pc Hgc Hpc Hsc) as (rcc & pc' & Hkc & _).
  pose proof (kill_running IperfServer ns
                (set_proc IperfClient (Some (mkPopen nc rcc)) s4)
                (after_kill nc pc' w4) ps) as Hks.
  rewrite get_set_proc_ne in Hks by done. specialize (Hks Hgs).
  simpl in Hks. rewrite list_lookup_insert_ne in Hks by done.
  specialize (Hks Hps Hrun).
  exists rcc, pc'.
  unfold teardown. unfold bind at 1. unfold self at 1. cbv beta iota. unfold fst at 1.
  rewrite Hc. unfold bind at 1. rewrite Hkc. cbv beta iota.
  unfold bind at 1. by rewrite Hks.
Qed.

Lemma killed_state (p : osproc) (t t' : nat) :
  (p_start p ≤ t')%nat → (t ≤ t')%nat → state_at t' (with_kill t p) = Terminated.
Proof.
  intros Hs Ht. unfold state_at. simpl.
  replace (t' <? p_start p)%nat with false by (symmetry; apply Nat.ltb_ge; lia).
  by replace (t <=? t')%nat with true by (symmetry; apply Nat.leb_le; lia).
Qed.

(** A launch that succeeds gives the child the environment has for it. *)
Lemma launch_Ok (n : nat) (args : list string) (child : option nat * Z) :
  launch env n args = Ok child → env n args = Some child.
Proof.
  unfold launch. destruct args as [|a args]; [done |].
  destruct (has_nul (a :: args)); [done |].
  destruct (env n (a :: args)) as [c|]; [| done]. by intros [= ->].
Qed.

(** X21: [start_usrp_iperf] does not wait for the processes it kills: an
    iperf server that does not end by itself is killed at the end,
    and on return its handle still has no return code. *)
Theorem killed_server_has_no_returncode (fuel : nat) (s s' : controller)
    (w w' : world) (cs : Z) :
  env (server_pid s w) (iperf_server_args s) = Some (None, cs) →
  start_usrp_iperf env fuel (s, w) = Returns tt (s', w') →
  ∃ p t,
    iperf_server_proc s' = Some (mkPopen (server_pid s w) None) ∧
    procs w' !! server_pid s w = Some p ∧ p_kind p = IperfServer ∧
    p_killed p = Some t ∧ (t < now w')%nat ∧
    state_at (now w') p = Terminated.
Proof.
  unfold server_pid. intros Henvs Hrun.
  destruct (truthy (iperf_client_addr s)) eqn:Hc.
  - rewrite (start_usrp_iperf_client_eq env fuel s w Hc) in Hrun. cbv zeta in Hrun.
    destruct (launch env (length (procs w)) (iperf_client_args s)) as [[lc cc]|e]; [| done].
    destruct (launch env (S (length (procs w))) (iperf_server_args s))
      as [[ls cs']|e] eqn:Hls; [| done].
    apply launch_Ok in Hls. rewrite Henvs in Hls. injection Hls as <- <-.
    destruct (launch env (S (S (length (procs w)))) (capture_args s)) as [[lu cu]|e]; [| done].
    set (n := length (procs w)) in *.
    set (w1 := printed ("Running USRP with interference injected..." ++ nl)%string w) in *.
    set (ss := set_usrp_control_args (capture_args s)
                 (set_proc IperfServer (Some (mkPopen (S n) None))
                    (set_proc IperfClient (Some (mkPopen n None)) s))) in *.
    set (wc := spawned IperfClient (iperf_client_args s) lc cc w1) in *.
    set (ws := spawned IperfServer (iperf_server_args s) None cs wc) in *.
    set (wu := spawned Usrp (capture_args s) lu cu ws) in *.
    pose proof (wait_one_loop iperf_loop Usrp (S (S n)) ss
                  (watches_read Usrp (S (S n)) ss) fuel wu) as Hloop.
    destruct (while_true iperf_loop fuel _) as [[] st4 | e st4 | st4]; try done.
    destruct Hloop as (c & wl & -> & Hw & _). simpl in Hrun.
    pose (pc := mkProc IperfClient (iperf_client_args s) (now w) lc cc None).
    pose (ps := mkProc IperfServer (iperf_server_args s) (now w + 1) None cs None).
    pose proof (waited_now _ _ _ Hw) as Hnow.
    destruct (teardown_client_running
                (set_proc Usrp (Some (mkPopen (S (S n)) (Some c))) ss) wl n (S n) pc ps)
      as (rcc & pc' & Htd).
    + exact Hc.
    + reflexivity.
    + reflexivity.
    + lia.
    + rewrite (waited_lookup _ _ _ n Hw). subst wu ws wc w1 n. simpl.
      rewrite <- !app_assoc. apply lookup_new.
    + rewrite (waited_lookup _ _ _ (S n) Hw). subst wu ws wc w1 n. simpl.
      rewrite <- !app_assoc. apply lookup_new_next.
    + subst wu ws wc w1. simpl in Hnow |- *. lia.
    + apply unkilled_runs_on; [done | done |].
      subst wu ws wc w1. simpl in Hnow |- *. lia.
    + rewrite Htd in Hrun. injection Hrun as <- <-.
      exists (with_kill (now wl + 1) ps), (now wl + 1)%nat.
      split; [done |]. simpl. split.
      * apply list_lookup_insert_eq. rewrite length_insert.
        destruct Hw as (-> & _). subst wu ws wc w1 n. simpl.
        rewrite !length_app. simpl. lia.
      * split; [done |]. split; [done |]. split; [lia |].
        apply killed_state; subst wu ws wc w1; simpl in Hnow |- *; lia.
  - rewrite (start_usrp_iperf_alone_eq env fuel s w Hc) in Hrun. cbv zeta in Hrun.
    destruct (launch env (length (procs w)) (iperf_server_args s))
      as [[ls cs']|e] eqn:Hls; [| done].
    apply launch_Ok in Hls. rewrite Henvs in Hls. injection Hls as <- <-.
    destruct (launch env (S (length (procs w))) (capture_args s)) as [[lu cu]|e]; [| done].
    set (n := length (procs w)) in *.
    set (w1 := printed ("Running USRP with interference injected..." ++ nl)%string w) in *.
    set (ss := set_usrp_control_args (capture_args s)
                 (set_proc IperfServer (Some (mkPopen n None)) s)) in *.
    set (ws := spawned IperfServer (iperf_server_args s) None cs w1) in *.
    set (wu := spawned Usrp (capture_args s) lu cu ws) in *.
    pose proof (wait_one_loop iperf_loop Usrp (S n) ss
                  (watches_read Usrp (S n) ss) fuel wu) as Hloop.
    destruct (while_true iperf_loop fuel _) as [[] st4 | e st4 | st4]; try done.
    destruct Hloop as (c & wl & -> & Hw & _). simpl in Hrun.
    pose (ps := mkProc IperfServer (iperf_server_args s) (now w) None cs None).
    pose proof (waited_now _ _ _ Hw) as Hnow.
    rewrite (teardown_alone_running
               (set_proc Usrp (Some (mkPopen (S n) (Some c))) ss) wl n ps) in Hrun.
    + injection Hrun as <- <-.
      exists (with_kill (now wl) ps), (now wl).
      split; [done |]. simpl. split.
      * apply list_lookup_insert_eq.
        destruct Hw as (-> & _). subst wu ws w1 n. simpl.
        rewrite !length_app. simpl. lia.
      * split; [done |]. split; [done |]. split; [lia |].
        apply killed_state; subst wu ws w1; simpl in Hnow |- *; lia.
    + exact Hc.
    + reflexivity.
    + rewrite (waited_lookup _ _ _ n Hw). subst wu ws w1 n. simpl.
      rewrite <- app_assoc. apply lookup_new.
    + apply unkilled_runs_on; [done | done |].
      subst wu ws w1. simpl in Hnow |- *. lia.
Qed.

End Reaping.

(** ** The further properties on sample inputs *)

Lemma max_cell_level_not_positive_witness :
  max_cell_level negative_cells = Ok (mkCell (Some "far") (Some "-70")).
Proof.
  apply (max_cell_level_not_positive (mkCell (Some "far") (Some "-70"))
           [mkCell (Some "near") (Some "-30")]).
  apply Forall_cons. split.
  { exists "-70"%string, (-70).
    split; [reflexivity | split; [reflexivity | split; [reflexivity | lia]]]. }
  apply Forall_cons. split.
  { exists "-30"%string, (-30).
    split; [reflexivity | split; [reflexivity | split; [reflexivity | lia]]]. }
  by apply Forall_nil.
Defined.

Lemma max_cell_level_first_error_witness :
  max_cell_level [mkCell None (Some "42"); mkCell None (Some "4x"); mkCell None None]
  = Err ValueError.
Proof.
  apply (max_cell_level_first_error [mkCell None (Some "42")] [mkCell None None]
           (mkCell None (Some "4x")) ValueError).
  - apply Forall_cons. split; [| by apply Forall_nil].
    intros l [= <-]. reflexivity.
  - intros l [= <-]. reflexivity.
  - apply Forall_cons. split; [| by apply Forall_nil].
    exists "42"%string, 42. split; reflexivity.
  - reflexivity.
Defined.

Lemma get_level_range_witness :
  ∃ n, py_int (Some "100"%string) = Ok n ∧ 0 ≤ n ≤ 999.
Proof.
  apply (get_level_range "Quality=70/70  Signal level=100/100" "100").
  reflexivity.
Defined.

Lemma network_scan_strongest_witness :
  ∃ (i : nat) (c : Cell) (n : Z),
    network_scan (λ _, Ok sample_air) "wlan0" = Ok (essid c) ∧
    get_cells sample_air !! i = Some c ∧ py_int (level c) = Ok n ∧
    (∀ j cj nj, get_cells sample_air !! j = Some cj → py_int (level cj) = Ok nj →
                nj ≤ n) ∧
    (∀ j cj nj, (j < i)%nat → get_cells sample_air !! j = Some cj →
                py_int (level cj) = Ok nj → nj < n).
Proof.
  apply (network_scan_strongest (λ _, Ok sample_air) "wlan0" sample_air).
  - reflexivity.
  - vm_compute. discriminate.
  - vm_compute.
    repeat (apply Forall_cons; split; [discriminate |]). by apply Forall_nil.
Defined.

Lemma get_essid_Some_witness :
  ∃ pre post,
    sample_essid_line = (pre ++ essid_open ++ "home" ++ quote ++ post)%string ∧
    has_char newline "home" = false ∧
    has_char dquote (first_line post) = false.
Proof.
  apply (get_essid_Some sample_essid_line "home"). reflexivity.
Defined.

Lemma strongest_cell_str_witness :
  ∃ l, level (mkCell (Some "lab") (Some "77")) = Some l ∧
       Cell_str (mkCell (Some "lab") (Some "77")) = Ok ("lab" ++ ", " ++ l)%string.
Proof.
  exact (strongest_cell_str sample_cells (mkCell (Some "lab") (Some "77")) eq_refl).
Defined.

Lemma start_single_liveness_witness :
  ∃ st, run_op sample_env StartController 10 (sample_controller, world0) = Returns tt st.
Proof.
  destruct (start_single_liveness sample_env StartController Controller
              sample_controller world0 eq_refl) as (_ & H & _).
  apply (H 3%nat 0 10%nat); [reflexivity | lia].
Defined.

Lemma start_joint_liveness_witness :
  ∃ st, run_op sample_env StartIperf 10 (sample_controller, world0) = Spins st.
Proof.
  destruct (start_joint_liveness sample_env StartIperf IperfClient IperfServer
              sample_controller world0 eq_refl) as (_ & _ & H).
  apply (H None None 10%nat); [| by left].
  exists 0, 0. split; reflexivity.
Defined.

Lemma kill_only_after_capture_witness :
  ∃ evs,
    trace (snd (final (run_op sample_env StartUsrp 10 (sample_controller, world0)))) =
      trace world0 ++ evs ∧
    Forall (λ e, is_kill e = false) evs ∧
    ∀ pid p,
      procs (snd (final (run_op sample_env StartUsrp 10 (sample_controller, world0))))
        !! pid = Some p →
      (length (procs world0) ≤ pid)%nat → p_killed p = None.
Proof.
  apply (kill_only_after_capture sample_env StartUsrp 10 sample_controller world0).
  left. discriminate.
Defined.

Lemma start_raises_only_launch_failure_witness :
  ∃ k, k ∈ plan nul_controller StartUsrp ∧
    launch sample_env
      (length (procs (snd (final (run_op sample_env StartUsrp 10
                                    (nul_controller, world0))))))
      (args_for nul_controller k) = Err ValueError ∧
    (ValueError = IndexError ∧ args_for nul_controller k = [] ∨
     ValueError = ValueError ∧ has_nul (args_for nul_controller k) = true ∨
     ValueError = OSError ∧
     sample_env
       (length (procs (snd (final (run_op sample_env StartUsrp 10
                                     (nul_controller, world0))))))
       (args_for nul_controller k) = None).
Proof.
  apply (start_raises_only_launch_failure sample_env StartUsrp 10
           nul_controller world0 ValueError
           (final (run_op sample_env StartUsrp 10 (nul_controller, world0)))).
  vm_compute. reflexivity.
Defined.

Lemma failed_capture_launch_leaves_iperf_witness :
  ∃ s' w' ps,
    start_usrp_iperf failing_env 10 (sample_controller, world0) = Raises OSError (s', w') ∧
    procs w' !! 1%nat = Some ps ∧ p_kind ps = IperfServer ∧
    ∀ pid p,
      (0 ≤ pid)%nat → procs w' !! pid = Some p →
      p_kind p ≠ Usrp ∧ p_killed p = None ∧
      (p_life p = None → ∀ t, (0 ≤ t)%nat → (p_start p ≤ t)%nat →
                         state_at t p = Running).
Proof.
  apply (failed_capture_launch_leaves_iperf failing_env 10 sample_controller world0
           OSError).
  - split; [intros _ |]; eexists; reflexivity.
  - reflexivity.
Defined.

Lemma test_mode_launches_witness :
  test_mode_args "/home/ants"
    (mkProc Usrp ["python"; "/home/ants/utils/writeIQ.py"; "a"; "0.5"]%string
       0 (Some 3%nat) 0 None).
Proof.
  apply (test_mode_launches sample_env "/home/ants" test_session world0 0).
  - simpl. lia.
  - vm_compute. reflexivity.
Defined.

Lemma killed_server_has_no_returncode_witness :
  ∃ p t,
    iperf_server_proc
      (fst (final (start_usrp_iperf sample_env 10 (sample_controller, world0)))) =
      Some (mkPopen 1 None) ∧
    procs (snd (final (start_usrp_iperf sample_env 10 (sample_controller, world0))))
      !! 1%nat = Some p ∧
    p_kind p = IperfServer ∧ p_killed p = Some t ∧
    (t < now (snd (final (start_usrp_iperf sample_env 10 (sample_controller, world0)))))%nat ∧
    state_at
      (now (snd (final (start_usrp_iperf sample_env 10 (sample_controller, world0))))) p
    = Terminated.
Proof.
  apply (killed_server_has_no_returncode sample_env 10 sample_controller _ world0 _ 0).
  - reflexivity.
  - vm_compute. reflexivity.
Defined.
